(** * Cross-sheet selection merge and sheet creation (grist-core client)

    A shallow embedding of
    - [SheetCreationUtils] (layout merge, table-name resolver, two-step
      sheet creation),
    - [GlobalCellSelection] (the selection store and its formatting step),
    - [showNewSheetNameModal] (the name dialog's submit path),
    together with the properties the specification states about them.

    Modelling conventions.
    - JavaScript strings are [string] (one ascii per code unit), numbers
      that count things are [nat], cell values are the small universe
      [JsVal] (integers stand for JS numbers).
    - A JS object used as a map is a [gmap string _] of its own
      properties.  Objects are created by object literals, so they inherit
      from [Object.prototype]: reading a key that is no own property finds
      the members of [Object.prototype] ([constructor], [toString],
      [__proto__], ...), and assigning to [__proto__] runs the accessor of
      [Object.prototype], which adds no own property.  The rows of a
      formatted selection are written under arbitrary labels, so they carry
      their prototype link ([Obj]); a row inherits from [Object.prototype]
      or, after [null] was assigned to [__proto__], from nothing.  A row
      cannot take a built-in function for prototype in this model: the one
      assignment that would make it so (a built-in function read from
      [Object.prototype] and assigned to [__proto__]) leaves the row's
      prototype as it is.
    - [bulkData], whose enumeration order the code relies on
      ([Object.values(..)[0]]), is the association list of its own
      properties in property order, which is what [Object.keys],
      [Object.values] and the action sent to the document see.  Every key
      the merge writes contains an underscore, so property order is
      insertion order.
    - [throw] is the constructor [Throw] of [Result]; [try]/[catch] is
      [try_catch].  The one unbounded [while] loop runs on fuel, and
      [Diverges] marks fuel running out. *)

From stdpp Require Import base decidable option list list_numbers strings pretty gmap sets.
From Stdlib Require Import Ascii.

Local Open Scope string_scope.
Local Open Scope list_scope.
Set Warnings "-clear-no-such-hyp".

(* ===================================================================== *)
(** * Values and results *)
(* ===================================================================== *)

Module Js.

(** The cell values the program moves around ([any] in the source). *)
Inductive JsVal : Type :=
  | VUndefined
  | VNull
  | VBool (b : bool)
  | VNum (n : Z)
  | VStr (s : string)
  | VBuiltin (member : string).
      (* the built-in object that objects inherit under the property
         [member] of Object.prototype: the function Object for
         constructor, Object.prototype itself for __proto__, the method
         for the other names *)

Global Instance JsVal_eq_dec : EqDecision JsVal.
Proof. solve_decision. Defined.

(** JavaScript truthiness: [undefined], [null], [false], [0] and [""] are
    falsy; an object is truthy. *)
Definition truthy (v : JsVal) : bool :=
  match v with
  | VUndefined | VNull => false
  | VBool b => b
  | VNum n => negb (Z.eqb n 0)
  | VStr s => negb (String.eqb s "")
  | VBuiltin _ => true
  end.

(** [a || b]. *)
Definition js_or (a b : JsVal) : JsVal := if truthy a then a else b.

(** The string-keyed properties of [Object.prototype]. *)
Definition objectPrototypeMembers : list string :=
  [ "constructor"; "__defineGetter__"; "__defineSetter__"; "hasOwnProperty";
    "__lookupGetter__"; "__lookupSetter__"; "isPrototypeOf";
    "propertyIsEnumerable"; "toString"; "valueOf"; "__proto__";
    "toLocaleString" ].

(** What an object that inherits from [Object.prototype] finds under a key
    it does not own. *)
Definition inherited (key : string) : JsVal :=
  if bool_decide (key ∈ objectPrototypeMembers) then VBuiltin key
  else VUndefined.

(** [obj[key]] on an object made by an object literal, given by its own
    properties: the own property, else what [Object.prototype] has. *)
Definition obj_get (o : gmap string JsVal) (key : string) : JsVal :=
  default (inherited key) (o !! key).

(** What an object inherits from. *)
Inductive Proto : Type :=
  | ObjectPrototype
  | NullPrototype.

Global Instance Proto_eq_dec : EqDecision Proto.
Proof. solve_decision. Defined.

(** An object with its prototype link. *)
Record Obj : Type := MkObj {
  own : gmap string JsVal;
  proto : Proto
}.

Global Instance Obj_eq_dec : EqDecision Obj.
Proof. solve_decision. Defined.

(** The object literal with the own properties [props]. *)
Definition plain (props : gmap string JsVal) : Obj :=
  {| own := props; proto := ObjectPrototype |}.

(** [obj[key]]. *)
Definition get_prop (o : Obj) (key : string) : JsVal :=
  match own o !! key with
  | Some v => v
  | None =>
      match proto o with
      | ObjectPrototype => inherited key
      | NullPrototype => VUndefined
      end
  end.

(** [obj[key] = v].  An own property is overwritten.  Otherwise the key is
    looked up along the prototype chain: [__proto__] is an accessor of
    [Object.prototype], whose setter adds no own property; it makes [null]
    the prototype of [obj] and ignores a primitive value.  Every other
    member of [Object.prototype] is a writable data property, so the
    assignment adds an own property, as it does for a key that is not
    found.  (For a built-in object the setter installs that object as the
    prototype, which changes nothing for [Object.prototype] itself; a
    built-in function is not followed as a prototype here, see the
    conventions above.) *)
Definition set_prop (o : Obj) (key : string) (v : JsVal) : Obj :=
  match own o !! key, proto o with
  | None, ObjectPrototype =>
      if bool_decide (key = "__proto__") then
        match v with
        | VNull => {| own := own o; proto := NullPrototype |}
        | VBuiltin _ => o
        | _ => o
        end
      else {| own := <[key := v]> (own o); proto := proto o |}
  | _, _ => {| own := <[key := v]> (own o); proto := proto o |}
  end.

(** Truthiness of a possibly missing string property. *)
Definition truthy_str (s : option string) : bool :=
  match s with
  | Some s => negb (String.eqb s "")
  | None => false
  end.

(** The errors the modelled code raises. *)
Inductive Error : Type :=
  | NoFormattedData      (* 'No formatted data provided for sheet creation' *)
  | NoValidColumns       (* 'No valid columns found in formatted data' *)
  | NameGenerationExhausted (maxRetries : nat)
                         (* 'Could not generate unique table name after N attempts' *)
  | EmptySheetName       (* 'Sheet name cannot be empty' *)
  | TypeError            (* property access on null *)
  | HostError (msg : string). (* a rejected host call *)

Global Instance Error_eq_dec : EqDecision Error.
Proof. solve_decision. Defined.

Inductive Result (A : Type) : Type :=
  | Ok (a : A)
  | Throw (e : Error)
  | Diverges.
Global Arguments Ok {A} a.
Global Arguments Throw {A} e.
Global Arguments Diverges {A}.

Definition bind {A B} (m : Result A) (k : A → Result B) : Result B :=
  match m with
  | Ok a => k a
  | Throw e => Throw e
  | Diverges => Diverges
  end.

(** [try { body } catch (e) { handler }]. *)
Definition try_catch {A} (body : Result A) (handler : Error → Result A) : Result A :=
  match body with
  | Throw e => handler e
  | r => r
  end.

End Js.
Import Js.

Notation "'let*' x ':=' m 'in' k" := (Js.bind m (fun x => k))
  (at level 10, x pattern, m at level 100, k at level 200).

(* ===================================================================== *)
(** * SheetCreationUtils: the table-name resolver *)
(* ===================================================================== *)

Module NameResolver.

(** [`${base}_${counter}`]. *)
Definition suffixed (base : string) (counter : nat) : string :=
  base +:+ "_" +:+ pretty counter.

(** The body of the [while (counter <= maxRetries)] loop of
    [_generateUniqueTableName].  [left] is the number of iterations the
    loop condition still allows, [maxRetries + 1 - counter]. *)
Fixpoint generate_loop (tableExists : string → bool) (baseTableName : string)
    (maxRetries : nat) (left : nat) (counter : nat) (tableName : string)
    : Result string :=
  match left with
  | 0 => Throw (NameGenerationExhausted maxRetries)
  | S left' =>
      if tableExists tableName
      then generate_loop tableExists baseTableName maxRetries left'
             (S counter) (suffixed baseTableName counter)
      else Ok tableName
  end.

(** [_generateUniqueTableName(gristDoc, baseTableName, maxRetries)];
    [tableExists name] stands for
    [gristDoc.docModel.tables.rowModels.find(t => t.tableId.peek() === name)]
    being found. *)
Definition _generateUniqueTableName (tableExists : string → bool)
    (baseTableName : string) (maxRetries : nat) : Result string :=
  generate_loop tableExists baseTableName maxRetries maxRetries 1 baseTableName.

Definition defaultMaxRetries : nat := 10.

(** The [k]-th candidate name: the base name itself, then [base_1],
    [base_2], ... *)
Definition candidate (base : string) (k : nat) : string :=
  match k with
  | 0 => base
  | S _ => suffixed base k
  end.

End NameResolver.

(* ===================================================================== *)
(** * SheetCreationUtils: the layout merge *)
(* ===================================================================== *)

(** [IColumnInfo]. *)
Module Column.
Record t : Type := Build { id : string; label : string; type : string }.
Global Instance eq_dec : EqDecision t.
Proof. solve_decision. Defined.
End Column.

(** [IBulkData]: its own properties, in property order. *)
Definition BulkData : Type := list (string * list JsVal).

(** [o[key] = v] on an object kept in property order: an existing key keeps
    its place, a new key goes last. *)
Fixpoint assoc_set {V} (o : list (string * V)) (key : string) (v : V)
    : list (string * V) :=
  match o with
  | [] => [(key, v)]
  | (k, w) :: o' =>
      if decide (k = key) then (k, v) :: o' else (k, w) :: assoc_set o' key v
  end.

(** The own property [key] of [o]. *)
Fixpoint assoc_get {V} (o : list (string * V)) (key : string) : option V :=
  match o with
  | [] => None
  | (k, w) :: o' => if decide (k = key) then Some w else assoc_get o' key
  end.

(** [o[key] = v] for an array [v], on an object without an own property
    [__proto__] that inherits from [Object.prototype], directly or through
    an array.  Under the key [__proto__] the assignment runs the accessor
    of [Object.prototype]: the array becomes the prototype of [o], and [o]
    gets no own property. *)
Definition assign_array {V} (o : list (string * V)) (key : string) (v : V)
    : list (string * V) :=
  if bool_decide (key = "__proto__") then o else assoc_set o key v.

(** The entries [getFormattedData] produces and the merge consumes. *)
Module Formatted.
Record t : Type := Build {
  id : string;
  sheet : option string;
  table : option string;
  timestamp : nat;            (* shown through toLocaleString; display only *)
  rowCount : nat;
  columnCount : nat;
  headers : option (list string);           (* None: not an array *)
  data : option (list Obj)                  (* None: not an array *)
}.
End Formatted.

Module Merge.

(** The character class [[a-zA-Z0-9_]]. *)
Definition is_word_char (c : ascii) : bool :=
  let n := N_of_ascii c in
  ((48 <=? n) && (n <=? 57) || (65 <=? n) && (n <=? 90)
   || (97 <=? n) && (n <=? 122) || (n =? 95))%N.

(** [tableName.replace(/[^a-zA-Z0-9_]/g, '_')]. *)
Fixpoint sanitize (s : string) : string :=
  match s with
  | EmptyString => EmptyString
  | String c s' => String (if is_word_char c then c else "_"%char) (sanitize s')
  end.

(** [`${safeTableName}_`] for the selection at [selectionIndex]. *)
Definition prefixOf (selectionIndex : nat) (entry : Formatted.t) : string :=
  let tableName :=
    if truthy_str (Formatted.table entry)
    then default "" (Formatted.table entry)
    else "S" +:+ pretty (selectionIndex + 1) in
  sanitize tableName +:+ "_".

(** The [while (usedColumnIds.has(columnId))] loop, on fuel. *)
Fixpoint dedup_loop (fuel : nat) (usedColumnIds : gset string)
    (baseColumnId prefix header : string)
    (counter : nat) (columnId columnLabel : string) : option (string * string) :=
  match fuel with
  | 0 => None
  | S fuel' =>
      if decide (columnId ∈ usedColumnIds)
      then dedup_loop fuel' usedColumnIds baseColumnId prefix header (S counter)
             (baseColumnId +:+ "_" +:+ pretty counter)
             (prefix +:+ header +:+ "_" +:+ pretty counter)
      else Some (columnId, columnLabel)
  end.

(** The value pushed for [rowIndex] in the column of [header]. *)
Definition cellValue (entry : Formatted.t) (header : string) (rowIndex : nat)
    : JsVal :=
  match Formatted.data entry with
  | Some rows =>
      match rows !! rowIndex with
      | Some row => js_or (get_prop row header) (VStr "")
      | None => VStr ""
      end
  | None => VStr ""
  end.

(** [for (let rowIndex = 0; rowIndex < maxRows; rowIndex++) push(value)]. *)
Definition columnData (maxRows : nat) (entry : Formatted.t) (header : string)
    : list JsVal :=
  cellValue entry header <$> seq 0 maxRows.

Record State : Type := MkState {
  columns : list Column.t;
  bulkData : BulkData;
  usedColumnIds : gset string
}.

Definition init : State :=
  {| columns := []; bulkData := []; usedColumnIds := ∅ |}.

(** One iteration of [for (const header of entry.headers)].  The id loop
    gets one more unit of fuel than there are used ids, which is always
    enough: among that many candidates one is unused.  The array assigned
    to [bulkData[columnId]] is given with the values the row loop pushes
    onto it; for the id [__proto__] both the assignment and the pushes
    reach the prototype of [bulkData] and not an own property. *)
Definition addColumn (maxRows : nat) (entry : Formatted.t) (prefix : string)
    (st : State) (header : string) : Result State :=
  let baseColumnId := prefix +:+ header in
  match dedup_loop (S (size (usedColumnIds st))) (usedColumnIds st)
          baseColumnId prefix header 1 baseColumnId (prefix +:+ header) with
  | None => Diverges
  | Some (columnId, columnLabel) =>
      Ok {| columns := columns st ++
              [ {| Column.id := columnId; Column.label := columnLabel;
                   Column.type := "Text" |} ];
            bulkData := assign_array (bulkData st) columnId
                          (columnData maxRows entry header);
            usedColumnIds := {[ columnId ]} ∪ usedColumnIds st |}
  end.

Fixpoint addColumns (maxRows : nat) (entry : Formatted.t) (prefix : string)
    (st : State) (hs : list string) : Result State :=
  match hs with
  | [] => Ok st
  | header :: hs' =>
      let* st' := addColumn maxRows entry prefix st header in
      addColumns maxRows entry prefix st' hs'
  end.

(** The [for (selectionIndex ...)] loop. *)
Fixpoint processSelections (maxRows : nat) (selectionIndex : nat)
    (st : State) (formattedData : list Formatted.t) : Result State :=
  match formattedData with
  | [] => Ok st
  | entry :: rest =>
      match Formatted.headers entry with
      | None => processSelections maxRows (S selectionIndex) st rest
      | Some hs =>
          let* st' := addColumns maxRows entry (prefixOf selectionIndex entry) st hs in
          processSelections maxRows (S selectionIndex) st' rest
      end
  end.

(** [Math.max(...formattedData.map(entry => entry.rowCount || 0))] on a
    non-empty array. *)
Definition maxRowsOf (formattedData : list Formatted.t) : nat :=
  max_list (Formatted.rowCount <$> formattedData).

Definition convertGlobalSelectionData (formattedData : list Formatted.t)
    : Result (list Column.t * BulkData) :=
  if (length formattedData =? 0)%nat then Throw NoFormattedData
  else
    let maxRows := maxRowsOf formattedData in
    let* st := processSelections maxRows 0 init formattedData in
    if (length (columns st) =? 0)%nat then Throw NoValidColumns
    else Ok (columns st, bulkData st).

End Merge.

(* ===================================================================== *)
(** * The host document *)
(* ===================================================================== *)

Module Host.

(** The two user actions sent through [gristDoc.docModel.docData.sendAction]. *)
Inductive Action : Type :=
  | AddTable (tableId : string) (columns : list Column.t)
  | BulkAddRecord (tableId : string) (rowIds : list JsVal) (bulkData : BulkData).

(** A table record of [gristDoc.docModel.tables.rowModels]. *)
Record TableRec : Type := MkTableRec {
  tableId : string;             (* t.tableId.peek() *)
  rawViewSectionRef : nat       (* t.rawViewSectionRef.peek(); 0 is falsy *)
}.

(** What the program does to the outside, in order. *)
Inductive Event : Type :=
  | Sent (a : Action)
  | OpenedDocPage (viewSection : nat)
  | ConsoleLog (msg : string)
  | ConsoleError (msg : string)
  | ModalShown (suggested : string).

(** The document as the program sees it.  [sendAction] gives back what the
    host resolves with (for [AddTable], the table id the host settled on) or
    rejects; either way the document may have changed. *)
Record GristDoc (Doc : Type) : Type := MkGristDoc {
  rowModels : Doc → list TableRec;
  sendAction : Action → Doc → Result (option string) * Doc;
  openDocPage : nat → Doc → Result unit * Doc
}.
Global Arguments rowModels {Doc} _ _.
Global Arguments sendAction {Doc} _ _ _.
Global Arguments openDocPage {Doc} _ _ _.

Record World (Doc : Type) : Type := MkWorld {
  doc : Doc;
  trace : list Event
}.
Global Arguments MkWorld {Doc} _ _.
Global Arguments doc {Doc} _.
Global Arguments trace {Doc} _.

(** Computations that may throw and that change the world. *)
Definition M (Doc A : Type) : Type := World Doc → Result A * World Doc.

Definition ret {Doc A} (a : A) : M Doc A := λ w, (Ok a, w).

Definition bindM {Doc A B} (m : M Doc A) (k : A → M Doc B) : M Doc B :=
  λ w, match m w with
       | (Ok a, w') => k a w'
       | (Throw e, w') => (Throw e, w')
       | (Diverges, w') => (Diverges, w')
       end.

Definition lift {Doc A} (r : Result A) : M Doc A := λ w, (r, w).

Definition emit {Doc} (ev : Event) : M Doc unit :=
  λ w, (Ok tt, MkWorld (doc w) (trace w ++ [ev])).

(** [try { body } catch (e) { handler(e) }]. *)
Definition tryM {Doc A} (body : M Doc A) (handler : Error → M Doc A) : M Doc A :=
  λ w, match body w with
       | (Throw e, w') => handler e w'
       | r => r
       end.

Section WithDoc.
Context {Doc : Type} (gristDoc : GristDoc Doc).

(** [rowModels.find(t => t.tableId.peek() === name)]. *)
Definition findTable (d : Doc) (name : string) : option TableRec :=
  List.find (λ t, bool_decide (tableId t = name)) (rowModels gristDoc d).

Definition tableExists (d : Doc) (name : string) : bool :=
  bool_decide (is_Some (findTable d name)).

(** [await gristDoc.docModel.docData.sendAction(a)]. *)
Definition send (a : Action) : M Doc (option string) :=
  λ w, let '(r, d') := sendAction gristDoc a (doc w) in
       (r, MkWorld d' (trace w ++ [Sent a])).

(** [await gristDoc.openDocPage(ref)]. *)
Definition openPage (ref : nat) : M Doc unit :=
  λ w, let '(r, d') := openDocPage gristDoc ref (doc w) in
       (r, MkWorld d' (trace w ++ [OpenedDocPage ref])).

End WithDoc.
End Host.

Notation "'do*' x ':=' m 'in' k" := (Host.bindM m (fun x => k))
  (at level 10, x pattern, m at level 100, k at level 200).

(* ===================================================================== *)
(** * SheetCreationUtils.createNewSheet *)
(* ===================================================================== *)

Module SheetCreationUtils.
Import Host.

(** [ICreateSheetOptions]. *)
Record ICreateSheetOptions : Type := MkOptions {
  baseTableName : string;
  columns : list Column.t;
  bulkData : BulkData;
  navigateToSheet : option bool     (* None: left out, defaults to true *)
}.

Section WithDoc.
Context {Doc : Type} (gristDoc : GristDoc Doc).

Definition _navigateToSheet (tableId : string) : M Doc unit :=
  λ w, match findTable gristDoc (doc w) tableId with
       | Some newTableRec =>
           let newViewSection := rawViewSectionRef newTableRec in
           if (newViewSection =? 0)%nat
           then emit (ConsoleError "No view section found for new table") w
           else openPage gristDoc newViewSection w
       | None => emit (ConsoleError "New table not found") w
       end.

Definition createNewSheet (options : ICreateSheetOptions) : M Doc string :=
  let navigate := default true (navigateToSheet options) in
  (* Generate unique table name *)
  do* newTableId :=
    (λ w, lift (NameResolver._generateUniqueTableName
                  (tableExists gristDoc (doc w)) (baseTableName options)
                  NameResolver.defaultMaxRetries) w) in
  (* Add the new table *)
  do* _ := send gristDoc (AddTable newTableId (columns options)) in
  (* Add the data if provided *)
  do* _ :=
    (if (0 <? length (bulkData options))%nat then
       let numRows :=
         match head (bulkData options) with
         | Some (_, firstColumnData) => length firstColumnData
         | None => 0
         end in
       let rowIds := replicate numRows VNull in
       do* _ := send gristDoc (BulkAddRecord newTableId rowIds (bulkData options)) in
       ret tt
     else ret tt) in
  (* Navigate to the new sheet if requested *)
  do* _ := (if navigate then _navigateToSheet newTableId else ret tt) in
  ret newTableId.

End WithDoc.
End SheetCreationUtils.

(* ===================================================================== *)
(** * showNewSheetNameModal *)
(* ===================================================================== *)

Module NewSheetNameModal.
Import Host.

(** White space removed by [String.prototype.trim] (the code units below
    256): tab, line feed, vertical tab, form feed, carriage return, space,
    no-break space. *)
Definition is_space (c : ascii) : bool :=
  let n := N_of_ascii c in
  ((9 <=? n) && (n <=? 13) || (n =? 32) || (n =? 160))%N.

Fixpoint trim_start (s : string) : string :=
  match s with
  | EmptyString => EmptyString
  | String c s' => if is_space c then trim_start s' else s
  end.

Fixpoint trim_end (s : string) : string :=
  match s with
  | EmptyString => EmptyString
  | String c s' =>
      match trim_end s' with
      | EmptyString => if is_space c then EmptyString else String c EmptyString
      | r => String c r
      end
  end.

(** [s.trim()]. *)
Definition trim (s : string) : string := trim_end (trim_start s).

Section WithDoc.
Context {Doc : Type} (gristDoc : GristDoc Doc).

(** The dialog with a document at hand.  [user] is the person at the dialog:
    given the suggested name they either cancel ([None]) or press Create
    with some text in the input.  The result is [None] when nothing was
    submitted. *)
Definition showNewSheetNameModal {A} (onSubmit : string → M Doc A)
    (defaultName : string) (user : string → option string) : M Doc (option A) :=
  λ w,
    let autoName :=
      if negb (String.eqb defaultName "") then
        match try_catch
                (NameResolver._generateUniqueTableName
                   (tableExists gristDoc (doc w)) defaultName
                   NameResolver.defaultMaxRetries)
                (λ _, Ok defaultName) with
        | Ok n => n
        | _ => defaultName
        end
      else defaultName in
    (do* _ := emit (ModalShown autoName) in
     match user autoName with
     | None => ret None
     | Some text =>
         let name := trim text in
         if String.eqb name "" then lift (Throw EmptySheetName)
         else do* a := onSubmit name in ret (Some a)
     end) w.

End WithDoc.
End NewSheetNameModal.

(* ===================================================================== *)
(** * GlobalCellSelection: the selection store *)
(* ===================================================================== *)

(** [UIRowId]: a row number or ['new']. *)
Inductive UIRowId : Type :=
  | RowNum (n : nat)
  | RowNew.

Global Instance UIRowId_eq_dec : EqDecision UIRowId.
Proof. solve_decision. Defined.

(** The property key a row id turns into. *)
Definition rowKey (r : UIRowId) : string :=
  match r with
  | RowNum n => pretty n
  | RowNew => "new"
  end.

Definition rowVal (r : UIRowId) : JsVal :=
  match r with
  | RowNum n => VNum (Z.of_nat n)
  | RowNew => VStr "new"
  end.

(** [ViewFieldRec], as far as the store reads it.  Each accessor either
    gives a string or throws ([None]). *)
Module Field.
Record t : Type := Build {
  label_peek : option string;          (* field.label.peek() *)
  colId_peek : option string;          (* field.colId.peek() *)
  column_colId_peek : option string    (* field.column.peek().colId.peek() *)
}.
End Field.

(** Running an accessor. *)
Definition peek (o : option string) : Result string :=
  match o with
  | Some s => Ok s
  | None => Throw TypeError
  end.

(** [IGlobalSelectionEntry]; a property that can be missing at run time is
    an [option]. *)
Module Entry.
Record t : Type := Build {
  id : string;
  sheetName : option string;
  sectionId : nat;
  tableId : option string;
  rowIds : option (list UIRowId);
  fields : option (list Field.t);
  timestamp : nat;
  cellData : option (gmap string (gmap string JsVal));
  headers : option (list string)
}.
End Entry.

(** [CopySelection], as far as [addSelection] reads it. *)
Module CopySelection.
Record t : Type := Build {
  fields : list Field.t;
  rowIds : list UIRowId;
  columns : list (UIRowId → JsVal)      (* column.fmtGetter *)
}.
End CopySelection.

Module GlobalCellSelection.
Import Host.

(** The value of the [selections] observable; an element may be [null] at
    run time ([None]). *)
Definition Selections : Type := list (option Entry.t).

Definition hasSelections (selections : Selections) : bool :=
  (0 <? length selections)%nat.

(** [headers.push(field.label.peek())] for every field. *)
Fixpoint collectHeaders (fields : list Field.t) : Result (list string) :=
  match fields with
  | [] => Ok []
  | field :: rest =>
      let* h := peek (Field.label_peek field) in
      let* hs := collectHeaders rest in
      Ok (h :: hs)
  end.

(** [copySelection.columns.forEach((column, index) => ...)] for one row.
    A column id is an identifier of the document and taken to differ from
    [__proto__], so [cellData[rowId][colId] = ...] writes an own
    property. *)
Fixpoint collectRow (fields : list Field.t) (rowId : UIRowId) (index : nat)
    (columns : list (UIRowId → JsVal)) (row : gmap string JsVal)
    : Result (gmap string JsVal) :=
  match columns with
  | [] => Ok row
  | fmtGetter :: rest =>
      match fields !! index with
      | None => Throw TypeError
      | Some field =>
          let* colId := peek (Field.colId_peek field) in
          collectRow fields rowId (S index) rest (<[colId := fmtGetter rowId]> row)
      end
  end.

(** [copySelection.rowIds.forEach(rowId => ...)]. *)
Fixpoint collectCells (sel : CopySelection.t) (rowIds : list UIRowId)
    (cellData : gmap string (gmap string JsVal))
    : Result (gmap string (gmap string JsVal)) :=
  match rowIds with
  | [] => Ok cellData
  | rowId :: rest =>
      let* row := collectRow (CopySelection.fields sel) rowId 0
                    (CopySelection.columns sel) ∅ in
      collectCells sel rest (<[rowKey rowId := row]> cellData)
  end.

(** [addSelection]; [id] and [now] are what the id template and
    [Date.now()] give at the call. *)
Definition addSelection (id : string) (now : nat)
    (sheetName : string) (sectionId : nat) (tableId : string)
    (copySelection : CopySelection.t) (selections : Selections)
    : Result Selections :=
  let* headers := collectHeaders (CopySelection.fields copySelection) in
  let* cellData := collectCells copySelection (CopySelection.rowIds copySelection) ∅ in
  let entry :=
    {| Entry.id := id;
       Entry.sheetName := Some sheetName;
       Entry.sectionId := sectionId;
       Entry.tableId := Some tableId;
       Entry.rowIds := Some (CopySelection.rowIds copySelection);
       Entry.fields := Some (CopySelection.fields copySelection);
       Entry.timestamp := now;
       Entry.cellData := Some cellData;
       Entry.headers := Some headers |} in
  Ok (selections ++ [Some entry])%list.

Definition clearSelections (selections : Selections) : Selections := [].

(** [currentSelections.filter(entry => entry.id !== id)]; reading [id] off a
    [null] element throws. *)
Fixpoint removeSelection (id : string) (selections : Selections)
    : Result Selections :=
  match selections with
  | [] => Ok []
  | None :: _ => Throw TypeError
  | Some entry :: rest =>
      let* rest' := removeSelection id rest in
      Ok (if decide (Entry.id entry ≠ id) then Some entry :: rest' else rest')
  end.

(** The body of [entry.fields.forEach(field => { try ... catch ... })] for
    one field. *)
Definition formatField (entry : Entry.t) (rowId : UIRowId)
    (row : Obj) (field : Field.t) : Result Obj :=
  try_catch
    (let* colId := peek (Field.column_colId_peek field) in
     let* header := peek (Field.label_peek field) in
     let* cellData :=
       match Entry.cellData entry with
       | Some c => Ok c
       | None => Throw TypeError
       end in
     let cell :=
       match cellData !! rowKey rowId with
       | Some cells => obj_get cells colId
       | None => VUndefined
       end in
     Ok (set_prop row header (js_or cell VNull)))
    (λ _, Ok row).

Fixpoint formatFields (entry : Entry.t) (rowId : UIRowId)
    (row : Obj) (fields : list Field.t) : Result Obj :=
  match fields with
  | [] => Ok row
  | field :: rest =>
      let* row' := formatField entry rowId row field in
      formatFields entry rowId row' rest
  end.

(** [entry.rowIds.forEach(rowId => ...)], giving [formattedEntry.data]. *)
Fixpoint formatRows (entry : Entry.t) (fields : list Field.t)
    (rowIds : list UIRowId) : Result (list Obj) :=
  match rowIds with
  | [] => Ok []
  | rowId :: rest =>
      let* row := formatFields entry rowId
                    (plain {[ "rowId" := rowVal rowId ]}) fields in
      let* rows := formatRows entry fields rest in
      Ok (row :: rows)
  end.

(** The callback of [map]: [null] for an entry to skip. *)
Definition formatEntry (e : option Entry.t) : Result (option Formatted.t) :=
  match e with
  | None => Ok None
  | Some entry =>
      match Entry.rowIds entry, Entry.fields entry with
      | Some rowIds, Some fields =>
          if truthy_str (Entry.tableId entry) && truthy_str (Entry.sheetName entry)
          then
            let* data := formatRows entry fields rowIds in
            Ok (Some {| Formatted.id := Entry.id entry;
                        Formatted.sheet := Entry.sheetName entry;
                        Formatted.table := Entry.tableId entry;
                        Formatted.timestamp := Entry.timestamp entry;
                        Formatted.rowCount := length rowIds;
                        Formatted.columnCount := length fields;
                        Formatted.headers := Entry.headers entry;
                        Formatted.data := Some data |})
          else Ok None
      | _, _ => Ok None
      end
  end.

Fixpoint mapResult {A B} (f : A → Result B) (l : list A) : Result (list B) :=
  match l with
  | [] => Ok []
  | a :: rest =>
      let* b := f a in
      let* bs := mapResult f rest in
      Ok (b :: bs)
  end.

(** [x != null]. *)
Definition notNull {A} (x : option A) : bool :=
  match x with Some _ => true | None => false end.

(** [selections.filter(e => e != null).map(...).filter(e => e != null)]. *)
Definition getFormattedData (selections : Selections) : Result (list Formatted.t) :=
  let* mapped := mapResult formatEntry (List.filter notNull selections) in
  Ok (omap (λ x, x) (List.filter notNull mapped)).

Section WithDoc.
Context {Doc : Type} (gristDoc : GristDoc Doc).

(** [createNewSheet(gristDoc)] of the store.  The result is the value of
    [selections] afterwards. *)
Definition createNewSheet (user : string → option string)
    (selections : Selections) : M Doc Selections :=
  do* formattedData := lift (getFormattedData selections) in
  if (length formattedData =? 0)%nat then
    do* _ := emit (ConsoleLog "No global selections available to create sheet") in
    ret selections
  else
    do* submitted :=
      NewSheetNameModal.showNewSheetNameModal gristDoc
        (λ sheetName,
           tryM
             (do* (columns, bulkData) :=
                lift (Merge.convertGlobalSelectionData formattedData) in
              do* _ :=
                SheetCreationUtils.createNewSheet gristDoc
                  {| SheetCreationUtils.baseTableName := sheetName;
                     SheetCreationUtils.columns := columns;
                     SheetCreationUtils.bulkData := bulkData;
                     SheetCreationUtils.navigateToSheet := Some true |} in
              do* _ := emit (ConsoleLog "Created new sheet") in
              ret (clearSelections selections))
             (λ error,
                do* _ := emit (ConsoleError "Failed to create new sheet") in
                lift (Throw error)))
        "GlobalSelections" user in
    ret (default selections submitted).

End WithDoc.
End GlobalCellSelection.

(* ===================================================================== *)
(** * SheetCreationUtils.convertBaseViewSelection *)
(* ===================================================================== *)

Module BaseView.

(** A selected field of a view, as far as the conversion reads it. *)
Record ViewField : Type := MkViewField {
  label : string;                 (* field.label() *)
  colId : string;                 (* field.colId() *)
  colType : string;               (* field.column().type() *)
  getValue : UIRowId → JsVal      (* field.column().rawData().getValue *)
}.

Record Selection : Type := MkSelection {
  fields : list ViewField;
  rowIds : list UIRowId
}.

(** [bulkData[colId].push(cellValue)]; pushing onto a missing property
    throws.  Here the keys of [bulkData] are column ids of the document,
    taken to differ from [__proto__] and from the canonical numeric
    strings, so that they are own properties in insertion order. *)
Fixpoint assoc_push (o : BulkData) (key : string) (v : JsVal) : Result BulkData :=
  match o with
  | [] => Throw TypeError
  | (k, vs) :: o' =>
      if decide (k = key) then Ok ((k, vs ++ [v]) :: o')
      else let* o'' := assoc_push o' key v in Ok ((k, vs) :: o'')
  end.

(** [for (let i = 0; i < selection.fields.length; i++)] for one row, from
    index [i] on; [rest] are the fields from [i] on. *)
Fixpoint fillRow (colIds : list string) (rowId : UIRowId) (i : nat)
    (rest : list ViewField) (bulkData : BulkData) : Result BulkData :=
  match rest with
  | [] => Ok bulkData
  | field :: rest' =>
      match colIds !! i with
      | None => Throw TypeError
      | Some colId =>
          let* bulkData' := assoc_push bulkData colId (getValue field rowId) in
          fillRow colIds rowId (S i) rest' bulkData'
      end
  end.

(** [for (const rowId of selection.rowIds)]. *)
Fixpoint fillRows (fields : list ViewField) (colIds : list string)
    (rowIds : list UIRowId) (bulkData : BulkData) : Result BulkData :=
  match rowIds with
  | [] => Ok bulkData
  | rowId :: rest =>
      let* bulkData' := fillRow colIds rowId 0 fields bulkData in
      fillRows fields colIds rest bulkData'
  end.

Definition convertBaseViewSelection (selection : Selection)
    : Result (list Column.t * BulkData) :=
  (* Prepare columns based on selected fields *)
  let columns :=
    (λ field, {| Column.label := label field; Column.id := colId field;
                 Column.type := colType field |}) <$> fields selection in
  (* Prepare bulk data *)
  let colIds := Column.id <$> columns in
  let bulkData := foldl (λ b c, assoc_set b c []) [] colIds in
  (* Fill data for each row *)
  let* bulkData' := fillRows (fields selection) colIds (rowIds selection) bulkData in
  Ok (columns, bulkData').

End BaseView.

(* ===================================================================== *)
(** * Client-side validation of files to import *)
(* ===================================================================== *)

Module Text.

(** The double-quote character (code 34). *)
Definition dquote : string := String "034"%char EmptyString.

(** [regex.test(text)] for a regex that is one character class. *)
Fixpoint string_exists (p : ascii → bool) (s : string) : bool :=
  match s with
  | EmptyString => false
  | String c s' => p c || string_exists p s'
  end.

(** The character class of [specialCharsRegex]: the characters below, with
    the double quote between the colon and the semicolon. *)
Definition specialChars : string :=
  "!@#$%^&*()+=[]{}|\:" +:+ dquote +:+ ";'<>?,".

Definition is_special (c : ascii) : bool :=
  string_exists (Ascii.eqb c) specialChars.

(** The class [\s] (the code units below 256). *)
Definition is_whitespace (c : ascii) : bool := NewSheetNameModal.is_space c.

(** [c.toUpperCase()] and [c.toLowerCase()] for a code unit below 256. *)
Definition upper (c : ascii) : ascii :=
  let n := N_of_ascii c in
  if ((97 <=? n) && (n <=? 122)
      || (224 <=? n) && (n <=? 254) && negb (n =? 247))%N
  then ascii_of_N (n - 32) else c.

Definition lower (c : ascii) : ascii :=
  let n := N_of_ascii c in
  if ((65 <=? n) && (n <=? 90)
      || (192 <=? n) && (n <=? 222) && negb (n =? 215))%N
  then ascii_of_N (n + 32) else c.

Fixpoint toLowerCase (s : string) : string :=
  match s with
  | EmptyString => EmptyString
  | String c s' => String (lower c) (toLowerCase s')
  end.

(** [type.charAt(0).toUpperCase() + type.slice(1)]. *)
Definition capitalize (s : string) : string :=
  match s with
  | EmptyString => EmptyString
  | String c s' => String (upper c) s'
  end.

(** [parts.join(sep)]. *)
Fixpoint join (sep : string) (parts : list string) : string :=
  match parts with
  | [] => ""
  | [p] => p
  | p :: rest => p +:+ sep +:+ join sep rest
  end.

End Text.

Module ClientFileValidation.
Import Text.

(** [ImportFileValidationOptions]; a flag left out counts as [false]. *)
Record ImportFileValidationOptions : Type := MkOptions {
  allowSpecialCharsInFilename : bool;
  allowSpacesInFilename : bool;
  allowSpecialCharsInSheetName : bool;
  allowSpacesInSheetName : bool;
  allowMergedCells : bool
}.

Record ImportFileValidationResult : Type := MkResult {
  isValid : bool;
  errors : list string;
  warnings : list string
}.

(** The two values of [type]. *)
Inductive NameType : Type := Filename | SheetName.

Definition typeText (type : NameType) : string :=
  match type with
  | Filename => "filename"
  | SheetName => "sheet name"
  end.

Definition validateNameText (text : string) (type : NameType)
    (allowSpecialChars allowSpaces : bool) : list string :=
  let errors := [] in
  (* Check for special characters *)
  let errors :=
    if negb allowSpecialChars && string_exists is_special text
    then errors ++ [capitalize (typeText type) +:+ " " +:+ dquote +:+ text
                    +:+ dquote +:+ " contains special characters. "]
    else errors in
  (* Check for spaces *)
  let errors :=
    if negb allowSpaces && string_exists is_whitespace text
    then errors ++ [capitalize (typeText type) +:+ " " +:+ dquote +:+ text
                    +:+ dquote +:+ " contains spaces."]
    else errors in
  errors.

(** A worksheet of a loaded workbook. *)
Record Worksheet : Type := MkWorksheet {
  name : string;
  hasMerges : bool
}.

(** What reading the file and loading it as a workbook ends in: the sheets,
    or an exception ([Some message] for an [Error], [None] otherwise). *)
Inductive Workbook : Type :=
  | Loaded (sheets : list Worksheet)
  | LoadFailed (message : option string).

(** A [File]: its name and what loading its content gives. *)
Record File : Type := MkFile {
  fileName : string;
  content : Workbook
}.

Section WithPath.
(** Node's [path.extname] and [path.basename], which are not part of the
    sources at hand. *)
Variable extname : string → string.
Variable basename : string → string → string.

Definition validateFilename (filename : string)
    (options : ImportFileValidationOptions) : ImportFileValidationResult :=
  let baseName := basename filename (extname filename) in
  let errors := validateNameText baseName Filename
                  (allowSpecialCharsInFilename options)
                  (allowSpacesInFilename options) in
  let resultErrors := [] ++ errors in
  {| isValid := (length resultErrors =? 0)%nat;
     errors := resultErrors;
     warnings := [] |}.

Definition isExcelFile (filename : string) : bool :=
  let ext := toLowerCase (extname filename) in
  bool_decide (ext ∈ [".xlsx"; ".xls"; ".xlsm"]).

(** The callback of [workbook.eachSheet]. *)
Definition validateSheet (options : ImportFileValidationOptions)
    (resultErrors : list string) (worksheet : Worksheet) : list string :=
  let sheetName := name worksheet in
  let sheetNameErrors := validateNameText sheetName SheetName
                           (allowSpecialCharsInSheetName options)
                           (allowSpacesInSheetName options) in
  let resultErrors := resultErrors ++ sheetNameErrors in
  if negb (allowMergedCells options) && hasMerges worksheet
  then resultErrors ++ ["Sheet " +:+ dquote +:+ sheetName +:+ dquote
                        +:+ ": Contains merged cells. "]
  else resultErrors.

Definition validateExcelFile (file : File)
    (options : ImportFileValidationOptions) : ImportFileValidationResult :=
  let '(resultErrors, resultWarnings) :=
    match content file with
    | Loaded sheets => (foldl (validateSheet options) [] sheets, [])
    | LoadFailed message =>
        ([], ["Could not validate Excel file content: "
              +:+ default "Unknown error" message +:+ ". "
              +:+ "Server-side validation will be performed."])
    end in
  {| isValid := (length resultErrors =? 0)%nat;
     errors := resultErrors;
     warnings := resultWarnings |}.

(** One iteration of [for (const file of files)]; the state is the errors
    and warnings so far. *)
Definition validateFile (options : ImportFileValidationOptions)
    (acc : list string * list string) (file : File) : list string * list string :=
  let '(resultErrors, resultWarnings) := acc in
  let filenameValidation := validateFilename (fileName file) options in
  let resultErrors := resultErrors ++ errors filenameValidation in
  let resultWarnings := resultWarnings ++ warnings filenameValidation in
  if isExcelFile (fileName file) then
    let excelValidation := validateExcelFile file options in
    (resultErrors ++ errors excelValidation,
     resultWarnings ++ warnings excelValidation)
  else (resultErrors, resultWarnings).

Definition validateFilesForImport (files : list File)
    (options : ImportFileValidationOptions) : ImportFileValidationResult :=
  let '(resultErrors, resultWarnings) :=
    foldl (validateFile options) ([], []) files in
  {| isValid := (length resultErrors =? 0)%nat;
     errors := resultErrors;
     warnings := resultWarnings |}.

End WithPath.
End ClientFileValidation.

(** The earlier validation module, which looks at file names only. *)
Module ClientValidation.
Import Text.

(** [ClientValidationOptions]; a flag left out counts as [false]. *)
Record ClientValidationOptions : Type := MkOptions {
  allowSpecialCharsInFilename : bool;
  allowSpacesInFilename : bool
}.

Record ClientValidationResult : Type := MkResult {
  isValid : bool;
  errors : list string
}.

Section WithPath.
Variable extname : string → string.
Variable basename : string → string → string.

Definition validateFilename (filename : string)
    (options : ClientValidationOptions) : ClientValidationResult :=
  let baseName := basename filename (extname filename) in
  let resultErrors := [] in
  (* Check for special characters *)
  let resultErrors :=
    if negb (allowSpecialCharsInFilename options)
       && string_exists is_special baseName
    then resultErrors ++
      ["Filename contains special characters. Only letters, numbers, hyphens, and underscores are allowed."]
    else resultErrors in
  (* Check for spaces *)
  let resultErrors :=
    if negb (allowSpacesInFilename options)
       && string_exists is_whitespace baseName
    then resultErrors ++
      ["Filename contains spaces. Please use underscores or hyphens instead of spaces."]
    else resultErrors in
  {| isValid := (length resultErrors =? 0)%nat; errors := resultErrors |}.

(** One iteration of [for (const file of files)]; a file is its name here. *)
Definition validateFile (options : ClientValidationOptions)
    (resultErrors : list string) (fileName : string) : list string :=
  let fileValidation := validateFilename fileName options in
  if negb (isValid fileValidation)
  then resultErrors ++
         ["File " +:+ dquote +:+ fileName +:+ dquote +:+ ": "
          +:+ join ", " (errors fileValidation)]
  else resultErrors.

Definition validateFilesForImport (files : list string)
    (options : ClientValidationOptions) : ClientValidationResult :=
  let resultErrors := foldl (validateFile options) [] files in
  {| isValid := (length resultErrors =? 0)%nat; errors := resultErrors |}.

End WithPath.
End ClientValidation.

(* ===================================================================== *)
(** * Vocabulary of the statements *)
(* ===================================================================== *)

Section NameVocabulary.
Import NameResolver.
Local Open Scope nat_scope.

(** [k] is the first index whose candidate passes [free]. *)
Definition first_free (free : string → Prop) (base : string) (k : nat) : Prop :=
  free (candidate base k) ∧ ∀ i, i < k → ¬ free (candidate base i).

(** The existence predicate of a document whose tables are [names]. *)
Definition existsIn (names : list string) : string → bool :=
  λ s, bool_decide (s ∈ names).

End NameVocabulary.

Section MergeVocabulary.
Import NameResolver Merge.
Local Open Scope nat_scope.

(** The column slots of a merge, in output order: the selection, its
    prefix and the header, for every header of every selection whose
    headers are an array. *)
Fixpoint slotsFrom (selectionIndex : nat) (formattedData : list Formatted.t)
    : list (Formatted.t * string * string) :=
  match formattedData with
  | [] => []
  | entry :: rest =>
      match Formatted.headers entry with
      | None => []
      | Some hs => (λ h, (entry, prefixOf selectionIndex entry, h)) <$> hs
      end ++ slotsFrom (S selectionIndex) rest
  end.

Definition slots (formattedData : list Formatted.t) :=
  slotsFrom 0 formattedData.

(** Number of headers of a selection (none when they are not an array). *)
Definition headerCount (entry : Formatted.t) : nat :=
  length (default [] (Formatted.headers entry)).

Definition textColumn (id : string) : Column.t :=
  {| Column.id := id; Column.label := id; Column.type := "Text" |}.

(** [cols] and [bulk] are the columns and the data arrays the merge makes
    for [slots] when [used] are the ids handed out before: every slot gets
    the first candidate of [prefix ++ header] that is not yet used. *)
Inductive Resolved (maxRows : nat) : gset string →
    list (Formatted.t * string * string) → list Column.t → BulkData → Prop :=
  | Resolved_nil used : Resolved maxRows used [] [] []
  | Resolved_cons used entry prefix header k sl cols bulk :
      first_free (λ s, s ∉ used) (prefix +:+ header) k →
      Resolved maxRows ({[ candidate (prefix +:+ header) k ]} ∪ used) sl cols bulk →
      Resolved maxRows used ((entry, prefix, header) :: sl)
        (textColumn (candidate (prefix +:+ header) k) :: cols)
        ((candidate (prefix +:+ header) k, columnData maxRows entry header) :: bulk).

(** The columns of a grid that [bulkData] has as own properties: all but
    a column under the key [__proto__]. *)
Definition ownColumns (grid : BulkData) : BulkData :=
  filter (λ kv, kv.1 ≠ "__proto__") grid.

(** The ids that name an own property of [bulkData]. *)
Definition ownKeys (ids : list string) : list string :=
  filter (λ id, id ≠ "__proto__") ids.

(** The state of the merge is consistent: the used ids are the ids of the
    columns so far, which, but for [__proto__], are also the keys of
    [bulkData], in order. *)
Definition consistent (st : State) : Prop :=
  usedColumnIds st = list_to_set (Column.id <$> columns st)
  ∧ (bulkData st).*1 = ownKeys (Column.id <$> columns st).

(** [st'] continues [st] by the columns of [sl]. *)
Definition continues (maxRows : nat) (st st' : State)
    (sl : list (Formatted.t * string * string)) : Prop :=
  ∃ cols bulk,
    columns st' = columns st ++ cols
    ∧ bulkData st' = bulkData st ++ ownColumns bulk
    ∧ usedColumnIds st' = list_to_set (Column.id <$> cols) ∪ usedColumnIds st
    ∧ Resolved maxRows (usedColumnIds st) sl cols bulk.

(** The rows of a selection (none when [data] is not an array). *)
Definition rowsOf (entry : Formatted.t) : list Obj :=
  default [] (Formatted.data entry).

(** The table name the prefix is made from. *)
Definition tableNameOf (selectionIndex : nat) (entry : Formatted.t) : string :=
  if truthy_str (Formatted.table entry)
  then default "" (Formatted.table entry)
  else "S" +:+ pretty (selectionIndex + 1).

End MergeVocabulary.

Section SheetVocabulary.
Import Host.

(** [numRows] of [createNewSheet]: the length of the first column's data. *)
Definition numRowsOf (bulkData : BulkData) : nat :=
  match head bulkData with
  | Some (_, firstColumnData) => length firstColumnData
  | None => 0
  end.

Definition isBulkAdd (ev : Event) : bool :=
  match ev with
  | Sent (BulkAddRecord _ _ _) => true
  | _ => false
  end.

End SheetVocabulary.

Section StoreVocabulary.
Import GlobalCellSelection.

(** An element the formatting step keeps: not [null], with a table id, a
    sheet name, row ids and fields. *)
Definition usable (e : option Entry.t)
    : option (Entry.t * list UIRowId * list Field.t) :=
  match e with
  | Some entry =>
      match Entry.rowIds entry, Entry.fields entry with
      | Some rowIds, Some fields =>
          if truthy_str (Entry.tableId entry) && truthy_str (Entry.sheetName entry)
          then Some (entry, rowIds, fields) else None
      | _, _ => None
      end
  | None => None
  end.

(** Reading this field's cell of the entry does not throw. *)
Definition extractable (entry : Entry.t) (field : Field.t) : bool :=
  bool_decide (is_Some (Field.column_colId_peek field))
  && bool_decide (is_Some (Field.label_peek field))
  && bool_decide (is_Some (Entry.cellData entry)).

(** The stored value of a cell. *)
Definition storedCell (cellData : gmap string (gmap string JsVal))
    (rowId : UIRowId) (colId : string) : JsVal :=
  match cellData !! rowKey rowId with
  | Some cells => obj_get cells colId
  | None => VUndefined
  end.

(** The row after one field whose cell can be read. *)
Definition setCell (entry : Entry.t) (rowId : UIRowId)
    (row : Obj) (field : Field.t) : Obj :=
  match Field.column_colId_peek field, Field.label_peek field,
        Entry.cellData entry with
  | Some colId, Some header, Some cellData =>
      set_prop row header (js_or (storedCell cellData rowId colId) VNull)
  | _, _, _ => row
  end.

(** The formatted row of [rowId]: the fields that can be read, in order. *)
Definition formattedRow (entry : Entry.t) (fields : list Field.t)
    (rowId : UIRowId) : Obj :=
  foldl (setCell entry rowId) (plain {[ "rowId" := rowVal rowId ]})
    (List.filter (extractable entry) fields).

Definition formatted (u : Entry.t * list UIRowId * list Field.t) : Formatted.t :=
  let '(entry, rowIds, fields) := u in
  {| Formatted.id := Entry.id entry;
     Formatted.sheet := Entry.sheetName entry;
     Formatted.table := Entry.tableId entry;
     Formatted.timestamp := Entry.timestamp entry;
     Formatted.rowCount := length rowIds;
     Formatted.columnCount := length fields;
     Formatted.headers := Entry.headers entry;
     Formatted.data := Some (formattedRow entry fields <$> rowIds) |}.

(** The last of [fields] whose label is [h]. *)
Fixpoint lastWithLabel (h : string) (fields : list Field.t) : option Field.t :=
  match fields with
  | [] => None
  | field :: rest =>
      match lastWithLabel h rest with
      | Some later => Some later
      | None => if decide (Field.label_peek field = Some h) then Some field else None
      end
  end.

(** The field can be read: both accessors answer. *)
Definition readable (field : Field.t) (label : string) : Prop :=
  Field.label_peek field = Some label ∧ is_Some (Field.column_colId_peek field).

End StoreVocabulary.

Section MoreVocabulary.
Import Merge.

(** Every character of [s] passes [p]. *)
Fixpoint string_forall (p : ascii → bool) (s : string) : bool :=
  match s with
  | EmptyString => true
  | String c s' => p c && string_forall p s'
  end.

(** The character class [[0-9]]. *)
Definition is_digit (c : ascii) : bool :=
  let n := N_of_ascii c in ((48 <=? n) && (n <=? 57))%N.

(** The candidate ids of a merge, in output order: prefix and header of
    every slot. *)
Definition candidatesOf (formattedData : list Formatted.t) : list string :=
  (λ x, x.1.2 +:+ x.2) <$> slots formattedData.

End MoreVocabulary.

Section RunVocabulary.
Import Host SheetCreationUtils.

(** The create-table and bulk-insert actions of one run. *)
Definition addAction (options : ICreateSheetOptions) (name : string) : Action :=
  AddTable name (SheetCreationUtils.columns options).

Definition bulkAction (options : ICreateSheetOptions) (name : string) : Action :=
  BulkAddRecord name (replicate (numRowsOf (bulkData options)) VNull)
    (bulkData options).

End RunVocabulary.

Section CaptureVocabulary.
Import GlobalCellSelection.
Local Open Scope nat_scope.

(** [addSelection] can capture the selection: every label can be read, and,
    if there is a row at all, every column has a field at its index whose
    column id can be read. *)
Definition capturable (sel : CopySelection.t) : Prop :=
  Forall (λ f, is_Some (Field.label_peek f)) (CopySelection.fields sel)
  ∧ (CopySelection.rowIds sel = []
     ∨ ∀ i, i < length (CopySelection.columns sel) →
         ∃ f, CopySelection.fields sel !! i = Some f
              ∧ is_Some (Field.colId_peek f)).

(** The field answers with the label [hc.1] and, through both accessors,
    with the column id [hc.2]. *)
Definition answers (field : Field.t) (hc : string * string) : Prop :=
  Field.label_peek field = Some hc.1
  ∧ Field.colId_peek field = Some hc.2
  ∧ Field.column_colId_peek field = Some hc.2.

(** The row [addSelection] stores for column ids [cs] and getters [gs]. *)
Definition capturedRow (rowId : UIRowId) (row : gmap string JsVal)
    (cgs : list (string * (UIRowId → JsVal))) : gmap string JsVal :=
  foldl (λ r cg, <[cg.1 := cg.2 rowId]> r) row cgs.

End CaptureVocabulary.

Section BaseViewVocabulary.
Import BaseView.

(** The values one row contributes to the column [c]: those of the fields
    whose column id is [c], in field order. *)
Definition pushed (c : string) (rowId : UIRowId) (fields : list ViewField)
    : list JsVal :=
  (λ f, getValue f rowId) <$> filter (λ f, colId f = c) fields.

(** The column description the conversion makes of a field. *)
Definition columnOf (field : ViewField) : Column.t :=
  {| Column.id := colId field; Column.label := label field;
     Column.type := colType field |}.

End BaseViewVocabulary.

(* ===================================================================== *)
(** * Example inputs *)
(* ===================================================================== *)

Module Examples.

(** A formatted selection of table [table] with the given headers, declared
    row count and rows. *)
Definition selection (table : string) (headers : list string) (rowCount : nat)
    (rows : list Obj) : Formatted.t :=
  {| Formatted.id := "sel";
     Formatted.sheet := Some table;
     Formatted.table := Some table;
     Formatted.timestamp := 0;
     Formatted.rowCount := rowCount;
     Formatted.columnCount := length headers;
     Formatted.headers := Some headers;
     Formatted.data := Some rows |}.

Definition qty (n : Z) : Obj := plain {[ "Qty" := VNum n ]}.

(** A: table Sales, headers [Qty], rows 1, 2, 3. *)
Definition salesA : Formatted.t := selection "Sales" ["Qty"] 3 [qty 1; qty 2; qty 3].
(** B: table Sales, headers [Qty], rows 9, 8. *)
Definition salesB : Formatted.t := selection "Sales" ["Qty"] 2 [qty 9; qty 8].

(** A selection of table Sheet1 with the one header Amount and no rows. *)
Definition sheet1Amount : Formatted.t := selection "Sheet1" ["Amount"] 0 [].

(** A selection whose headers are an array without elements. *)
Definition noHeaders : Formatted.t := selection "Sales" [] 0 [].

End Examples.

Module ExampleHost.
Import Host.

(** Modelled from the spec: the host document, which is not part of the
    sources at hand.  Its create-table action "may itself rename on
    collision" and tells the id it settled on; the table list the client
    reads may be stale with respect to the tables the document has.  Here a
    requested id that collides gets the digit 2 appended, and a bulk insert
    into a table the document does not have is rejected. *)
Record Doc : Type := MkDoc {
  tables : list TableRec;      (* the tables of the document *)
  view : list TableRec         (* rowModels, as the client sees them *)
}.

Definition hasTable (d : Doc) (name : string) : bool :=
  bool_decide (name ∈ tableId <$> tables d).

Definition gristDoc : GristDoc Doc :=
  {| rowModels := view;
     sendAction := λ a d,
       match a with
       | AddTable requested _ =>
           let settled :=
             if hasTable d requested then requested +:+ "2" else requested in
           if hasTable d settled then (Throw (HostError "duplicate table"), d)
           else
             let rec := {| tableId := settled;
                           rawViewSectionRef := S (length (tables d)) |} in
             (Ok (Some settled),
              {| tables := tables d ++ [rec]; view := view d ++ [rec] |})
       | BulkAddRecord tableId _ _ =>
           if hasTable d tableId then (Ok None, d)
           else (Throw (HostError "no such table"), d)
       end;
     openDocPage := λ _ d, (Ok tt, d) |}.

(** A document without tables. *)
Definition emptyWorld : World Doc := MkWorld {| tables := []; view := [] |} [].

(** A document that has a table Orders the client does not know of yet. *)
Definition ordersDoc : Doc :=
  {| tables := [ {| tableId := "Orders"; rawViewSectionRef := 1 |} ];
     view := [] |}.

Definition staleWorld : World Doc := MkWorld ordersDoc [].

(** The same document, except that it rejects every bulk insert. *)
Definition fullDoc : GristDoc Doc :=
  {| rowModels := view;
     sendAction := λ a d,
       match a with
       | BulkAddRecord _ _ _ => (Throw (HostError "row limit reached"), d)
       | _ => sendAction gristDoc a d
       end;
     openDocPage := λ _ d, (Ok tt, d) |}.

(** A document, known to the client, that has the tables Orders, Orders_1,
    ..., Orders_9. *)
Definition crowdedDoc : Doc :=
  let recs := (λ n, {| tableId := n; rawViewSectionRef := 1 |})
                <$> ("Orders" :: (NameResolver.suffixed "Orders" <$> seq 1 9)) in
  {| tables := recs; view := recs |}.

(** A document with the tables Orders and Orders2, none of them known to
    the client yet. *)
Definition staleDoc2 : Doc :=
  {| tables := [ {| tableId := "Orders"; rawViewSectionRef := 1 |};
                 {| tableId := "Orders2"; rawViewSectionRef := 2 |} ];
     view := [] |}.

End ExampleHost.

Module BaseViewExamples.
Import BaseView.

(** A view selection of the columns Qty and Price over the rows 1 and 2. *)
Definition qtyPrice : Selection :=
  {| fields :=
       [ {| label := "Quantity"; colId := "Qty"; colType := "Int";
            getValue := λ r, match r with RowNum 1 => VNum 5 | _ => VNum 7 end |};
         {| label := "Price"; colId := "Price"; colType := "Numeric";
            getValue := λ r, match r with RowNum 1 => VNum 10 | _ => VNum 20 end |} ];
     rowIds := [RowNum 1; RowNum 2] |}.

End BaseViewExamples.

Module StoreExamples.

(** Two fields that carry the same label, Amount, over columns a and b. *)
Definition amountA : Field.t :=
  {| Field.label_peek := Some "Amount"; Field.colId_peek := Some "a";
     Field.column_colId_peek := Some "a" |}.
Definition amountB : Field.t :=
  {| Field.label_peek := Some "Amount"; Field.colId_peek := Some "b";
     Field.column_colId_peek := Some "b" |}.

(** Rows 1 and 2 of those two columns; the cell of column [c] in row [n]
    shows as the text [cn]. *)
Definition twoAmounts : CopySelection.t :=
  {| CopySelection.fields := [amountA; amountB];
     CopySelection.rowIds := [RowNum 1; RowNum 2];
     CopySelection.columns :=
       [ (λ r, VStr ("a" +:+ rowKey r)); (λ r, VStr ("b" +:+ rowKey r)) ] |}.

(** The store after that selection was added on sheet Sheet1. *)
Definition oneSelection : Result GlobalCellSelection.Selections :=
  GlobalCellSelection.addSelection "7-0-abc" 0 "Sheet1" 7 "Sheet1" twoAmounts [].




(** An entry without a table id. *)
Definition noTableId : Entry.t :=
  {| Entry.id := "x"; Entry.sheetName := Some "Sheet1"; Entry.sectionId := 1;
     Entry.tableId := None; Entry.rowIds := Some []; Entry.fields := Some [];
     Entry.timestamp := 0; Entry.cellData := None; Entry.headers := None |}.

(** Two fields with different labels, Qty and Price, over columns q and p. *)
Definition qtyField : Field.t :=
  {| Field.label_peek := Some "Qty"; Field.colId_peek := Some "q";
     Field.column_colId_peek := Some "q" |}.
Definition priceField : Field.t :=
  {| Field.label_peek := Some "Price"; Field.colId_peek := Some "p";
     Field.column_colId_peek := Some "p" |}.

(** Rows 1 and 2 of those columns: quantities 5 and 0, prices row by row. *)
Definition qtyPrice : CopySelection.t :=
  {| CopySelection.fields := [qtyField; priceField];
     CopySelection.rowIds := [RowNum 1; RowNum 2];
     CopySelection.columns :=
       [ (λ r, match r with RowNum 1 => VNum 5 | _ => VNum 0 end);
         (λ r, VStr ("p" +:+ rowKey r)) ] |}.

(** The store after capturing that selection on sheet Sales. *)
Definition salesStored : GlobalCellSelection.Selections :=
  match GlobalCellSelection.addSelection "3-0-xyz" 0 "Sales" 3 "Sales" qtyPrice []
  with
  | Ok selections => selections
  | _ => []
  end.

(** The store holding that one selection. *)
Definition oneStored : GlobalCellSelection.Selections :=
  match oneSelection with
  | Ok selections => selections
  | _ => []
  end.

(** A person who accepts the suggested name. *)
Definition acceptsSuggestion : string → option string := λ s, Some s.

End StoreExamples.

(* ===================================================================== *)
(** * Candidate names *)
(* ===================================================================== *)

Section Candidates.
Import NameResolver.
Local Open Scope nat_scope.

Lemma string_app_assoc (a b c : string) : (a +:+ b) +:+ c = a +:+ (b +:+ c).
Proof.
  induction a as [|x a IH]; [done|].
  change (String x ((a +:+ b) +:+ c) = String x (a +:+ (b +:+ c))).
  by rewrite IH.
Qed.

Lemma string_app_nil_r (a : string) : a +:+ "" = a.
Proof.
  induction a as [|x a IH]; [done|].
  change (String x (a +:+ "") = String x a). by rewrite IH.
Qed.

Lemma suffixed_inj base j k : suffixed base j = suffixed base k → j = k.
Proof.
  unfold suffixed. intros H.
  apply (inj (String.app base)) in H.
  apply (inj (String.app "_")) in H.
  by apply (inj pretty) in H.
Qed.

Lemma suffixed_ne_base base k : suffixed base k ≠ base.
Proof.
  unfold suffixed. intros H.
  rewrite <- (string_app_nil_r base) in H at 2.
  apply (inj (String.app base)) in H. discriminate H.
Qed.

Lemma candidate_inj base j k : candidate base j = candidate base k → j = k.
Proof.
  destruct j as [|j], k as [|k]; simpl; intros H; [done | | | ].
  - symmetry in H. by apply suffixed_ne_base in H.
  - by apply suffixed_ne_base in H.
  - by apply suffixed_inj in H.
Qed.

Lemma candidate_succ base k : candidate base (S k) = suffixed base (S k).
Proof. done. Qed.

Lemma first_free_unique free base j k :
  first_free free base j → first_free free base k → j = k.
Proof.
  intros [Hj Hj'] [Hk Hk'].
  destruct (lt_eq_lt_dec j k) as [[Hlt | ->] | Hlt]; [|done|].
  - by destruct (Hk' _ Hlt).
  - by destruct (Hj' _ Hlt).
Qed.

(** Among the first [S n] candidates, one is outside any set of [n] names. *)
Lemma candidate_outside (used : gset string) base :
  ∃ j, j ≤ size used ∧ candidate base j ∉ used.
Proof.
  destruct (decide (Forall (λ j, candidate base j ∈ used) (seq 0 (S (size used)))))
    as [Hall | Hex].
  - exfalso.
    assert (NoDup (candidate base <$> seq 0 (S (size used)))) as Hnd.
    { apply NoDup_fmap_2; [intros ?? ?; by eapply candidate_inj | apply NoDup_seq]. }
    assert (list_to_set (candidate base <$> seq 0 (S (size used))) ⊆ used) as Hsub.
    { intros x Hx. apply elem_of_list_to_set, list_elem_of_fmap in Hx
        as (j & -> & Hj). by eapply Forall_forall in Hall. }
    apply subseteq_size in Hsub.
    rewrite size_list_to_set, length_fmap, length_seq in Hsub by done. lia.
  - apply not_Forall_Exists in Hex; [|apply _].
    apply Exists_exists in Hex as (j & Hj & Hout).
    apply elem_of_seq in Hj. exists j. split; [lia | done].
Qed.

(** ... hence a first one. *)
Lemma first_free_exists (used : gset string) base :
  ∃ k, k ≤ size used ∧ first_free (λ s, s ∉ used) base k.
Proof.
  destruct (candidate_outside used base) as (j & Hj & Hout).
  revert Hj Hout. induction j as [j IH] using lt_wf_ind. intros Hj Hout.
  destruct (decide (Forall (λ i, candidate base i ∈ used) (seq 0 j)))
    as [Hall | Hex].
  - exists j. split; [done|]. split; [done|].
    intros i Hi Hfree. apply Hfree.
    eapply Forall_forall in Hall; [done|]. apply elem_of_seq. lia.
  - apply not_Forall_Exists in Hex; [|apply _].
    apply Exists_exists in Hex as (i & Hi & Hfree).
    apply elem_of_seq in Hi. apply (IH i); [lia | lia | done].
Qed.

End Candidates.

(* ===================================================================== *)
(** * The table-name resolver *)
(* ===================================================================== *)

Section NameResolverFacts.
Import NameResolver.
Local Open Scope nat_scope.

Variable tableExists : string → bool.
Variable base : string.
Variable maxRetries : nat.

Lemma generate_loop_found left k j :
  k ≤ j < k + left →
  (∀ i, k ≤ i < j → tableExists (candidate base i) = true) →
  tableExists (candidate base j) = false →
  generate_loop tableExists base maxRetries left (S k) (candidate base k)
  = Ok (candidate base j).
Proof.
  revert k. induction left as [|left IH]; intros k Hj Hbusy Hfree; [lia|].
  simpl. destruct (decide (k = j)) as [-> | Hne].
  - by rewrite Hfree.
  - rewrite (Hbusy k) by lia. rewrite <- candidate_succ.
    apply IH; [lia | | done]. intros i Hi. apply Hbusy. lia.
Qed.

Lemma generate_loop_exhausted left k :
  (∀ i, k ≤ i < k + left → tableExists (candidate base i) = true) →
  generate_loop tableExists base maxRetries left (S k) (candidate base k)
  = Throw (NameGenerationExhausted maxRetries).
Proof.
  revert k. induction left as [|left IH]; intros k Hbusy; [done|].
  simpl. rewrite (Hbusy k) by lia. rewrite <- candidate_succ.
  apply IH. intros i Hi. apply Hbusy. lia.
Qed.

(** Either some candidate below [n] is free, and then there is a first one,
    or all of them are taken. *)
Lemma first_free_below n :
  (∃ k, k < n ∧ first_free (λ s, tableExists s = false) base k)
  ∨ (∀ k, k < n → tableExists (candidate base k) = true).
Proof.
  induction n as [|n [(k & Hk & Hfirst) | Hall]].
  - right. intros k Hk. lia.
  - left. exists k. split; [lia | done].
  - destruct (tableExists (candidate base n)) eqn:Hn.
    + right. intros k Hk. destruct (decide (k = n)) as [-> | ?]; [done|].
      apply Hall. lia.
    + left. exists n. split; [lia|]. split; [done|].
      intros i Hi. rewrite (Hall i Hi). discriminate.
Qed.

End NameResolverFacts.

Section NameResolverSpec.
Import NameResolver.
Local Open Scope nat_scope.

(** C3.  [_generateUniqueTableName] tests the candidates [base], [base_1],
    [base_2], ... in that order, [maxRetries] of them at most (the base
    counts as one).  It returns the first candidate the existence predicate
    rejects; when all [maxRetries] candidates exist it throws the
    exhausted-budget error; a returned name never exists.  With a budget of
    at least one the base name is tested first and returned when free.
    With the default budget of 10: tables Orders, Orders_1 .. Orders_9 make
    it throw, and the single table Orders gives Orders_1. *)
Theorem generateUniqueTableName_first_free :
  ∀ (tableExists : string → bool) (base : string) (maxRetries : nat),
    let r := _generateUniqueTableName tableExists base maxRetries in
    (∀ k, k < maxRetries →
          first_free (λ s, tableExists s = false) base k →
          r = Ok (candidate base k))
    ∧ ((∀ k, k < maxRetries → tableExists (candidate base k) = true) →
       r = Throw (NameGenerationExhausted maxRetries))
    ∧ (∀ name, r = Ok name →
         tableExists name = false
         ∧ ∃ k, k < maxRetries ∧ name = candidate base k)
    ∧ (0 < maxRetries → tableExists base = false → r = Ok base)
    ∧ r ≠ Diverges
    ∧ _generateUniqueTableName
        (existsIn ("Orders" :: (suffixed "Orders" <$> seq 1 9)))
        "Orders" defaultMaxRetries
      = Throw (NameGenerationExhausted 10)
    ∧ _generateUniqueTableName (existsIn ["Orders"]) "Orders" defaultMaxRetries
      = Ok "Orders_1".
Proof.
  intros tableExists base maxRetries r.
  assert (∀ k, k < maxRetries →
            first_free (λ s, tableExists s = false) base k →
            r = Ok (candidate base k)) as Hfound.
  { intros k Hk [Hfree Hbusy]. subst r. unfold _generateUniqueTableName.
    apply (generate_loop_found tableExists base maxRetries maxRetries 0 k);
      [lia | | done].
    intros i Hi. specialize (Hbusy i). destruct (tableExists (candidate base i));
      [done | exfalso; apply Hbusy; [lia | done]]. }
  assert ((∀ k, k < maxRetries → tableExists (candidate base k) = true) →
          r = Throw (NameGenerationExhausted maxRetries)) as Hnone.
  { intros Hall. subst r. unfold _generateUniqueTableName.
    apply (generate_loop_exhausted tableExists base maxRetries maxRetries 0).
    intros i Hi. apply Hall. lia. }
  split_and!.
  - exact Hfound.
  - exact Hnone.
  - intros name H.
    destruct (first_free_below tableExists base maxRetries)
      as [(k & Hk & Hfirst) | Hall].
    + rewrite (Hfound k Hk Hfirst) in H. injection H as <-.
      split; [apply Hfirst | by exists k].
    + rewrite (Hnone Hall) in H. discriminate H.
  - intros Hpos Hbase. apply (Hfound 0 Hpos). split; [done|]. intros i Hi. lia.
  - destruct (first_free_below tableExists base maxRetries)
      as [(k & Hk & Hfirst) | Hall].
    + by rewrite (Hfound k Hk Hfirst).
    + by rewrite (Hnone Hall).
  - by vm_compute.
  - by vm_compute.
Qed.

Lemma generateUniqueTableName_first_free_witness :
  _generateUniqueTableName (existsIn ["Orders"; "Orders_1"]) "Orders" 3
  = Ok "Orders_2".
Proof.
  apply (proj1 (generateUniqueTableName_first_free
                  (existsIn ["Orders"; "Orders_1"]) "Orders" 3) 2).
  - lia.
  - split; [by vm_compute|].
    intros i Hi. destruct i as [|[|i]]; [by vm_compute | by vm_compute | lia].
Defined.

End NameResolverSpec.

(* ===================================================================== *)
(** * The layout merge: column ids *)
(* ===================================================================== *)

Section MergeFacts.
Import NameResolver Merge.
Local Open Scope nat_scope.

Lemma dedup_loop_found (used : gset string) prefix header fuel k j :
  k ≤ j < k + fuel →
  (∀ i, k ≤ i < j → candidate (prefix +:+ header) i ∈ used) →
  candidate (prefix +:+ header) j ∉ used →
  dedup_loop fuel used (prefix +:+ header) prefix header (S k)
    (candidate (prefix +:+ header) k) (candidate (prefix +:+ header) k)
  = Some (candidate (prefix +:+ header) j, candidate (prefix +:+ header) j).
Proof.
  revert k. induction fuel as [|fuel IH]; intros k Hj Hbusy Hfree; [lia|].
  simpl. destruct (decide (k = j)) as [-> | Hne].
  - by rewrite decide_False.
  - rewrite decide_True by (apply Hbusy; lia).
    replace (prefix +:+ header +:+ "_" +:+ pretty (S k))
      with (candidate (prefix +:+ header) (S k))
      by (simpl; unfold suffixed; by rewrite string_app_assoc).
    change ((prefix +:+ header) +:+ "_" +:+ pretty (S k))
      with (candidate (prefix +:+ header) (S k)).
    apply IH; [lia | | done]. intros i Hi. apply Hbusy. lia.
Qed.

Lemma assoc_set_fresh {V} (o : list (string * V)) key v :
  key ∉ o.*1 → assoc_set o key v = o ++ [(key, v)].
Proof.
  induction o as [|[k w] o IH]; simpl; intros Hfresh; [done|].
  apply not_elem_of_cons in Hfresh as [Hne Hfresh].
  rewrite decide_False by done. by rewrite IH.
Qed.

Lemma consistent_init : consistent init.
Proof. by split. Qed.

Lemma ownColumns_app (a b : BulkData) :
  ownColumns (a ++ b) = ownColumns a ++ ownColumns b.
Proof. apply filter_app. Qed.

Lemma ownKeys_app (a b : list string) : ownKeys (a ++ b) = ownKeys a ++ ownKeys b.
Proof. apply filter_app. Qed.

Lemma ownColumns_keys (grid : BulkData) : (ownColumns grid).*1 = ownKeys grid.*1.
Proof.
  unfold ownColumns, ownKeys.
  induction grid as [|[k v] grid IH]; [done|].
  rewrite fmap_cons. cbn [fst].
  rewrite (filter_cons (λ id : string, id ≠ "__proto__")).
  rewrite (filter_cons (λ kv : string * list JsVal, kv.1 ≠ "__proto__")).
  cbn [fst].
  destruct (decide (k ≠ "__proto__")); [rewrite fmap_cons; cbn [fst]; f_equal|];
    exact IH.
Qed.

Lemma elem_of_ownKeys id ids : id ∈ ownKeys ids ↔ id ∈ ids ∧ id ≠ "__proto__".
Proof. unfold ownKeys. rewrite list_elem_of_filter. tauto. Qed.

(** Assigning the array of a fresh id appends it to the own properties,
    unless the id is [__proto__]. *)
Lemma assign_array_fresh (o : BulkData) key v :
  key ∉ o.*1 → assign_array o key v = o ++ ownColumns [(key, v)].
Proof.
  intros Hfresh. unfold assign_array, ownColumns.
  rewrite (filter_cons (λ kv : string * list JsVal, kv.1 ≠ "__proto__")).
  rewrite filter_nil. cbn [fst].
  destruct (decide (key = "__proto__")) as [Heq | Hne].
  - rewrite bool_decide_eq_true_2 by done.
    rewrite decide_False by (intros Hne; by apply Hne). by rewrite app_nil_r.
  - rewrite bool_decide_eq_false_2 by done. rewrite decide_True by done.
    by apply assoc_set_fresh.
Qed.

Lemma addColumn_ok maxRows entry prefix st header :
  consistent st →
  ∃ k, first_free (λ s, s ∉ usedColumnIds st) (prefix +:+ header) k
    ∧ addColumn maxRows entry prefix st header
      = Ok {| columns := columns st ++ [textColumn (candidate (prefix +:+ header) k)];
              bulkData := bulkData st ++
                ownColumns
                  [(candidate (prefix +:+ header) k, columnData maxRows entry header)];
              usedColumnIds := {[ candidate (prefix +:+ header) k ]} ∪ usedColumnIds st |}.
Proof.
  intros [Hused Hkeys].
  destruct (first_free_exists (usedColumnIds st) (prefix +:+ header))
    as (k & Hk & Hfirst).
  exists k. split; [done|]. unfold addColumn.
  destruct Hfirst as [Hfree Hbusy].
  rewrite (dedup_loop_found (usedColumnIds st) prefix header _ 0 k);
    [ | lia | | done].
  - rewrite assign_array_fresh; [done|].
    rewrite Hkeys. intros Hin%elem_of_ownKeys. destruct Hin as [Hin _]. apply Hfree.
    rewrite Hused. by apply elem_of_list_to_set.
  - intros i Hi. destruct (decide (candidate (prefix +:+ header) i ∈ usedColumnIds st))
      as [|Hout]; [done|]. exfalso. apply (Hbusy i); [lia | done].
Qed.

End MergeFacts.

Section MergeRun.
Import NameResolver Merge.
Local Open Scope nat_scope.

Variable maxRows : nat.

Lemma Resolved_app used sl1 cols1 bulk1 sl2 cols2 bulk2 :
  Resolved maxRows used sl1 cols1 bulk1 →
  Resolved maxRows (list_to_set (Column.id <$> cols1) ∪ used) sl2 cols2 bulk2 →
  Resolved maxRows used (sl1 ++ sl2) (cols1 ++ cols2) (bulk1 ++ bulk2).
Proof.
  intros H1. revert sl2 cols2 bulk2.
  induction H1 as [used | used entry prefix header k sl cols bulk Hfirst _ IH];
    intros sl2 cols2 bulk2 H2.
  - simpl in *. by rewrite (left_id_L ∅ (∪)) in H2.
  - simpl. constructor; [done|]. apply IH.
    replace (list_to_set (Column.id <$> cols)
             ∪ ({[candidate (prefix +:+ header) k]} ∪ used))
      with (list_to_set
              (Column.id <$> textColumn (candidate (prefix +:+ header) k) :: cols)
            ∪ used); [done|].
    rewrite fmap_cons, list_to_set_cons. simpl.
    by rewrite (comm_L (∪) {[_]} (list_to_set _)), <- (assoc_L (∪)).
Qed.

Lemma continues_refl st : continues maxRows st st [].
Proof.
  exists [], []. rewrite !app_nil_r. split_and!; [done | done | | constructor].
  simpl. by rewrite (left_id_L ∅ (∪)).
Qed.

Lemma continues_trans st1 st2 st3 sl1 sl2 :
  continues maxRows st1 st2 sl1 → continues maxRows st2 st3 sl2 → continues maxRows st1 st3 (sl1 ++ sl2).
Proof.
  intros (c1 & b1 & Hc1 & Hb1 & Hu1 & Hr1) (c2 & b2 & Hc2 & Hb2 & Hu2 & Hr2).
  exists (c1 ++ c2), (b1 ++ b2). split_and!.
  - by rewrite Hc2, Hc1, app_assoc.
  - by rewrite Hb2, Hb1, ownColumns_app, app_assoc.
  - rewrite Hu2, Hu1, fmap_app, list_to_set_app_L.
    by rewrite (assoc_L (∪)), (comm_L (∪) (list_to_set (Column.id <$> c2))).
  - apply Resolved_app; [done|]. by rewrite <- Hu1.
Qed.

Lemma continues_consistent st st' sl :
  consistent st → continues maxRows st st' sl → consistent st'.
Proof.
  intros [Hused Hkeys] (cols & bulk & Hc & Hb & Hu & Hr). split.
  - rewrite Hu, Hc, Hused, fmap_app, list_to_set_app_L. apply (comm_L (∪)).
  - rewrite Hb, Hc, !fmap_app, Hkeys, ownKeys_app, ownColumns_keys. do 2 f_equal.
    clear -Hr. induction Hr; simpl; [done | by f_equal].
Qed.

Lemma addColumn_continues entry prefix st header :
  consistent st →
  ∃ st', addColumn maxRows entry prefix st header = Ok st'
       ∧ continues maxRows st st' [(entry, prefix, header)].
Proof.
  intros Hcons.
  destruct (addColumn_ok maxRows entry prefix st header Hcons) as (k & Hfirst & ->).
  eexists. split; [done|].
  exists [textColumn (candidate (prefix +:+ header) k)],
         [(candidate (prefix +:+ header) k, columnData maxRows entry header)].
  simpl. split_and!; [done | done | | ].
  - by rewrite (right_id_L ∅ (∪)).
  - constructor; [done | constructor].
Qed.

Lemma addColumns_continues entry prefix hs st :
  consistent st →
  ∃ st', addColumns maxRows entry prefix st hs = Ok st'
       ∧ continues maxRows st st' ((λ h, (entry, prefix, h)) <$> hs).
Proof.
  revert st. induction hs as [|header hs IH]; intros st Hcons; simpl.
  - exists st. split; [done | apply continues_refl].
  - destruct (addColumn_continues entry prefix st header Hcons) as (st1 & -> & H1).
    simpl. destruct (IH st1) as (st2 & -> & H2).
    { by eapply continues_consistent. }
    exists st2. split; [done|].
    by apply (continues_trans st st1 st2 [_]).
Qed.

Lemma processSelections_continues selectionIndex formattedData st :
  consistent st →
  ∃ st', processSelections maxRows selectionIndex st formattedData = Ok st'
       ∧ continues maxRows st st' (slotsFrom selectionIndex formattedData).
Proof.
  revert selectionIndex st.
  induction formattedData as [|entry rest IH]; intros selectionIndex st Hcons; simpl.
  - exists st. split; [done | apply continues_refl].
  - destruct (Formatted.headers entry) as [hs|]; simpl.
    + destruct (addColumns_continues entry (prefixOf selectionIndex entry) hs st Hcons)
        as (st1 & -> & H1).
      simpl. destruct (IH (S selectionIndex) st1) as (st2 & -> & H2).
      { by eapply continues_consistent. }
      exists st2. split; [done|]. by eapply continues_trans.
    + by apply IH.
Qed.

(** ** What [Resolved] gives *)

Lemma Resolved_length used sl cols bulk :
  Resolved maxRows used sl cols bulk →
  length cols = length sl ∧ length bulk = length sl.
Proof.
  induction 1 as [|used entry prefix header k sl cols bulk _ _ [IH1 IH2]]; simpl;
    [done | by rewrite IH1, IH2].
Qed.

Lemma Resolved_keys used sl cols bulk :
  Resolved maxRows used sl cols bulk → bulk.*1 = Column.id <$> cols.
Proof. induction 1; simpl; [done | by f_equal]. Qed.

Lemma Resolved_fresh used sl cols bulk :
  Resolved maxRows used sl cols bulk →
  NoDup (Column.id <$> cols) ∧ ∀ x, x ∈ Column.id <$> cols → x ∉ used.
Proof.
  induction 1 as [|used entry prefix header k sl cols bulk [Hfree _] _ [IHnd IHout]];
    simpl.
  - split; [constructor | intros x Hx; by apply elem_of_nil in Hx].
  - split.
    + constructor; [|done]. intros Hin. apply IHout in Hin.
      apply Hin, elem_of_union. left. by apply elem_of_singleton.
    + intros x [-> | Hx]%elem_of_cons; [done|]. apply IHout in Hx.
      intros Hin. apply Hx, elem_of_union. by right.
Qed.

Lemma Resolved_lookup used sl cols bulk i entry prefix header :
  Resolved maxRows used sl cols bulk →
  sl !! i = Some (entry, prefix, header) →
  ∃ k,
    cols !! i = Some (textColumn (candidate (prefix +:+ header) k))
    ∧ bulk !! i = Some (candidate (prefix +:+ header) k,
                        columnData maxRows entry header)
    ∧ first_free (λ s, (s ∉ used) ∧ (s ∉ Column.id <$> take i cols))
        (prefix +:+ header) k.
Proof.
  intros Hr. revert i.
  induction Hr as [|used e p h k sl cols bulk Hfirst _ IH]; intros i Hi;
    [done|].
  destruct i as [|i]; simpl in *.
  - injection Hi as -> -> ->. exists k. split_and!; [done | done |].
    destruct Hfirst as [Hfree Hbusy]. split.
    + split; [done | apply not_elem_of_nil].
    + intros j Hj [Hout _]. by apply (Hbusy j).
  - destruct (IH i Hi) as (k' & Hc & Hb & [[Hfree1 Hfree2] Hbusy]).
    exists k'. split_and!; [done | done |].
    rewrite elem_of_union, elem_of_singleton in Hfree1. split.
    + rewrite elem_of_cons. tauto.
    + intros j Hj [Hout1 Hout2]. apply (Hbusy j Hj).
      rewrite elem_of_union, elem_of_singleton.
      rewrite elem_of_cons in Hout2. tauto.
Qed.

Lemma assoc_get_lookup {V} (o : list (string * V)) i key v :
  NoDup o.*1 → o !! i = Some (key, v) → assoc_get o key = Some v.
Proof.
  revert i. induction o as [|[k w] o IH]; intros i Hnd Hi; [done|].
  apply NoDup_cons in Hnd as [Hout Hnd]. destruct i as [|i]; simpl in *.
  - injection Hi as -> ->. by rewrite decide_True.
  - rewrite decide_False; [by eapply IH|].
    intros ->. apply Hout. apply list_elem_of_fmap. exists (key, v).
    split; [done|]. by eapply list_elem_of_lookup_2.
Qed.

End MergeRun.

Section MergeResult.
Import NameResolver Merge.
Local Open Scope nat_scope.

Lemma length_slotsFrom selectionIndex formattedData :
  length (slotsFrom selectionIndex formattedData)
  = sum_list (headerCount <$> formattedData).
Proof.
  revert selectionIndex.
  induction formattedData as [|entry rest IH]; intros selectionIndex; simpl; [done|].
  rewrite length_app, IH. f_equal. unfold headerCount.
  destruct (Formatted.headers entry); simpl; [by rewrite length_fmap | done].
Qed.

(** What the merge does on a non-empty input: it resolves the slots against
    an empty set of used ids, and throws afterwards when no column came out. *)
Lemma convertGlobalSelectionData_run formattedData :
  formattedData ≠ [] →
  ∃ cols bulk,
    Resolved (maxRowsOf formattedData) ∅ (slots formattedData) cols bulk
    ∧ convertGlobalSelectionData formattedData
      = if decide (cols = []) then Throw NoValidColumns
        else Ok (cols, ownColumns bulk).
Proof.
  intros Hne. unfold convertGlobalSelectionData.
  destruct formattedData as [|entry rest]; [done|].
  change (length (entry :: rest) =? 0) with false. cbv iota.
  destruct (processSelections_continues (maxRowsOf (entry :: rest)) 0
              (entry :: rest) init consistent_init)
    as (st & -> & cols & bulk & Hc & Hb & _ & Hr).
  exists cols, bulk. split; [done|]. simpl in Hc, Hb. simpl. rewrite Hc, Hb.
  destruct cols; [done|]. by rewrite decide_False.
Qed.

Lemma sum_list_zero (l : list nat) : sum_list l = 0 ↔ Forall (λ n, n = 0) l.
Proof.
  induction l as [|n l IH]; simpl; [by split; [constructor|] |].
  rewrite Forall_cons, <- IH. lia.
Qed.

(** ** Column data *)

Lemma length_columnData maxRows entry header :
  length (columnData maxRows entry header) = maxRows.
Proof. unfold columnData. by rewrite length_fmap, length_seq. Qed.

Lemma lookup_columnData maxRows entry header r :
  r < maxRows →
  columnData maxRows entry header !! r = Some (cellValue entry header r).
Proof.
  intros Hr. unfold columnData. rewrite list_lookup_fmap.
  by rewrite lookup_seq_lt.
Qed.

End MergeResult.

Section MergeClaims.
Import NameResolver Merge.
Local Open Scope nat_scope.

Lemma slotsFrom_origin selectionIndex formattedData i entry prefix header :
  slotsFrom selectionIndex formattedData !! i = Some (entry, prefix, header) →
  ∃ si hs, formattedData !! si = Some entry
         ∧ Formatted.headers entry = Some hs
         ∧ header ∈ hs
         ∧ prefix = sanitize (tableNameOf (selectionIndex + si) entry) +:+ "_".
Proof.
  revert selectionIndex i.
  induction formattedData as [|e rest IH]; intros selectionIndex i Hi; [done|].
  simpl in Hi. apply lookup_app_Some in Hi as [Hi | [_ Hi]].
  - destruct (Formatted.headers e) as [hs|] eqn:Hhs; [|done].
    apply list_lookup_fmap_Some in Hi as (h & Hh & Heq).
    simplify_eq.
    exists 0, hs. rewrite Nat.add_0_r.
    split_and!; [done | done | by eapply list_elem_of_lookup_2 | done].
  - destruct (IH _ _ Hi) as (si & hs & Hsi & Hhs & Hin & ->).
    exists (S si), hs. split_and!; [done | done | done |].
    by replace (selectionIndex + S si) with (S selectionIndex + si) by lia.
Qed.

Lemma no_headers_iff (formattedData : list Formatted.t) :
  sum_list (headerCount <$> formattedData) = 0
  ↔ Forall (λ e, headerCount e = 0) formattedData.
Proof. by rewrite sum_list_zero, Forall_fmap. Qed.

(** The three ways a merge ends. *)
Lemma convertGlobalSelectionData_cases formattedData :
  (formattedData = []
   ∧ convertGlobalSelectionData formattedData = Throw NoFormattedData)
  ∨ (formattedData ≠ []
     ∧ Forall (λ e, headerCount e = 0) formattedData
     ∧ convertGlobalSelectionData formattedData = Throw NoValidColumns)
  ∨ (formattedData ≠ []
     ∧ ¬ Forall (λ e, headerCount e = 0) formattedData
     ∧ ∃ cols bulk,
         convertGlobalSelectionData formattedData = Ok (cols, ownColumns bulk)
         ∧ Resolved (maxRowsOf formattedData) ∅ (slots formattedData) cols bulk).
Proof.
  destruct (decide (formattedData = [])) as [-> | Hne]; [by left|]. right.
  destruct (convertGlobalSelectionData_run formattedData Hne)
    as (cols & bulk & Hr & Hrun).
  pose proof (Resolved_length _ _ _ _ _ Hr) as [Hlen _].
  unfold slots in Hlen. rewrite length_slotsFrom in Hlen.
  destruct (decide (cols = [])) as [-> | Hcols].
  - left. split_and!; [done | | done].
    apply no_headers_iff. by rewrite <- Hlen.
  - right. split_and!; [done | | by exists cols, bulk].
    intros Hall. apply no_headers_iff in Hall.
    rewrite Hall in Hlen. by destruct cols.
Qed.

(** C7.  The merge throws in exactly two cases: on an empty input
    ('No formatted data provided ...') and when no column results
    ('No valid columns found ...'), which happens exactly when no selection
    contributes a header, for example when every selection has invalid
    headers.  In every other case it returns a grid. *)
Theorem convertGlobalSelectionData_throws_iff :
  ∀ formattedData : list Formatted.t,
    (convertGlobalSelectionData formattedData = Throw NoFormattedData
     ↔ formattedData = [])
    ∧ (convertGlobalSelectionData formattedData = Throw NoValidColumns
       ↔ formattedData ≠ [] ∧ Forall (λ e, headerCount e = 0) formattedData)
    ∧ ((∃ grid, convertGlobalSelectionData formattedData = Ok grid)
       ↔ formattedData ≠ [] ∧ ¬ Forall (λ e, headerCount e = 0) formattedData)
    ∧ (∀ e, convertGlobalSelectionData formattedData = Throw e →
            e = NoFormattedData ∨ e = NoValidColumns)
    ∧ convertGlobalSelectionData formattedData ≠ Diverges
    ∧ (∀ cols bulk,
         convertGlobalSelectionData formattedData = Ok (cols, bulk) → cols ≠ [])
    ∧ (formattedData ≠ [] →
       Forall (λ e, Formatted.headers e = None) formattedData →
       convertGlobalSelectionData formattedData = Throw NoValidColumns).
Proof.
  intros formattedData.
  destruct (convertGlobalSelectionData_cases formattedData)
    as [[Hnil ->] | [(Hne & Hall & ->) | (Hne & Hex & cols & bulk & -> & Hr)]].
  - split_and!; naive_solver.
  - split_and!; naive_solver.
  - split_and!; [naive_solver.. | | ].
    + intros cols' bulk' [= <- <-] ->. apply Hex, no_headers_iff.
      rewrite <- (length_slotsFrom 0). fold (slots formattedData).
      by destruct (Resolved_length _ _ _ _ _ Hr) as [<- _].
    + intros _ Hnone. exfalso. apply Hex.
      eapply Forall_impl; [exact Hnone|]. intros e He. unfold headerCount.
      by rewrite He.
Qed.

Lemma convertGlobalSelectionData_throws_iff_witness :
  convertGlobalSelectionData [Examples.noHeaders] = Throw NoValidColumns.
Proof.
  apply (proj1 (proj2 (convertGlobalSelectionData_throws_iff [Examples.noHeaders]))).
  split; [discriminate | by repeat constructor].
Defined.

(** The sanitized name, character by character. *)
Lemma sanitize_get name n :
  String.get n (sanitize name)
  = (λ c, if is_word_char c then c else "_"%char) <$> String.get n name.
Proof.
  revert n. induction name as [|c name IH]; intros n; [by destruct n|].
  destruct n as [|n]; simpl; [done | apply IH].
Qed.

(** The characters that sanitizing keeps. *)
Lemma is_word_char_spec c :
  is_word_char c = true
  ↔ (48 ≤ N_of_ascii c ≤ 57 ∨ 65 ≤ N_of_ascii c ≤ 90
     ∨ 97 ≤ N_of_ascii c ≤ 122 ∨ N_of_ascii c = 95)%N.
Proof.
  unfold is_word_char.
  rewrite !orb_true_iff, !andb_true_iff, !N.leb_le, N.eqb_eq. tauto.
Qed.

(** C2.  The column ids of a merged grid are pairwise distinct.  The column
    at position [i] stems from the [i]-th slot: its candidate id is the
    sanitized table name, an underscore and the header; its id and its
    label are the first of candidate, candidate_1, candidate_2, ... that is
    not among the ids of the columns before it (so the candidate itself
    when it is unused, else the first unused suffix).  The sanitized name
    is the table name with every character other than a letter a-z or A-Z,
    a digit or an underscore replaced by an underscore.  The own keys of
    [bulkData] are the column ids, in order, without the id __proto__.
    Two selections of table Sheet1 with header Amount give Sheet1_Amount
    and Sheet1_Amount_1; two of table Q1 Sales (EU) give
    Q1_Sales__EU__Amount and Q1_Sales__EU__Amount_1. *)
Theorem convertGlobalSelectionData_unique_ids :
  ∀ (formattedData : list Formatted.t) (cols : list Column.t) (bulk : BulkData),
    convertGlobalSelectionData formattedData = Ok (cols, bulk) →
    NoDup (Column.id <$> cols)
    ∧ length cols = length (slots formattedData)
    ∧ (∀ i entry prefix header,
         slots formattedData !! i = Some (entry, prefix, header) →
         (∃ si, formattedData !! si = Some entry
              ∧ prefix = sanitize (tableNameOf si entry) +:+ "_")
         ∧ ∃ c k,
             cols !! i = Some c
             ∧ Column.id c = candidate (prefix +:+ header) k
             ∧ Column.label c = candidate (prefix +:+ header) k
             ∧ first_free (λ s, s ∉ Column.id <$> take i cols)
                 (prefix +:+ header) k)
    ∧ (∀ (name : string) (n : nat),
         String.length (sanitize name) = String.length name
         ∧ String.get n (sanitize name)
           = (λ c, if is_word_char c then c else "_"%char) <$> String.get n name)
    ∧ (∀ c : ascii,
         is_word_char c = true
         ↔ (48 ≤ N_of_ascii c ≤ 57 ∨ 65 ≤ N_of_ascii c ≤ 90
            ∨ 97 ≤ N_of_ascii c ≤ 122 ∨ N_of_ascii c = 95)%N)
    ∧ bulk.*1 = ownKeys (Column.id <$> cols)
    ∧ (∃ bulk2,
        convertGlobalSelectionData [Examples.sheet1Amount; Examples.sheet1Amount]
        = Ok ([textColumn "Sheet1_Amount"; textColumn "Sheet1_Amount_1"], bulk2))
    ∧ ∃ bulk3,
        convertGlobalSelectionData
          [Examples.selection "Q1 Sales (EU)" ["Amount"] 0 [];
           Examples.selection "Q1 Sales (EU)" ["Amount"] 0 []]
        = Ok ([textColumn "Q1_Sales__EU__Amount";
               textColumn "Q1_Sales__EU__Amount_1"], bulk3).
Proof.
  intros formattedData cols bulk Hok.
  destruct (convertGlobalSelectionData_cases formattedData)
    as [[_ H] | [(_ & _ & H) | (Hne & _ & cols' & bulk' & H & Hr)]];
    rewrite H in Hok; [done | done |].
  injection Hok as <- <-.
  split_and!.
  - by eapply Resolved_fresh.
  - by eapply Resolved_length.
  - intros i entry prefix header Hi. split.
    + destruct (slotsFrom_origin 0 formattedData i entry prefix header Hi)
        as (si & hs & Hsi & _ & _ & ->). by exists si.
    + destruct (Resolved_lookup _ _ _ _ _ i entry prefix header Hr Hi)
        as (k & Hc & _ & [[_ Hfree] Hbusy]).
      exists (textColumn (candidate (prefix +:+ header) k)), k.
      split_and!; [done | done | done |]. split; [done|].
      intros j Hj Hout. apply (Hbusy j Hj). split; [apply not_elem_of_empty | done].
  - intros name n. split; [|apply sanitize_get].
    induction name as [|c name IH]; simpl; [done | by rewrite IH].
  - apply is_word_char_spec.
  - by rewrite ownColumns_keys, (Resolved_keys _ _ _ _ _ Hr).
  - eexists. by vm_compute.
  - eexists. by vm_compute.
Qed.

Lemma convertGlobalSelectionData_unique_ids_witness :
  NoDup (Column.id <$> [textColumn "Sales_Qty"; textColumn "Sales_Qty_1"]).
Proof.
  apply (convertGlobalSelectionData_unique_ids
           [Examples.salesA; Examples.salesB]
           [textColumn "Sales_Qty"; textColumn "Sales_Qty_1"]
           [("Sales_Qty", [VNum 1; VNum 2; VNum 3]);
            ("Sales_Qty_1", [VNum 9; VNum 8; VStr ""])]).
  by vm_compute.
Defined.

(** C1, as stated, fails: a non-empty list of selections that all have a
    valid but empty headers array gives no grid; the merge throws
    'No valid columns found in formatted data'. *)
Lemma convertGlobalSelectionData_grid_counterexample :
  ¬ (∀ formattedData : list Formatted.t,
       formattedData ≠ [] →
       Forall (λ e, is_Some (Formatted.headers e)) formattedData →
       ∃ grid, convertGlobalSelectionData formattedData = Ok grid).
Proof.
  intros H. destruct (H [Examples.noHeaders]) as [grid Hgrid].
  - discriminate.
  - repeat constructor. by eexists.
  - vm_compute in Hgrid. discriminate Hgrid.
Qed.

(** The own properties of [bulkData], key by key. *)
Lemma assoc_get_ownColumns (grid : BulkData) key :
  assoc_get (ownColumns grid) key
  = if decide (key = "__proto__") then None else assoc_get grid key.
Proof.
  unfold ownColumns. induction grid as [|[k v] grid IH].
  { by destruct (decide (key = "__proto__")). }
  rewrite (filter_cons (λ kv : string * list JsVal, kv.1 ≠ "__proto__")).
  cbn [fst]. destruct (decide (k ≠ "__proto__")) as [Hk | Hk]; simpl.
  - destruct (decide (k = key)) as [<- | Hne]; [by rewrite decide_False | exact IH].
  - etrans; [exact IH|].
    destruct (decide (key = "__proto__")) as [-> | Hne]; [done|].
    rewrite decide_False; [done|]. intros <-. apply Hk. done.
Qed.

(** Reading a property of a row, case by case. *)
Lemma get_prop_cases (row : Obj) (key : string) :
  (∀ v, own row !! key = Some v → get_prop row key = v)
  ∧ (own row !! key = None →
     proto row = NullPrototype ∨ key ∉ objectPrototypeMembers →
     get_prop row key = VUndefined)
  ∧ (own row !! key = None →
     proto row = ObjectPrototype → key ∈ objectPrototypeMembers →
     get_prop row key = VBuiltin key).
Proof.
  unfold get_prop, inherited. split_and!.
  - by intros v ->.
  - intros -> [-> | Hout]; [done|].
    destruct (proto row); [|done]. by rewrite bool_decide_eq_false_2.
  - intros -> -> Hin. by rewrite bool_decide_eq_true_2.
Qed.

(** C1, amended.  For a non-empty list of selections that all have a valid
    headers array and have at least one header between them, the merge
    returns a grid.  Its column count is the sum of the header counts.
    [bulkData] has one data sequence per column, in column order, each of
    length [maxRows], the maximum of the selections' row counts; the one
    exception is a column whose id is __proto__, for which [bulkData] has
    no own property.  The column of the [i]-th slot (selection, header)
    holds, at a row index where the selection has a row, what reading the
    header off that row gives, or the empty string when that is falsy; at
    every row index at or beyond the number of rows of the selection it
    holds the empty string (the row count of a selection is the number of
    its rows whenever [rowCount] and [data] agree, as they do for formatted
    entries).  Reading a header off a row gives the row's own property;
    for a header the row does not own it gives what the row inherits: the
    built-in member when the header names a member of Object.prototype and
    the row inherits from it, and undefined, hence the empty string,
    otherwise.  Selections A (Sales, [Qty], rows 1 2 3) and B (Sales,
    [Qty], rows 9 8) give columns Sales_Qty, Sales_Qty_1 with data [1,2,3]
    and [9,8,""].  A selection of Sales with the headers Price and
    constructor, whose rows own neither and whose second row is
    prototype-less, gives Sales_Price with ["", ""] and Sales_constructor
    with the function Object and "". *)
Theorem convertGlobalSelectionData_grid :
  ∀ formattedData : list Formatted.t,
    formattedData ≠ [] →
    Forall (λ e, is_Some (Formatted.headers e)) formattedData →
    0 < sum_list (headerCount <$> formattedData) →
    ∃ cols bulk,
      convertGlobalSelectionData formattedData = Ok (cols, bulk)
      ∧ length cols = sum_list (headerCount <$> formattedData)
      ∧ bulk.*1 = ownKeys (Column.id <$> cols)
      ∧ Forall (λ kv, length kv.2 = maxRowsOf formattedData) bulk
      ∧ (∀ i entry prefix header,
           slots formattedData !! i = Some (entry, prefix, header) →
           ∃ c,
             cols !! i = Some c
             ∧ (Column.id c = "__proto__" → assoc_get bulk (Column.id c) = None)
             ∧ (Column.id c ≠ "__proto__" →
                ∃ d,
                  assoc_get bulk (Column.id c) = Some d
                  ∧ length d = maxRowsOf formattedData
                  ∧ (∀ r row, r < maxRowsOf formattedData →
                       rowsOf entry !! r = Some row →
                       d !! r = Some (if truthy (get_prop row header)
                                      then get_prop row header else VStr ""))
                  ∧ (∀ r, length (rowsOf entry) ≤ r < maxRowsOf formattedData →
                       d !! r = Some (VStr ""))
                  ∧ (Formatted.rowCount entry = length (rowsOf entry) →
                     ∀ r, Formatted.rowCount entry ≤ r < maxRowsOf formattedData →
                       d !! r = Some (VStr ""))))
      ∧ (∀ (row : Obj) (header : string),
           let members := [ "constructor"; "__defineGetter__"; "__defineSetter__";
                     "hasOwnProperty"; "__lookupGetter__"; "__lookupSetter__";
                     "isPrototypeOf"; "propertyIsEnumerable"; "toString";
                     "valueOf"; "__proto__"; "toLocaleString" ] in
           (∀ v, own row !! header = Some v → get_prop row header = v)
           ∧ (own row !! header = None →
              proto row = NullPrototype ∨ header ∉ members →
              get_prop row header = VUndefined)
           ∧ (own row !! header = None →
              proto row = ObjectPrototype → header ∈ members →
              get_prop row header = VBuiltin header))
      ∧ convertGlobalSelectionData [Examples.salesA; Examples.salesB]
        = Ok ([textColumn "Sales_Qty"; textColumn "Sales_Qty_1"],
              [("Sales_Qty", [VNum 1; VNum 2; VNum 3]);
               ("Sales_Qty_1", [VNum 9; VNum 8; VStr ""])])
      ∧ convertGlobalSelectionData
          [Examples.selection "Sales" ["Price"; "constructor"] 2
             [Examples.qty 1;
              {| own := {[ "Qty" := VNum 2 ]}; proto := NullPrototype |}]]
        = Ok ([textColumn "Sales_Price"; textColumn "Sales_constructor"],
              [("Sales_Price", [VStr ""; VStr ""]);
               ("Sales_constructor", [VBuiltin "constructor"; VStr ""])]).
Proof.
  intros formattedData Hne _ Hpos.
  destruct (convertGlobalSelectionData_cases formattedData)
    as [[Hnil _] | [(_ & Hall & _) | (_ & _ & cols & grid & Hok & Hr)]];
    [done | apply no_headers_iff in Hall; lia |].
  exists cols, (ownColumns grid).
  pose proof (Resolved_fresh _ _ _ _ _ Hr) as [Hnd _].
  pose proof (Resolved_keys _ _ _ _ _ Hr) as Hkeys.
  assert (∀ used sl cs bk, Resolved (maxRowsOf formattedData) used sl cs bk →
            Forall (λ kv, length kv.2 = maxRowsOf formattedData) bk) as Hlens.
  { induction 1; constructor; [apply length_columnData | done]. }
  split_and!.
  - done.
  - rewrite <- length_slotsFrom with (selectionIndex := 0).
    by eapply Resolved_length.
  - by rewrite ownColumns_keys, Hkeys.
  - apply Forall_forall. intros kv Hkv.
    apply (proj1 (Forall_forall _ _) (Hlens _ _ _ _ Hr)).
    unfold ownColumns in Hkv. by apply list_elem_of_filter in Hkv as [_ ?].
  - intros i entry prefix header Hi.
    destruct (Resolved_lookup _ _ _ _ _ i entry prefix header Hr Hi)
      as (k & Hc & Hb & _).
    exists (textColumn (candidate (prefix +:+ header) k)).
    assert (∀ r, length (rowsOf entry) ≤ r < maxRowsOf formattedData →
              columnData (maxRowsOf formattedData) entry header !! r
              = Some (VStr "")) as Hpad.
    { intros r [Hlo Hhi]. rewrite lookup_columnData by done. f_equal.
      unfold cellValue, rowsOf in *.
      destruct (Formatted.data entry) as [rows|]; simpl in *; [|done].
      by rewrite (lookup_ge_None_2 rows r). }
    split_and!.
    + done.
    + intros Hid. rewrite assoc_get_ownColumns. by rewrite decide_True.
    + intros Hid. exists (columnData (maxRowsOf formattedData) entry header).
      split_and!.
      * rewrite assoc_get_ownColumns, decide_False by done.
        eapply assoc_get_lookup; [by rewrite Hkeys | exact Hb].
      * apply length_columnData.
      * intros r row Hlt Hrow. rewrite lookup_columnData by done. f_equal.
        unfold cellValue, rowsOf in *.
        destruct (Formatted.data entry) as [rows|]; simpl in *; [|done].
        by rewrite Hrow.
      * exact Hpad.
      * intros Heq r Hr'. apply Hpad. lia.
  - intros row header. apply get_prop_cases.
  - by vm_compute.
  - by vm_compute.
Qed.

Lemma convertGlobalSelectionData_grid_witness :
  ∃ cols bulk,
    convertGlobalSelectionData [Examples.salesA; Examples.salesB] = Ok (cols, bulk)
    ∧ length cols = 2.
Proof.
  destruct (convertGlobalSelectionData_grid [Examples.salesA; Examples.salesB])
    as (cols & bulk & Hok & Hlen & _).
  - discriminate.
  - repeat constructor; by eexists.
  - vm_compute. lia.
  - exists cols, bulk. split; [exact Hok | exact Hlen].
Defined.

End MergeClaims.

(* ===================================================================== *)
(** * Sheet creation against a host document *)
(* ===================================================================== *)

Section CreateNewSheetFacts.
Import Host SheetCreationUtils.
Local Open Scope nat_scope.

Context {Doc : Type} (gristDoc : GristDoc Doc).

(** Navigation sends no action. *)
Lemma navigateToSheet_trace tableId w :
  ∃ r w' ev, _navigateToSheet gristDoc tableId w = (r, w')
           ∧ trace w' = trace w ++ [ev] ∧ isBulkAdd ev = false.
Proof.
  unfold _navigateToSheet.
  destruct (findTable gristDoc (doc w) tableId) as [rec|].
  - destruct (rawViewSectionRef rec =? 0).
    + by eexists _, _, _.
    + unfold openPage. destruct (openDocPage gristDoc _ (doc w)) as [r d'].
      by eexists _, _, _.
  - by eexists _, _, _.
Qed.

(** The events of one [createNewSheet], case by case. *)
Lemma createNewSheet_events options w :
  let name := NameResolver._generateUniqueTableName
                (tableExists gristDoc (doc w)) (baseTableName options)
                NameResolver.defaultMaxRetries in
  ∃ r w' evs,
    createNewSheet gristDoc options w = (r, w')
    ∧ trace w' = trace w ++ evs
    ∧ match name with
      | Ok newTableId =>
          let add := AddTable newTableId (SheetCreationUtils.columns options) in
          let bulk := BulkAddRecord newTableId
                        (replicate (numRowsOf (bulkData options)) VNull)
                        (bulkData options) in
          match sendAction gristDoc add (doc w) with
          | (Ok _, d1) =>
              if decide (bulkData options = [])
              then List.filter isBulkAdd evs = []
                   ∧ ∃ evs', evs = Sent add :: evs'
              else List.filter isBulkAdd evs = [Sent bulk]
                   ∧ ∃ evs', evs = Sent add :: Sent bulk :: evs'
          | (_, _) => evs = [Sent add]
          end
      | _ => evs = []
      end.
Proof.
  intros name. unfold createNewSheet. unfold bindM at 1. unfold lift at 1.
  fold name. destruct name as [newTableId | e | ].
  2:{ eexists _, _, []. by rewrite app_nil_r. }
  2:{ eexists _, _, []. by rewrite app_nil_r. }
  unfold bindM at 1. unfold send at 1.
  destruct (sendAction gristDoc (AddTable newTableId _) (doc w)) as [r1 d1] eqn:Hadd.
  destruct r1 as [ret1 | e1 | ].
  2:{ by eexists _, _, [_]. }
  2:{ by eexists _, _, [_]. }
  unfold bindM at 1.
  destruct (bulkData options) as [|[key firstColumnData] rest] eqn:Hbulk.
  - simpl. unfold ret at 1. unfold bindM at 1.
    destruct (default true (navigateToSheet options)).
    + destruct (navigateToSheet_trace newTableId
                  {| doc := d1; trace := trace w ++ [Sent (AddTable newTableId (SheetCreationUtils.columns options))] |})
        as (r & w' & ev & Hnav & Htr & Hev).
      rewrite Hnav. simpl in Htr.
      destruct r; eexists _, _, [_; ev]; (split; [reflexivity|]); simpl;
        rewrite Htr, <- app_assoc; (split; [done|]); rewrite Hev; eauto.
    + unfold ret. eexists _, _, [_]. split; [reflexivity|]. simpl. eauto.
  - change (0 <? length ((key, firstColumnData) :: rest)) with true. cbv iota.
    unfold bindM at 1. unfold send at 1. simpl doc. simpl trace.
    unfold numRowsOf. simpl head.
    destruct (sendAction gristDoc (BulkAddRecord newTableId _ _) d1) as [r2 d2].
    destruct (decide ((key, firstColumnData) :: rest = [])) as [? | _]; [done|].
    destruct r2 as [ret2 | e2 | ].
    2:{ eexists _, _, [_; _]. split; [reflexivity|]. simpl.
        rewrite <- app_assoc. eauto. }
    2:{ eexists _, _, [_; _]. split; [reflexivity|]. simpl.
        rewrite <- app_assoc. eauto. }
    unfold ret at 1. unfold bindM at 1.
    destruct (default true (navigateToSheet options)).
    + match goal with |- context [_navigateToSheet _ _ ?w0] =>
        destruct (navigateToSheet_trace newTableId w0)
          as (r & w' & ev & Hnav & Htr & Hev) end.
      rewrite Hnav. simpl in Htr.
      destruct r; eexists _, _, [_; _; ev]; (split; [reflexivity|]); simpl;
        rewrite Htr, <- !app_assoc; (split; [done|]); rewrite Hev; eauto.
    + unfold ret. eexists _, _, [_; _]. split; [reflexivity|]. simpl.
      rewrite <- app_assoc. eauto.
Qed.

End CreateNewSheetFacts.

Section CreateNewSheetClaims.
Import Host SheetCreationUtils.
Local Open Scope nat_scope.

Lemma elem_of_bulk_filter (evs : list Event) tableId rowIds bulkData' :
  Sent (BulkAddRecord tableId rowIds bulkData') ∈ evs
  ↔ Sent (BulkAddRecord tableId rowIds bulkData') ∈ List.filter isBulkAdd evs.
Proof.
  rewrite !list_elem_of_In, filter_In. simpl. tauto.
Qed.

(** A merged grid has at least one column.  [bulkData] has the columns as
    own properties, except a column with the id __proto__; so it is empty
    exactly when that is the grid's only column, and otherwise its first
    column has [maxRows] values. *)
Lemma merged_grid_rows formattedData cols bulk :
  Merge.convertGlobalSelectionData formattedData = Ok (cols, bulk) →
  cols ≠ []
  ∧ bulk.*1 = ownKeys (Column.id <$> cols)
  ∧ (bulk = [] ↔ Column.id <$> cols = ["__proto__"])
  ∧ (bulk ≠ [] → numRowsOf bulk = Merge.maxRowsOf formattedData).
Proof.
  intros Hok.
  destruct (convertGlobalSelectionData_cases formattedData)
    as [[_ H] | [(_ & _ & H) | (_ & Hex & cols' & grid & H & Hr)]];
    rewrite H in Hok; [done | done |].
  injection Hok as <- <-.
  pose proof (Resolved_fresh _ _ _ _ _ Hr) as [Hnd _].
  pose proof (Resolved_keys _ _ _ _ _ Hr) as Hkeys.
  assert (cols' ≠ []) as Hcols.
  { intros ->. apply Hex, no_headers_iff.
    rewrite <- (length_slotsFrom 0). fold (slots formattedData).
    by destruct (Resolved_length _ _ _ _ _ Hr) as [<- _]. }
  assert ((ownColumns grid).*1 = ownKeys (Column.id <$> cols')) as Hown.
  { by rewrite ownColumns_keys, Hkeys. }
  split_and!; [done | done | |].
  - split.
    + intros Hnil. rewrite Hnil in Hown. simpl in Hown.
      destruct cols' as [|c [|c' cols']]; [done | |].
      * simpl in *. unfold ownKeys in Hown.
        rewrite filter_cons, filter_nil in Hown.
        destruct (decide (Column.id c ≠ "__proto__")) as [|Heq]; [done|].
        f_equal. by destruct (decide (Column.id c = "__proto__")); [|destruct Heq].
      * exfalso. simpl in *. unfold ownKeys in Hown.
        rewrite !filter_cons in Hown.
        destruct (decide (Column.id c ≠ "__proto__")) as [|Hc]; [done|].
        destruct (decide (Column.id c' ≠ "__proto__")) as [|Hc']; [done|].
        apply NoDup_cons in Hnd as [Hfresh _]. apply Hfresh.
        apply elem_of_cons. left.
        destruct (decide (Column.id c = "__proto__")) as [->|]; [|by destruct Hc].
        by destruct (decide (Column.id c' = "__proto__")) as [->|]; [|destruct Hc'].
    + intros Hids. rewrite Hids in Hown. by destruct (ownColumns grid).
  - intros Hne. unfold numRowsOf.
    destruct (ownColumns grid) as [|[key d] rest] eqn:Hg; [done|]. simpl.
    assert ((key, d) ∈ grid) as Hin.
    { assert ((key, d) ∈ ownColumns grid) as Hin
        by (rewrite Hg; apply elem_of_cons; by left).
      unfold ownColumns in Hin. by apply list_elem_of_filter in Hin as [_ ?]. }
    clear -Hr Hin. induction Hr as [|used e p h k sl cs bk _ _ IH];
      [by apply elem_of_nil in Hin|].
    apply elem_of_cons in Hin as [[= -> ->] | Hin]; [apply length_columnData | auto].
Qed.

(** C4, as stated, fails: merging one selection that has a header and no
    rows gives a grid with row count 0, and creating the sheet still sends
    the bulk insert (with no row ids). *)
Lemma createNewSheet_bulk_insert_counterexample :
  ∃ cols bulk,
    Merge.convertGlobalSelectionData [Examples.sheet1Amount] = Ok (cols, bulk)
    ∧ Merge.maxRowsOf [Examples.sheet1Amount] = 0
    ∧ Sent (BulkAddRecord "Merged" [] bulk)
      ∈ trace (createNewSheet ExampleHost.gristDoc
                 {| baseTableName := "Merged"; columns := cols;
                    bulkData := bulk; navigateToSheet := Some true |}
                 ExampleHost.emptyWorld).2.
Proof.
  eexists _, _. split; [by vm_compute|]. split; [by vm_compute|].
  vm_compute. apply elem_of_cons. right. apply elem_of_cons. by left.
Qed.

(** Which bulk inserts one [createNewSheet] sends. *)
Lemma createNewSheet_sent {Doc} (gristDoc : GristDoc Doc) options w :
  ∃ evs,
    trace (createNewSheet gristDoc options w).2 = trace w ++ evs
    ∧ (∀ tableId rowIds bulkData',
         Sent (BulkAddRecord tableId rowIds bulkData') ∈ evs
         ↔ NameResolver._generateUniqueTableName
             (tableExists gristDoc (doc w)) (baseTableName options)
             NameResolver.defaultMaxRetries = Ok tableId
           ∧ (∃ ret, (sendAction gristDoc
                        (AddTable tableId (SheetCreationUtils.columns options))
                        (doc w)).1 = Ok ret)
           ∧ bulkData options ≠ []
           ∧ rowIds = replicate (numRowsOf (bulkData options)) VNull
           ∧ bulkData' = bulkData options)
    ∧ length (List.filter isBulkAdd evs) ≤ 1
    ∧ (∀ tableId rowIds bulkData',
         Sent (BulkAddRecord tableId rowIds bulkData') ∈ evs →
         Sent (AddTable tableId (SheetCreationUtils.columns options)) ∈ evs).
Proof.
  destruct (createNewSheet_events gristDoc options w)
    as (r & w' & evs & -> & Htr & Hcase).
  exists evs. split; [done|].
  split_and!.
  - intros tableId rowIds bulkData'. rewrite elem_of_bulk_filter.
    destruct (NameResolver._generateUniqueTableName _ _ _) as [name | e | ].
    2:{ subst evs. simpl. split; [by intros ?%elem_of_nil | by intros [? _]]. }
    2:{ subst evs. simpl. split; [by intros ?%elem_of_nil | by intros [? _]]. }
    simpl in Hcase.
    destruct (sendAction gristDoc (AddTable name _) (doc w)) as [r1 d1] eqn:Hadd.
    destruct r1 as [ret1 | e1 | ].
    2:{ subst evs. simpl. split; [by intros ?%elem_of_nil|].
        intros ([= ->] & [ret Hret] & _). rewrite Hadd in Hret. done. }
    2:{ subst evs. simpl. split; [by intros ?%elem_of_nil|].
        intros ([= ->] & [ret Hret] & _). rewrite Hadd in Hret. done. }
    destruct (decide (bulkData options = [])) as [Hnil | Hne];
      destruct Hcase as [-> _].
    + split; [by intros ?%elem_of_nil | by intros (_ & _ & ? & _)].
    + rewrite list_elem_of_singleton. split.
      * intros [= -> -> ->]. split_and!; try done. exists ret1. by rewrite Hadd.
      * intros ([= ->] & _ & _ & -> & ->). done.
  - destruct (NameResolver._generateUniqueTableName _ _ _) as [name | e | ];
      [ | subst evs; simpl; lia ..].
    simpl in Hcase.
    destruct (sendAction gristDoc (AddTable name _) (doc w)) as [r1 d1].
    destruct r1 as [ret1 | e1 | ]; [ | subst evs; simpl; lia ..].
    destruct (decide (bulkData options = [])); destruct Hcase as [-> _];
      simpl; lia.
  - intros tableId rowIds bulkData' Hin. apply elem_of_bulk_filter in Hin.
    destruct (NameResolver._generateUniqueTableName _ _ _) as [name | e | ];
      [ | subst evs; by apply elem_of_nil in Hin ..].
    simpl in Hcase.
    destruct (sendAction gristDoc (AddTable name _) (doc w)) as [r1 d1].
    destruct r1 as [ret1 | e1 | ]; [ | subst evs; by apply elem_of_nil in Hin ..].
    destruct (decide (bulkData options = [])) as [Hnil | Hne];
      destruct Hcase as [Hf [evs' ->]]; rewrite Hf in Hin.
    + by apply elem_of_nil in Hin.
    + apply list_elem_of_singleton in Hin. injection Hin as -> -> ->.
      apply elem_of_cons. by left.
Qed.

(** C4, amended.  [createNewSheet] sends the bulk insert exactly when the
    table name was resolved, the create-table action succeeded and
    [bulkData] has at least one own property; it sends it at most once, for
    the resolved table, with [numRows] null row ids, [numRows] being the
    length of the first column's data, and with [bulkData] itself.  For a
    merged grid [bulkData] has the grid's columns as own properties, except
    a column with the id __proto__.  So [bulkData] has a column, and the
    bulk insert is sent with the grid's row count as [numRows], also when
    that is 0, unless the grid's only column has the id __proto__: then
    [bulkData] has no own property and no bulk insert is sent, whatever the
    row count.  A selection of table _ with the header proto__ gives such
    a grid. *)
Theorem createNewSheet_bulk_insert :
  ∀ (Doc : Type) (gristDoc : GristDoc Doc) (options : ICreateSheetOptions)
    (w : World Doc),
    ∃ evs,
      trace (createNewSheet gristDoc options w).2 = trace w ++ evs
      ∧ (∀ tableId rowIds bulkData',
           Sent (BulkAddRecord tableId rowIds bulkData') ∈ evs
           ↔ NameResolver._generateUniqueTableName
               (tableExists gristDoc (doc w)) (baseTableName options)
               NameResolver.defaultMaxRetries = Ok tableId
             ∧ (∃ ret, (sendAction gristDoc
                          (AddTable tableId (SheetCreationUtils.columns options))
                          (doc w)).1 = Ok ret)
             ∧ bulkData options ≠ []
             ∧ rowIds = replicate (numRowsOf (bulkData options)) VNull
             ∧ bulkData' = bulkData options)
      ∧ length (List.filter isBulkAdd evs) ≤ 1
      ∧ (∀ formattedData,
           Merge.convertGlobalSelectionData formattedData
           = Ok (SheetCreationUtils.columns options, bulkData options) →
           SheetCreationUtils.columns options ≠ []
           ∧ (bulkData options).*1
             = ownKeys (Column.id <$> SheetCreationUtils.columns options)
           ∧ (bulkData options = []
              ↔ Column.id <$> SheetCreationUtils.columns options = ["__proto__"])
           ∧ (bulkData options ≠ [] →
              numRowsOf (bulkData options) = Merge.maxRowsOf formattedData))
      ∧ Merge.convertGlobalSelectionData
          [Examples.selection "_" ["proto__"] 1
             [plain {[ "proto__" := VNum 1 ]}]]
        = Ok ([textColumn "__proto__"], []).
Proof.
  intros Doc gristDoc options w.
  destruct (createNewSheet_sent gristDoc options w)
    as (evs & Htr & Hiff & Hlen & _).
  exists evs. split_and!; [done | done | done | | by vm_compute].
  intros fd Hfd. by eapply merged_grid_rows.
Qed.

Lemma createNewSheet_bulk_insert_witness :
  numRowsOf [("Sheet1_Amount", [])] = Merge.maxRowsOf [Examples.sheet1Amount].
Proof.
  destruct (createNewSheet_bulk_insert ExampleHost.Doc ExampleHost.gristDoc
              {| baseTableName := "Merged";
                 columns := [textColumn "Sheet1_Amount"];
                 bulkData := [("Sheet1_Amount", [])];
                 navigateToSheet := Some true |}
              ExampleHost.emptyWorld) as (evs & _ & _ & _ & Hgrid & _).
  destruct (Hgrid [Examples.sheet1Amount]) as (_ & _ & _ & Hrows);
    [reflexivity|].
  apply Hrows. discriminate.
Defined.

(** What [createNewSheet] returns is the name it resolved itself. *)
Lemma createNewSheet_result {Doc} (gristDoc : GristDoc Doc) options w tableId :
  (createNewSheet gristDoc options w).1 = Ok tableId →
  NameResolver._generateUniqueTableName
    (tableExists gristDoc (doc w)) (baseTableName options)
    NameResolver.defaultMaxRetries = Ok tableId.
Proof.
  unfold createNewSheet, bindM, lift, send, ret, _navigateToSheet, openPage, emit.
  intros H. repeat case_match; simplify_eq/=; done.
Qed.

Local Ltac pin_events Htr Hinv evs l :=
  assert (evs = l) as ->
    by (apply Hinv; rewrite <- Htr; simpl; by rewrite <- ?app_assoc, ?app_nil_r).

Local Ltac no_page_opened :=
  let Hin := fresh "Hin" in
  intros Hin; repeat (apply elem_of_cons in Hin as [Hin | Hin]; [done|]);
  by apply elem_of_nil in Hin.

(** Which page one [createNewSheet] opens: the raw view section of the
    table found, after the actions went through, under the name resolved
    before them. *)
Lemma createNewSheet_opened {Doc} (gristDoc : GristDoc Doc) options w evs :
  trace (createNewSheet gristDoc options w).2 = trace w ++ evs →
  ∀ ref,
    OpenedDocPage ref ∈ evs
    ↔ default true (navigateToSheet options) = true
      ∧ ∃ tableId ret1 d1 d2 rec,
          NameResolver._generateUniqueTableName
            (tableExists gristDoc (doc w)) (baseTableName options)
            NameResolver.defaultMaxRetries = Ok tableId
          ∧ sendAction gristDoc
              (AddTable tableId (SheetCreationUtils.columns options)) (doc w)
            = (Ok ret1, d1)
          ∧ (bulkData options = [] ∧ d2 = d1
             ∨ bulkData options ≠ []
               ∧ ∃ ret2,
                   sendAction gristDoc
                     (BulkAddRecord tableId
                        (replicate (numRowsOf (bulkData options)) VNull)
                        (bulkData options)) d1
                   = (Ok ret2, d2))
          ∧ findTable gristDoc d2 tableId = Some rec
          ∧ rawViewSectionRef rec = ref
          ∧ ref ≠ 0.
Proof.
  intros Htr ref.
  assert (∀ l : list Event, trace w ++ evs = trace w ++ l → evs = l) as Hinv.
  { intros l. apply app_inv_head. }
  unfold createNewSheet in Htr. unfold bindM at 1, lift at 1 in Htr.
  destruct (NameResolver._generateUniqueTableName _ _ _) as [name | e | ] eqn:Hname.
  2,3: (pin_events Htr Hinv evs (@nil Event);
        split; [no_page_opened | by intros (_ & ? & ? & ? & ? & ? & ? & _)]).
  unfold bindM at 1, send at 1 in Htr.
  destruct (sendAction gristDoc (AddTable name _) (doc w)) as [r1 d1] eqn:Hadd.
  destruct r1 as [ret1 | e1 | ].
  2,3: (pin_events Htr Hinv evs
          [Sent (AddTable name (SheetCreationUtils.columns options))];
        split;
        [ no_page_opened
        | intros (_ & t & r & da & db & rc & [= <-] & Hs & _); congruence ]).
  unfold bindM at 1 in Htr.
  destruct (bulkData options) as [|[key firstColumnData] rest] eqn:Hbulk.
  - simpl in Htr. unfold ret at 1, bindM at 1 in Htr.
    destruct (default true (navigateToSheet options)) eqn:Hnav.
    2:{ pin_events Htr Hinv evs
          [Sent (AddTable name (SheetCreationUtils.columns options))].
        split; [no_page_opened | by intros [? _]]. }
    unfold _navigateToSheet in Htr. simpl doc in Htr.
    destruct (findTable gristDoc d1 name) as [rec|] eqn:Hfind.
    2:{ pin_events Htr Hinv evs
          [Sent (AddTable name (SheetCreationUtils.columns options));
           ConsoleError "New table not found"].
        split; [no_page_opened|].
        intros (_ & t & r & da & db & rc & [= <-] & Hs & Hd & Hf & _).
        rewrite Hadd in Hs. injection Hs as <- <-.
        destruct Hd as [[_ ->] | [? _]]; [congruence | done]. }
    destruct (rawViewSectionRef rec =? 0) eqn:Hzero.
    { pin_events Htr Hinv evs
        [Sent (AddTable name (SheetCreationUtils.columns options));
         ConsoleError "No view section found for new table"].
      split; [no_page_opened|].
      intros (_ & t & r & da & db & rc & [= <-] & Hs & Hd & Hf & Href & Hnz).
      rewrite Hadd in Hs. injection Hs as <- <-.
      destruct Hd as [[_ ->] | [? _]]; [|done].
      rewrite Hfind in Hf. injection Hf as <-. apply Nat.eqb_eq in Hzero. lia. }
    unfold openPage in Htr. simpl doc in Htr. simpl trace in Htr.
    destruct (openDocPage gristDoc (rawViewSectionRef rec) d1) as [r3 d3].
    assert (evs = [Sent (AddTable name (SheetCreationUtils.columns options));
                   OpenedDocPage (rawViewSectionRef rec)]) as ->.
    { apply Hinv. rewrite <- Htr. destruct r3; simpl; by rewrite <- app_assoc. }
    split.
    + intros Hin. apply elem_of_cons in Hin as [Hin | Hin]; [done|].
      apply list_elem_of_singleton in Hin. injection Hin as ->.
      split; [done|]. exists name, ret1, d1, d1, rec.
      split_and!; try done; [by left|]. apply Nat.eqb_neq in Hzero. lia.
    + intros (_ & t & r & da & db & rc & [= <-] & Hs & Hd & Hf & Href & Hnz).
      rewrite Hadd in Hs. injection Hs as <- <-.
      destruct Hd as [[_ ->] | [? _]]; [|done].
      rewrite Hfind in Hf. injection Hf as <-. subst ref.
      apply elem_of_cons. right. apply elem_of_cons. by left.
  - change (0 <? length ((key, firstColumnData) :: rest)) with true in Htr.
    cbv iota in Htr.
    unfold bindM at 1, send at 1 in Htr. simpl doc in Htr. simpl trace in Htr.
    change (match head ((key, firstColumnData) :: rest) with
            | Some (_, d) => length d
            | None => 0
            end) with (numRowsOf ((key, firstColumnData) :: rest)) in Htr.
    destruct (sendAction gristDoc (BulkAddRecord name _ _) d1) as [r2 d2] eqn:Hsend2.
    match type of Hsend2 with sendAction _ ?b _ = _ => set (bulk := b) in * end.
    destruct r2 as [ret2 | e2 | ].
    2,3: (pin_events Htr Hinv evs
            [Sent (AddTable name (SheetCreationUtils.columns options)); Sent bulk];
          split;
          [ no_page_opened
          | intros (_ & t & r & da & db & rc & [= <-] & Hs & Hd & _);
            rewrite Hadd in Hs; injection Hs as <- <-;
            destruct Hd as [[? _] | [_ [r2' Hs2]]]; [done | subst bulk; unfold numRowsOf in Hs2; simpl in Hs2; congruence] ]).
    unfold ret at 1, bindM at 1 in Htr.
    destruct (default true (navigateToSheet options)) eqn:Hnav.
    2:{ pin_events Htr Hinv evs
          [Sent (AddTable name (SheetCreationUtils.columns options)); Sent bulk].
        split; [no_page_opened | by intros [? _]]. }
    unfold _navigateToSheet in Htr. simpl doc in Htr.
    destruct (findTable gristDoc d2 name) as [rec|] eqn:Hfind.
    2:{ pin_events Htr Hinv evs
          [Sent (AddTable name (SheetCreationUtils.columns options)); Sent bulk;
           ConsoleError "New table not found"].
        split; [no_page_opened|].
        intros (_ & t & r & da & db & rc & [= <-] & Hs & Hd & Hf & _).
        rewrite Hadd in Hs. injection Hs as <- <-.
        destruct Hd as [[? _] | [_ [r2' Hs2]]]; [done|].
        subst bulk. unfold numRowsOf in Hs2. simpl in Hs2. rewrite Hsend2 in Hs2. injection Hs2 as <- <-. congruence. }
    destruct (rawViewSectionRef rec =? 0) eqn:Hzero.
    { pin_events Htr Hinv evs
        [Sent (AddTable name (SheetCreationUtils.columns options)); Sent bulk;
         ConsoleError "No view section found for new table"].
      split; [no_page_opened|].
      intros (_ & t & r & da & db & rc & [= <-] & Hs & Hd & Hf & Href & Hnz).
      rewrite Hadd in Hs. injection Hs as <- <-.
      destruct Hd as [[? _] | [_ [r2' Hs2]]]; [done|].
      subst bulk. unfold numRowsOf in Hs2. simpl in Hs2. rewrite Hsend2 in Hs2. injection Hs2 as <- <-.
      rewrite Hfind in Hf. injection Hf as <-. apply Nat.eqb_eq in Hzero. lia. }
    unfold openPage in Htr. simpl doc in Htr. simpl trace in Htr.
    destruct (openDocPage gristDoc (rawViewSectionRef rec) d2) as [r3 d3].
    assert (evs = [Sent (AddTable name (SheetCreationUtils.columns options));
                   Sent bulk; OpenedDocPage (rawViewSectionRef rec)]) as ->.
    { apply Hinv. rewrite <- Htr. destruct r3; simpl; by rewrite <- !app_assoc. }
    split.
    + intros Hin. repeat (apply elem_of_cons in Hin as [Hin | Hin]; [done|]).
      apply list_elem_of_singleton in Hin. injection Hin as ->.
      split; [done|]. exists name, ret1, d1, d2, rec.
      split_and!; try done; [right; split; [done | by exists ret2]|].
      apply Nat.eqb_neq in Hzero. lia.
    + intros (_ & t & r & da & db & rc & [= <-] & Hs & Hd & Hf & Href & Hnz).
      rewrite Hadd in Hs. injection Hs as <- <-.
      destruct Hd as [[? _] | [_ [r2' Hs2]]]; [done|].
      subst bulk. unfold numRowsOf in Hs2. simpl in Hs2. rewrite Hsend2 in Hs2. injection Hs2 as <- <-.
      rewrite Hfind in Hf. injection Hf as <-. subst ref.
      do 2 (apply elem_of_cons; right). apply elem_of_cons. by left.
Qed.

(** C5, as stated, fails: take a document that already has a table Orders
    which the client's table list does not show yet.  The name resolved
    locally is Orders; the create-table action renames on the collision and
    returns Orders2; the bulk insert is nevertheless addressed to Orders,
    the locally resolved name, and not to the returned id. *)
Lemma createNewSheet_returned_id_counterexample :
  let options :=
    {| baseTableName := "Orders";
       columns := [textColumn "Sales_Qty"];
       bulkData := [("Sales_Qty", [VNum 1])];
       navigateToSheet := Some true |} in
  let out := createNewSheet ExampleHost.gristDoc options ExampleHost.staleWorld in
  (sendAction ExampleHost.gristDoc
     (AddTable "Orders" [textColumn "Sales_Qty"]) ExampleHost.ordersDoc).1
  = Ok (Some "Orders2")
  ∧ Sent (BulkAddRecord "Orders" [VNull] [("Sales_Qty", [VNum 1])]) ∈ trace out.2
  ∧ (Sent (BulkAddRecord "Orders2" [VNull] [("Sales_Qty", [VNum 1])]) ∉ trace out.2)
  ∧ out.1 = Ok "Orders".
Proof.
  vm_compute. split_and!; [done | | | done].
  - apply elem_of_cons. right. apply elem_of_cons. by left.
  - intros Hin. repeat (apply elem_of_cons in Hin as [Hin | Hin]; [discriminate|]).
    by apply elem_of_nil in Hin.
Qed.

(** C5, amended.  The table id of the bulk insert is the name
    [_generateUniqueTableName] resolved locally, the same id that was sent
    with the create-table action; what the create-table action returned is
    not looked at: whenever it succeeds, with whatever value, and there is
    data, the bulk insert goes to the locally resolved name.  Navigation
    uses that name too: a page is opened exactly when navigation is on,
    both actions went through and the document then has a table under the
    locally resolved name with a raw view section, and the page opened is
    that section.  That name is also what [createNewSheet] returns. *)
Theorem createNewSheet_table_id :
  ∀ (Doc : Type) (gristDoc : GristDoc Doc) (options : ICreateSheetOptions)
    (w : World Doc),
    let name := NameResolver._generateUniqueTableName
                  (tableExists gristDoc (doc w)) (baseTableName options)
                  NameResolver.defaultMaxRetries in
    let out := createNewSheet gristDoc options w in
    ∃ evs,
      trace out.2 = trace w ++ evs
      ∧ (∀ tableId rowIds bulkData',
           Sent (BulkAddRecord tableId rowIds bulkData') ∈ evs →
           name = Ok tableId
           ∧ Sent (AddTable tableId (SheetCreationUtils.columns options)) ∈ evs)
      ∧ (∀ tableId ret d1,
           name = Ok tableId →
           sendAction gristDoc
             (AddTable tableId (SheetCreationUtils.columns options)) (doc w)
           = (Ok ret, d1) →
           bulkData options ≠ [] →
           Sent (BulkAddRecord tableId
                   (replicate (numRowsOf (bulkData options)) VNull)
                   (bulkData options)) ∈ evs)
      ∧ (∀ ref,
           OpenedDocPage ref ∈ evs
           ↔ default true (navigateToSheet options) = true
             ∧ ∃ tableId ret1 d1 d2 rec,
                 name = Ok tableId
                 ∧ sendAction gristDoc
                     (AddTable tableId (SheetCreationUtils.columns options))
                     (doc w)
                   = (Ok ret1, d1)
                 ∧ (bulkData options = [] ∧ d2 = d1
                    ∨ bulkData options ≠ []
                      ∧ ∃ ret2,
                          sendAction gristDoc
                            (BulkAddRecord tableId
                               (replicate (numRowsOf (bulkData options)) VNull)
                               (bulkData options)) d1
                          = (Ok ret2, d2))
                 ∧ findTable gristDoc d2 tableId = Some rec
                 ∧ rawViewSectionRef rec = ref
                 ∧ ref ≠ 0)
      ∧ (∀ tableId, out.1 = Ok tableId → name = Ok tableId).
Proof.
  intros Doc gristDoc options w name out.
  destruct (createNewSheet_sent gristDoc options w)
    as (evs & Htr & Hiff & _ & Hadd).
  exists evs. split; [done|].
  split_and!.
  - intros tableId rowIds bulkData' Hin. split; [|by eapply Hadd].
    by apply Hiff in Hin as (Hname & _).
  - intros tableId ret d1 Hname Hsend Hne. apply Hiff.
    split_and!; try done. exists ret. by rewrite Hsend.
  - by apply createNewSheet_opened.
  - intros tableId. apply createNewSheet_result.
Qed.

Lemma createNewSheet_table_id_witness :
  ∃ evs : list Host.Event,
    Sent (BulkAddRecord "Orders" [VNull] [("Sales_Qty", [VNum 1])]) ∈ evs.
Proof.
  destruct (createNewSheet_table_id ExampleHost.Doc ExampleHost.gristDoc
              {| baseTableName := "Orders";
                 columns := [textColumn "Sales_Qty"];
                 bulkData := [("Sales_Qty", [VNum 1])];
                 navigateToSheet := Some true |}
              ExampleHost.staleWorld) as (evs & _ & _ & Hsent & _ & _).
  exists evs.
  apply (Hsent "Orders" (Some "Orders2")
           (sendAction ExampleHost.gristDoc
              (AddTable "Orders" [textColumn "Sales_Qty"])
              ExampleHost.ordersDoc).2);
    [by vm_compute | by vm_compute | discriminate].
Defined.

End CreateNewSheetClaims.

(* ===================================================================== *)
(** * The selection store *)
(* ===================================================================== *)

Section FormatFacts.
Import GlobalCellSelection.
Local Open Scope nat_scope.

Lemma formatField_run entry rowId row field :
  formatField entry rowId row field
  = Ok (if extractable entry field then setCell entry rowId row field else row).
Proof.
  unfold formatField, extractable, setCell, peek, storedCell.
  destruct (Field.column_colId_peek field) as [colId|]; simpl; [|done].
  destruct (Field.label_peek field) as [header|]; simpl; [|done].
  destruct (Entry.cellData entry) as [cellData|]; simpl; done.
Qed.

Lemma formatFields_run entry rowId fields row :
  formatFields entry rowId row fields
  = Ok (foldl (setCell entry rowId) row (List.filter (extractable entry) fields)).
Proof.
  revert row. induction fields as [|field rest IH]; intros row; simpl; [done|].
  rewrite formatField_run. simpl.
  destruct (extractable entry field); simpl; by rewrite IH.
Qed.

Lemma formatRows_run entry fields rowIds :
  formatRows entry fields rowIds = Ok (formattedRow entry fields <$> rowIds).
Proof.
  induction rowIds as [|rowId rest IH]; simpl; [done|].
  by rewrite formatFields_run, IH.
Qed.

Lemma formatEntry_run e : formatEntry e = Ok (formatted <$> usable e).
Proof.
  unfold formatEntry, usable. destruct e as [entry|]; [|done].
  destruct (Entry.rowIds entry) as [rowIds|]; [|done].
  destruct (Entry.fields entry) as [fields|]; [|done].
  destruct (truthy_str (Entry.tableId entry) && truthy_str (Entry.sheetName entry));
    [|done].
  by rewrite formatRows_run.
Qed.

Lemma mapResult_formatEntry l :
  mapResult formatEntry l = Ok ((λ e, formatted <$> usable e) <$> l).
Proof.
  induction l as [|e rest IH]; simpl; [done|].
  by rewrite formatEntry_run, IH.
Qed.

(** The formatting step, as a function: it keeps the usable elements, in
    order, and formats each of them. *)
Lemma getFormattedData_run selections :
  getFormattedData selections = Ok (formatted <$> omap usable selections).
Proof.
  unfold getFormattedData. rewrite mapResult_formatEntry. simpl. f_equal.
  induction selections as [|e rest IH]; [done|].
  destruct e as [entry|]; [|exact IH].
  change (omap (λ x, x)
            (List.filter notNull
               ((formatted <$> usable (Some entry))
                :: ((λ e, formatted <$> usable e) <$> List.filter notNull rest)))
          = formatted <$> omap usable (Some entry :: rest)).
  change (omap usable (Some entry :: rest))
    with (match usable (Some entry) with
          | Some u => u :: omap usable rest
          | None => omap usable rest
          end).
  destruct (usable (Some entry)) as [u|]; [|exact IH].
  change (formatted u
          :: omap (λ x, x)
               (List.filter notNull
                  ((λ e, formatted <$> usable e) <$> List.filter notNull rest))
          = formatted u :: (formatted <$> omap usable rest)).
  by rewrite IH.
Qed.

End FormatFacts.

Section StoreClaims.
Import Host GlobalCellSelection.
Local Open Scope nat_scope.

Lemma usable_None (e : option Entry.t) :
  usable e = None
  ↔ e = None
    ∨ ∃ entry, e = Some entry
        ∧ (truthy_str (Entry.tableId entry) = false
           ∨ truthy_str (Entry.sheetName entry) = false
           ∨ Entry.rowIds entry = None
           ∨ Entry.fields entry = None).
Proof.
  unfold usable. destruct e as [entry|]; [|split; [by left | done]].
  destruct (Entry.rowIds entry) as [rowIds|] eqn:Hrows;
    [|split; [intros _; right; exists entry; tauto | done]].
  destruct (Entry.fields entry) as [fields|] eqn:Hfields;
    [|split; [intros _; right; exists entry; tauto | done]].
  destruct (truthy_str (Entry.tableId entry)) eqn:Htable;
    [|split; [intros _; right; exists entry; tauto | done]].
  destruct (truthy_str (Entry.sheetName entry)) eqn:Hsheet;
    [|split; [intros _; right; exists entry; tauto | done]].
  simpl. split; [done|].
  intros [? | (entry' & Heq & Hbad)]; [done|]. injection Heq as <-.
  rewrite Hrows, Hfields, Htable, Hsheet in Hbad.
  by destruct Hbad as [? | [? | [? | ?]]].
Qed.

(** C8.  The formatting step never throws: for every collection it returns
    the formatted versions of the usable elements, in order.  An element
    that is null or lacks a table id, a sheet name, row ids or fields is
    not usable, and leaving it out of the collection does not change the
    result.  Within a row, a field whose data cannot be read (an accessor
    throws, or the entry has no cell data) is skipped: the row is the one
    obtained without that field, and the fields after it are still
    processed. *)
Theorem getFormattedData_never_throws :
  ∀ selections : Selections,
    getFormattedData selections = Ok (formatted <$> omap usable selections)
    ∧ (∀ before e after,
         selections = before ++ e :: after →
         usable e = None →
         getFormattedData selections = getFormattedData (before ++ after))
    ∧ (∀ e, usable e = None
            ↔ e = None
              ∨ ∃ entry, e = Some entry
                  ∧ (truthy_str (Entry.tableId entry) = false
                     ∨ truthy_str (Entry.sheetName entry) = false
                     ∨ Entry.rowIds entry = None
                     ∨ Entry.fields entry = None))
    ∧ (∀ entry rowId row fields,
         ∃ row', formatFields entry rowId row fields = Ok row')
    ∧ (∀ entry rowId row before field after,
         extractable entry field = false →
         formatFields entry rowId row (before ++ field :: after)
         = formatFields entry rowId row (before ++ after)).
Proof.
  intros selections. split_and!.
  - apply getFormattedData_run.
  - intros before e after -> Hbad. rewrite !getFormattedData_run.
    rewrite !omap_app. do 2 f_equal.
    change (omap usable (e :: after))
      with (match usable e with
            | Some u => u :: omap usable after
            | None => omap usable after
            end).
    by rewrite Hbad.
  - apply usable_None.
  - intros entry rowId row fields. rewrite formatFields_run. by eexists.
  - intros entry rowId row before field after Hbad. rewrite !formatFields_run.
    rewrite !List.filter_app. simpl. by rewrite Hbad.
Qed.

Lemma getFormattedData_never_throws_witness :
  getFormattedData [None; Some StoreExamples.noTableId] = getFormattedData [None].
Proof.
  apply (proj1 (proj2 (getFormattedData_never_throws
                         [None; Some StoreExamples.noTableId]))
           [None] (Some StoreExamples.noTableId) []);
    [done | by vm_compute].
Defined.

(** C9.  On a collection of entries, [removeSelection id] keeps exactly the
    entries whose id differs from [id], unchanged and in their original
    order; when no entry has that id the collection is left as it was. *)
Theorem removeSelection_keeps_others :
  ∀ (entries : list Entry.t) (id : string),
    let kept := filter (λ e, Entry.id e ≠ id) entries in
    removeSelection id (Some <$> entries) = Ok (Some <$> kept)
    ∧ (id ∉ Entry.id <$> entries → kept = entries)
    ∧ (∀ e, e ∈ kept ↔ e ∈ entries ∧ Entry.id e ≠ id)
    ∧ kept `sublist_of` entries.
Proof.
  intros entries id kept. split_and!.
  - subst kept. induction entries as [|e rest IH]; [done|].
    rewrite fmap_cons. simpl. rewrite IH. simpl. rewrite filter_cons.
    by destruct (decide (Entry.id e ≠ id)).
  - intros Hout. subst kept. induction entries as [|e rest IH]; [done|].
    rewrite fmap_cons in Hout. apply not_elem_of_cons in Hout as [Hne Hout].
    rewrite filter_cons, decide_True by done. by rewrite IH.
  - intros e. subst kept. rewrite list_elem_of_filter. tauto.
  - apply sublist_filter.
Qed.

Lemma removeSelection_keeps_others_witness :
  filter (λ e, Entry.id e ≠ "gone") [StoreExamples.noTableId]
  = [StoreExamples.noTableId].
Proof.
  apply (proj1 (proj2 (removeSelection_keeps_others
                         [StoreExamples.noTableId] "gone"))).
  vm_compute. intros Hin. apply elem_of_cons in Hin as [Hin | Hin];
    [discriminate | by apply elem_of_nil in Hin].
Defined.

(** C6, as stated, fails: after [clearSelections] the store's
    [createNewSheet] does not fail; it returns normally. *)
Lemma createNewSheet_after_clear_counterexample :
  ∃ selections,
    StoreExamples.oneSelection = Ok selections
    ∧ hasSelections selections = true
    ∧ (createNewSheet ExampleHost.gristDoc StoreExamples.acceptsSuggestion
         (clearSelections selections) ExampleHost.emptyWorld).1 = Ok []
    ∧ (createNewSheet ExampleHost.gristDoc StoreExamples.acceptsSuggestion
         (clearSelections selections) ExampleHost.emptyWorld).1
      ≠ Throw NoFormattedData.
Proof.
  eexists. split; [by vm_compute|]. split; [done|]. split; [by vm_compute|].
  by vm_compute.
Qed.

(** C6, amended.  After [clearSelections] the collection is empty and the
    formatting step returns an empty result.  A following [createNewSheet]
    of the store then returns normally: it logs that there are no
    selections, shows no dialog, sends nothing to the document and leaves
    the collection empty.  The merge itself throws its no-data error on the
    empty formatted result. *)
Theorem createNewSheet_after_clear :
  ∀ selections : Selections,
    hasSelections (clearSelections selections) = false
    ∧ getFormattedData (clearSelections selections) = Ok []
    ∧ (∀ (Doc : Type) (gristDoc : GristDoc Doc) (user : string → option string)
         (w : World Doc),
         createNewSheet gristDoc user (clearSelections selections) w
         = (Ok [],
            MkWorld (doc w)
              (trace w ++
               [ConsoleLog "No global selections available to create sheet"])))
    ∧ Merge.convertGlobalSelectionData [] = Throw NoFormattedData.
Proof. intros selections. by split_and!. Qed.

End StoreClaims.

(* ===================================================================== *)
(** * Fields that share a header *)
(* ===================================================================== *)

Section SharedHeaders.
Import NameResolver Merge GlobalCellSelection.
Local Open Scope nat_scope.



Lemma filter_extractable entry cellData fields labels :
  Entry.cellData entry = Some cellData →
  Forall2 readable fields labels →
  List.filter (extractable entry) fields = fields.
Proof.
  intros Hcells Hall. induction Hall as [|field label fields labels [Hl Hc] _ IH];
    simpl; [done|].
  unfold extractable at 1. rewrite Hl, Hcells, IH.
  rewrite !bool_decide_eq_true_2 by done. done.
Qed.

(** Assigning under a key other than [__proto__] writes an own property. *)
Lemma set_prop_ne (o : Obj) (key : string) (v : JsVal) :
  key ≠ "__proto__" →
  set_prop o key v = {| own := <[key := v]> (own o); proto := proto o |}.
Proof.
  intros Hne. unfold set_prop.
  destruct (own o !! key), (proto o); try done.
  by rewrite bool_decide_eq_false_2.
Qed.

Lemma Forall_filter_extractable entry (P : Field.t → Prop) fields :
  Forall P fields →
  Forall (λ f, extractable entry f = true ∧ P f)
    (List.filter (extractable entry) fields).
Proof.
  intros Hall. apply Forall_forall. intros f Hf.
  apply list_elem_of_In, filter_In in Hf as [Hf He]. split; [done|].
  apply list_elem_of_In in Hf. by eapply Forall_forall in Hall.
Qed.

(** After the fields [fs], all of which can be read and none of which is
    labelled [__proto__], were written, the row inherits what it inherited
    before, and it holds under [h] the cell of the last field labelled
    [h]. *)
Lemma foldl_setCell_own entry cellData rowId h fs :
  Entry.cellData entry = Some cellData →
  Forall (λ f, extractable entry f = true
               ∧ Field.label_peek f ≠ Some "__proto__") fs →
  ∀ row,
    proto (foldl (setCell entry rowId) row fs) = proto row
    ∧ own (foldl (setCell entry rowId) row fs) !! h
      = match lastWithLabel h fs with
        | Some last =>
            Some (js_or (storedCell cellData rowId
                           (default "" (Field.column_colId_peek last))) VNull)
        | None => own row !! h
        end.
Proof.
  intros Hcells Hall.
  induction Hall as [|field fs [Hext Hlabel] _ IH]; intros row; simpl; [done|].
  destruct (IH (setCell entry rowId row field)) as [IHp IHo].
  rewrite IHp, IHo. clear IH IHp IHo.
  unfold extractable in Hext.
  apply andb_true_iff in Hext as [[Hc Hl]%andb_true_iff _].
  apply bool_decide_eq_true in Hc as [colId Hc].
  apply bool_decide_eq_true in Hl as [label Hl].
  unfold setCell. rewrite Hl, Hc, Hcells.
  rewrite set_prop_ne by congruence. simpl. split; [done|].
  destruct (lastWithLabel h fs) as [later|]; [done|].
  rewrite ?Hl. destruct (decide (Some label = Some h)) as [Heq | Hne].
  - injection Heq as ->. simpl. by rewrite Hc, lookup_insert_eq.
  - rewrite lookup_insert_ne; [done|]. by intros ->.
Qed.








End SharedHeaders.

(* ===================================================================== *)
(** * Further properties: prefixes and column ids *)
(* ===================================================================== *)

Section PrefixFacts.
Import NameResolver Merge.
Local Open Scope nat_scope.

Lemma is_digit_word c : is_digit c = true → is_word_char c = true.
Proof.
  unfold is_digit, is_word_char. intros H.
  apply andb_true_iff in H as [H1 H2]. by rewrite H1, H2.
Qed.

Lemma string_forall_impl (p q : ascii → bool) s :
  (∀ c, p c = true → q c = true) →
  string_forall p s = true → string_forall q s = true.
Proof.
  intros Hpq. induction s as [|c s IH]; simpl; [done|].
  intros [Hc Hs]%andb_true_iff. by rewrite (Hpq c Hc), IH.
Qed.

Lemma string_forall_app p a b :
  string_forall p (a +:+ b) = string_forall p a && string_forall p b.
Proof.
  induction a as [|c a IH]; [done|].
  change (String c a +:+ b) with (String c (a +:+ b)). simpl.
  by rewrite IH, andb_assoc.
Qed.

Lemma pretty_N_go_digits x s :
  string_forall is_digit s = true →
  string_forall is_digit (pretty_N_go x s) = true.
Proof.
  revert s. induction (N.lt_wf_0 x) as [x _ IH]; intros s Hs.
  destruct (decide (x = 0)%N) as [-> | Hx]; [by rewrite pretty_N_go_0|].
  rewrite pretty_N_go_step by lia. apply IH.
  - apply N.div_lt; lia.
  - simpl. rewrite Hs, andb_true_r.
    unfold pretty_N_char. by repeat case_match.
Qed.

(** A printed number consists of digits. *)
Lemma pretty_nat_digits (n : nat) : string_forall is_digit (pretty n) = true.
Proof.
  unfold pretty, pretty_nat, pretty, pretty_N.
  case_decide; [done|]. by apply pretty_N_go_digits.
Qed.

Lemma sanitize_word s : string_forall is_word_char s = true → sanitize s = s.
Proof.
  induction s as [|c s IH]; simpl; [done|].
  intros [Hc Hs]%andb_true_iff. by rewrite Hc, IH.
Qed.

Lemma sanitize_is_word s : string_forall is_word_char (sanitize s) = true.
Proof.
  induction s as [|c s IH]; simpl; [done|].
  rewrite IH, andb_true_r. by destruct (is_word_char c) eqn:Hc.
Qed.

Lemma sanitize_length s : String.length (sanitize s) = String.length s.
Proof. induction s as [|c s IH]; simpl; [done | by rewrite IH]. Qed.

(** X1.  Sanitizing a table name keeps its length, leaves only letters,
    digits and underscores, changes nothing in a name that already consists
    of such characters, and so is idempotent. *)
Theorem sanitize_spec :
  ∀ s : string,
    String.length (sanitize s) = String.length s
    ∧ string_forall is_word_char (sanitize s) = true
    ∧ (string_forall is_word_char s = true → sanitize s = s)
    ∧ sanitize (sanitize s) = sanitize s.
Proof.
  intros s. split_and!.
  - apply sanitize_length.
  - apply sanitize_is_word.
  - apply sanitize_word.
  - apply sanitize_word, sanitize_is_word.
Qed.

Lemma sanitize_spec_witness : sanitize "Sales_2024" = "Sales_2024".
Proof.
  apply (proj1 (proj2 (proj2 (sanitize_spec "Sales_2024")))). by vm_compute.
Defined.

(** X2.  A selection without a table name (absent or empty) at position
    [i] of the input gets the prefix S, the number [i + 1] and an
    underscore, whatever else it contains; selections at different
    positions get different such prefixes. *)
Theorem prefixOf_fallback :
  ∀ (i j : nat) (entry entry' : Formatted.t),
    truthy_str (Formatted.table entry) = false →
    truthy_str (Formatted.table entry') = false →
    prefixOf i entry = "S" +:+ pretty (i + 1) +:+ "_"
    ∧ (prefixOf i entry = prefixOf j entry' → i = j).
Proof.
  intros i j entry entry' He He'.
  assert (∀ k e, truthy_str (Formatted.table e) = false →
            prefixOf k e = "S" +:+ pretty (k + 1) +:+ "_") as Hfall.
  { intros k e Hk. unfold prefixOf. rewrite Hk.
    rewrite sanitize_word; [by rewrite string_app_assoc|].
    change ("S" +:+ pretty (k + 1)) with (String "S" (pretty (k + 1))). simpl.
    eapply string_forall_impl; [apply is_digit_word | apply pretty_nat_digits]. }
  split; [by apply Hfall|].
  rewrite (Hfall i entry He), (Hfall j entry' He'). intros Heq.
  apply (inj (String.app "S")) in Heq.
  assert (pretty (i + 1) = pretty (j + 1)) as Hp.
  { revert Heq. generalize (pretty (i + 1)) (pretty (j + 1)).
    induction s as [|c s IH]; intros [|c' s'] Heq; [done | | | ].
    - change ("_" = String c' (s' +:+ "_")) in Heq. injection Heq as _ Heq.
      by destruct s'.
    - change (String c (s +:+ "_") = "_") in Heq. injection Heq as _ Heq.
      by destruct s.
    - change (String c (s +:+ "_") = String c' (s' +:+ "_")) in Heq.
      injection Heq as -> Heq. f_equal. by apply IH. }
  apply (inj pretty) in Hp. lia.
Qed.

Lemma prefixOf_fallback_witness :
  prefixOf 2 (Examples.selection "" ["Qty"] 0 []) = "S3_".
Proof.
  apply (proj1 (prefixOf_fallback 2 2 (Examples.selection "" ["Qty"] 0 [])
                  (Examples.selection "" ["Qty"] 0 []) eq_refl eq_refl)).
Defined.

End PrefixFacts.

Section ColumnIdFacts.
Import NameResolver Merge GlobalCellSelection.
Local Open Scope nat_scope.

Lemma Resolved_data_length maxRows used sl cols bulk :
  Resolved maxRows used sl cols bulk →
  Forall (λ kv, length kv.2 = maxRows) bulk.
Proof. induction 1; constructor; [apply length_columnData | done]. Qed.

Lemma Resolved_labels maxRows used sl cols bulk :
  Resolved maxRows used sl cols bulk →
  Column.label <$> cols = Column.id <$> cols.
Proof. induction 1; simpl; [done | by f_equal]. Qed.

(** Without a collision no suffix is added. *)
Lemma Resolved_no_collision maxRows used sl cols bulk :
  Resolved maxRows used sl cols bulk →
  NoDup ((λ x, x.1.2 +:+ x.2) <$> sl) →
  (∀ c, c ∈ (λ x, x.1.2 +:+ x.2) <$> sl → c ∉ used) →
  Column.id <$> cols = (λ x, x.1.2 +:+ x.2) <$> sl.
Proof.
  induction 1 as [|used entry prefix header k sl cols bulk [Hfree Hbusy] _ IH];
    intros Hnd Hout; [done|].
  rewrite !fmap_cons in *. simpl in *.
  apply NoDup_cons in Hnd as [Hnew Hnd].
  assert (k = 0) as ->.
  { destruct k as [|k]; [done|]. exfalso. apply (Hbusy 0); [lia|].
    simpl. apply Hout, elem_of_cons. by left. }
  simpl. f_equal. apply IH; [done|].
  intros c Hc. rewrite elem_of_union, elem_of_singleton. simpl.
  intros [-> | Hused]; [done|].
  apply (Hout c); [|done]. apply elem_of_cons. by right.
Qed.

(** X3.  The merge adds a suffix only on a real collision: the column ids
    of a merged grid are exactly the candidate ids (prefix and header) if
    and only if the candidate ids are pairwise different, and then the
    labels are the candidate ids too.  In particular the columns of a
    single selection with pairwise different headers are named prefix and
    header, unchanged. *)
Theorem convertGlobalSelectionData_plain_ids :
  ∀ (formattedData : list Formatted.t) (cols : list Column.t) (bulk : BulkData),
    convertGlobalSelectionData formattedData = Ok (cols, bulk) →
    (Column.id <$> cols = candidatesOf formattedData
     ↔ NoDup (candidatesOf formattedData))
    ∧ (NoDup (candidatesOf formattedData) →
       Column.label <$> cols = candidatesOf formattedData)
    ∧ (∀ entry hs,
         formattedData = [entry] →
         Formatted.headers entry = Some hs →
         NoDup hs →
         Column.id <$> cols = (λ h, prefixOf 0 entry +:+ h) <$> hs).
Proof.
  intros formattedData cols bulk Hok.
  destruct (convertGlobalSelectionData_cases formattedData)
    as [[_ H] | [(_ & _ & H) | (Hne & _ & cols' & bulk' & H & Hr)]];
    rewrite H in Hok; [done | done |].
  injection Hok as <- <-.
  assert (NoDup (candidatesOf formattedData) →
          Column.id <$> cols' = candidatesOf formattedData) as Hplain.
  { intros Hnd. eapply Resolved_no_collision; [done | done |].
    intros c _. apply not_elem_of_empty. }
  split_and!.
  - split; [|done]. intros <-. by eapply Resolved_fresh.
  - intros Hnd. rewrite (Resolved_labels _ _ _ _ _ Hr). by apply Hplain.
  - intros entry hs -> Hhs Hnd.
    assert (candidatesOf [entry] = (λ h, prefixOf 0 entry +:+ h) <$> hs) as Hc.
    { unfold candidatesOf, slots. simpl. rewrite Hhs, app_nil_r.
      by rewrite <- list_fmap_compose. }
    rewrite <- Hc. apply Hplain. rewrite Hc.
    apply NoDup_fmap_2; [|done]. intros a b Hab.
    by apply (inj (String.app _)) in Hab.
Qed.

Lemma convertGlobalSelectionData_plain_ids_witness :
  Column.id <$> [textColumn "Sales_Qty"] = ["Sales_Qty"].
Proof.
  apply (proj2 (proj2 (convertGlobalSelectionData_plain_ids
                         [Examples.salesA] [textColumn "Sales_Qty"]
                         [("Sales_Qty", [VNum 1; VNum 2; VNum 3])] eq_refl))
           Examples.salesA ["Qty"] eq_refl eq_refl).
  apply NoDup_singleton.
Defined.

(** Among pairwise different ids at most one is left out of the own keys. *)
Lemma ownKeys_NoDup (ids : list string) :
  NoDup ids →
  (("__proto__" ∉ ids) ∧ ownKeys ids = ids)
  ∨ ("__proto__" ∈ ids ∧ S (length (ownKeys ids)) = length ids).
Proof.
  unfold ownKeys. induction 1 as [|x l Hfresh Hnd IH]; [left; split; [|done]|].
  { apply not_elem_of_nil. }
  rewrite filter_cons. destruct (decide (x ≠ "__proto__")) as [Hx | Hx].
  - destruct IH as [[Hout ->] | [Hin Hlen]].
    + left. split; [|done]. apply not_elem_of_cons. split; [congruence | done].
    + right. split; [apply elem_of_cons; by right|]. simpl. by rewrite Hlen.
  - assert (x = "__proto__") as -> by (by destruct (decide (x = "__proto__"));
      [|destruct Hx]).
    right. split; [apply elem_of_cons; by left|]. simpl. f_equal.
    destruct IH as [[_ ->] | [Hin _]]; [done | by destruct Hfresh].
Qed.

(** X4.  Formatting a collection and merging the result gives one column
    per header of every usable entry that has headers (an entry without
    headers contributes no column, yet its row ids count).  [bulkData] has
    one data sequence per column, except for the column whose id is
    __proto__ if there is one, and every data sequence has as many values
    as the longest usable entry has row ids. *)
Theorem formatted_merge_dimensions :
  ∀ (selections : Selections) (formattedData : list Formatted.t)
    (cols : list Column.t) (bulk : BulkData),
    getFormattedData selections = Ok formattedData →
    convertGlobalSelectionData formattedData = Ok (cols, bulk) →
    length cols
    = sum_list ((λ u, length (default [] (Entry.headers u.1.1)))
                <$> omap usable selections)
    ∧ bulk.*1 = ownKeys (Column.id <$> cols)
    ∧ (("__proto__" ∉ Column.id <$> cols) ∧ length bulk = length cols
       ∨ "__proto__" ∈ Column.id <$> cols ∧ S (length bulk) = length cols)
    ∧ Forall (λ kv, length kv.2
                    = max_list ((λ u, length u.1.2) <$> omap usable selections))
        bulk.
Proof.
  intros selections formattedData cols bulk Hfmt Hok.
  rewrite getFormattedData_run in Hfmt. injection Hfmt as <-.
  destruct (convertGlobalSelectionData_cases (formatted <$> omap usable selections))
    as [[_ H] | [(_ & _ & H) | (Hne & _ & cols' & grid & H & Hr)]];
    rewrite H in Hok; [done | done |].
  injection Hok as <- <-.
  destruct (Resolved_length _ _ _ _ _ Hr) as [Hlc Hlb].
  pose proof (Resolved_fresh _ _ _ _ _ Hr) as [Hnd _].
  pose proof (Resolved_keys _ _ _ _ _ Hr) as Hkeys.
  assert ((ownColumns grid).*1 = ownKeys (Column.id <$> cols')) as Hown.
  { by rewrite ownColumns_keys, Hkeys. }
  assert (maxRowsOf (formatted <$> omap usable selections)
          = max_list ((λ u, length u.1.2) <$> omap usable selections)) as Hmax.
  { unfold maxRowsOf. rewrite <- list_fmap_compose. f_equal.
    apply list_fmap_ext. by intros _ [[e r] f] _. }
  split_and!.
  - rewrite Hlc. unfold slots. rewrite length_slotsFrom.
    rewrite <- list_fmap_compose. f_equal.
    apply list_fmap_ext. by intros _ [[e r] f] _.
  - done.
  - rewrite <- (length_fmap fst (ownColumns grid)), Hown.
    rewrite <- (length_fmap Column.id cols').
    destruct (ownKeys_NoDup _ Hnd) as [[Hout ->] | [Hin Hlen]]; [by left | by right].
  - rewrite <- Hmax. apply Forall_forall. intros kv Hkv.
    apply (proj1 (Forall_forall _ _) (Resolved_data_length _ _ _ _ _ Hr)).
    unfold ownColumns in Hkv. by apply list_elem_of_filter in Hkv as [_ ?].
Qed.

Lemma formatted_merge_dimensions_witness :
  ∃ cols : list Column.t, length cols = 2.
Proof.
  exists [textColumn "Sheet1_Amount"; textColumn "Sheet1_Amount_1"].
  apply (formatted_merge_dimensions
           [Some {| Entry.id := "7-0-abc"; Entry.sheetName := Some "Sheet1";
                    Entry.sectionId := 7; Entry.tableId := Some "Sheet1";
                    Entry.rowIds := Some [];
                    Entry.fields := Some [];
                    Entry.timestamp := 0; Entry.cellData := None;
                    Entry.headers := Some ["Amount"; "Amount"] |}]
           (formatted <$> [(
              {| Entry.id := "7-0-abc"; Entry.sheetName := Some "Sheet1";
                 Entry.sectionId := 7; Entry.tableId := Some "Sheet1";
                 Entry.rowIds := Some [];
                 Entry.fields := Some [];
                 Entry.timestamp := 0; Entry.cellData := None;
                 Entry.headers := Some ["Amount"; "Amount"] |}, [], [])])
           _ [("Sheet1_Amount", []); ("Sheet1_Amount_1", [])]);
    by vm_compute.
Defined.

End ColumnIdFacts.

(* ===================================================================== *)
(** * Further properties: creating the sheet *)
(* ===================================================================== *)

Section CreateNewSheetRuns.
Import Host SheetCreationUtils.
Local Open Scope nat_scope.

Context {Doc : Type} (gristDoc : GristDoc Doc).

Lemma generateUniqueTableName_Ok tableExists base maxRetries name :
  NameResolver._generateUniqueTableName tableExists base maxRetries = Ok name →
  tableExists name = false
  ∧ ∃ k, k < maxRetries ∧ name = NameResolver.candidate base k.
Proof.
  intros Hok. unfold NameResolver._generateUniqueTableName in Hok.
  destruct (first_free_below tableExists base maxRetries)
    as [(k & Hk & [Hfree Hbusy]) | Hall].
  - pose proof (generate_loop_found tableExists base maxRetries maxRetries 0 k)
      as Hfound.
    change (NameResolver.candidate base 0) with base in Hfound.
    rewrite Hfound in Hok; [ | lia | | done].
    + injection Hok as <-. split; [done | by exists k].
    + intros i Hi. specialize (Hbusy i).
      destruct (tableExists (NameResolver.candidate base i));
        [done | exfalso; apply Hbusy; [lia | done]].
  - pose proof (generate_loop_exhausted tableExists base maxRetries maxRetries 0)
      as Hnone.
    change (NameResolver.candidate base 0) with base in Hnone.
    rewrite Hnone in Hok; [done|]. intros i Hi. apply Hall. lia.
Qed.

Lemma createNewSheet_name_fails options w e :
  NameResolver._generateUniqueTableName
    (tableExists gristDoc (doc w)) (baseTableName options)
    NameResolver.defaultMaxRetries = Throw e →
  createNewSheet gristDoc options w = (Throw e, w).
Proof.
  intros Hname. unfold createNewSheet, bindM at 1, lift. by rewrite Hname.
Qed.

Lemma createNewSheet_add_fails options w name e d1 :
  NameResolver._generateUniqueTableName
    (tableExists gristDoc (doc w)) (baseTableName options)
    NameResolver.defaultMaxRetries = Ok name →
  sendAction gristDoc (addAction options name) (doc w) = (Throw e, d1) →
  createNewSheet gristDoc options w
  = (Throw e, MkWorld d1 (trace w ++ [Sent (addAction options name)])).
Proof.
  intros Hname Hadd. unfold createNewSheet, bindM at 1, lift. rewrite Hname.
  unfold bindM at 1, send at 1. unfold addAction in Hadd. by rewrite Hadd.
Qed.

Lemma createNewSheet_bulk_fails options w name ret d1 e d2 :
  NameResolver._generateUniqueTableName
    (tableExists gristDoc (doc w)) (baseTableName options)
    NameResolver.defaultMaxRetries = Ok name →
  sendAction gristDoc (addAction options name) (doc w) = (Ok ret, d1) →
  bulkData options ≠ [] →
  sendAction gristDoc (bulkAction options name) d1 = (Throw e, d2) →
  createNewSheet gristDoc options w
  = (Throw e,
     MkWorld d2 (trace w ++ [Sent (addAction options name);
                             Sent (bulkAction options name)])).
Proof.
  intros Hname Hadd Hne Hbulk. unfold createNewSheet, bindM at 1, lift.
  rewrite Hname. unfold bindM at 1, send at 1.
  unfold addAction in Hadd. rewrite Hadd.
  unfold bindM at 1.
  destruct (bulkData options) as [|[key data] rest] eqn:Hb; [done|].
  change (0 <? length ((key, data) :: rest)) with true. cbv iota.
  unfold bindM at 1, send at 1. simpl doc. simpl trace.
  unfold bulkAction, numRowsOf in *. rewrite Hb in *. simpl head in *.
  rewrite Hbulk. by rewrite <- app_assoc.
Qed.

(** After both actions went through (or no data was there to insert), the
    rest of the run is the navigation. *)
Lemma createNewSheet_actions_done options w name r1 d1 d2 evs :
  NameResolver._generateUniqueTableName
    (tableExists gristDoc (doc w)) (baseTableName options)
    NameResolver.defaultMaxRetries = Ok name →
  sendAction gristDoc (addAction options name) (doc w) = (Ok r1, d1) →
  (bulkData options = [] ∧ d2 = d1 ∧ evs = [Sent (addAction options name)]
   ∨ bulkData options ≠ []
     ∧ (∃ ret2, sendAction gristDoc (bulkAction options name) d1 = (Ok ret2, d2))
     ∧ evs = [Sent (addAction options name); Sent (bulkAction options name)]) →
  createNewSheet gristDoc options w
  = (do* _ := (if default true (navigateToSheet options)
               then _navigateToSheet gristDoc name else ret tt) in
     ret name) (MkWorld d2 (trace w ++ evs)).
Proof.
  intros Hname Hadd Hdata. unfold createNewSheet. unfold bindM at 1. unfold lift.
  rewrite Hname. unfold bindM at 1, send at 1.
  unfold addAction in *. rewrite Hadd.
  unfold bindM at 1.
  destruct Hdata as [(Hnil & -> & ->) | (Hne & [ret2 Hbulk] & ->)].
  - rewrite Hnil. done.
  - destruct (bulkData options) as [|[key data] rest] eqn:Hb; [done|].
    change (0 <? length ((key, data) :: rest)) with true. cbv iota.
    unfold bindM at 1, send at 1. simpl doc. simpl trace.
    unfold bulkAction, numRowsOf in *. rewrite Hb in *. simpl head in *.
    rewrite Hbulk. unfold ret at 1. by rewrite <- app_assoc.
Qed.

End CreateNewSheetRuns.

Section CreateNewSheetFailures.
Import Host SheetCreationUtils.
Local Open Scope nat_scope.

(** X5.  When the base name and its nine suffixed variants base_1 .. base_9
    are all taken in the document's table list, [createNewSheet] throws the
    exhausted-budget error before doing anything: no action is sent and the
    world is left as it was. *)
Theorem createNewSheet_exhausted :
  ∀ (Doc : Type) (gristDoc : GristDoc Doc) (options : ICreateSheetOptions)
    (w : World Doc),
    (∀ k, k < 10 →
          tableExists gristDoc (doc w)
            (NameResolver.candidate (baseTableName options) k) = true) →
    createNewSheet gristDoc options w
    = (Throw (NameGenerationExhausted 10), w).
Proof.
  intros Doc gristDoc options w Hall.
  apply createNewSheet_name_fails.
  pose proof (generate_loop_exhausted (tableExists gristDoc (doc w))
                (baseTableName options) 10 10 0) as Hnone.
  apply Hnone. intros i Hi. apply Hall. lia.
Qed.

Lemma createNewSheet_exhausted_witness :
  createNewSheet ExampleHost.gristDoc
    {| baseTableName := "Orders"; columns := []; bulkData := [];
       navigateToSheet := None |}
    (MkWorld ExampleHost.crowdedDoc [])
  = (Throw (NameGenerationExhausted 10), MkWorld ExampleHost.crowdedDoc []).
Proof.
  apply (createNewSheet_exhausted ExampleHost.Doc ExampleHost.gristDoc).
  intros k Hk. do 10 (destruct k as [|k]; [by vm_compute|]). lia.
Defined.

(** X6.  When the create-table action is rejected, [createNewSheet] throws
    that error right away: the only action sent is the create-table one, no
    bulk insert follows and no page is opened. *)
Theorem createNewSheet_create_rejected :
  ∀ (Doc : Type) (gristDoc : GristDoc Doc) (options : ICreateSheetOptions)
    (w : World Doc) (name : string) (e : Error) (d1 : Doc),
    NameResolver._generateUniqueTableName
      (tableExists gristDoc (doc w)) (baseTableName options)
      NameResolver.defaultMaxRetries = Ok name →
    sendAction gristDoc (addAction options name) (doc w) = (Throw e, d1) →
    createNewSheet gristDoc options w
    = (Throw e, MkWorld d1 (trace w ++ [Sent (addAction options name)])).
Proof. intros. by apply createNewSheet_add_fails. Qed.

Lemma createNewSheet_create_rejected_witness :
  (createNewSheet ExampleHost.gristDoc
     {| baseTableName := "Orders"; columns := [textColumn "Sales_Qty"];
        bulkData := [("Sales_Qty", [VNum 1])]; navigateToSheet := None |}
     (MkWorld ExampleHost.staleDoc2 [])).1
  = Throw (HostError "duplicate table").
Proof.
  rewrite (createNewSheet_create_rejected ExampleHost.Doc ExampleHost.gristDoc
             _ _ "Orders" (HostError "duplicate table") ExampleHost.staleDoc2);
    by vm_compute.
Defined.

(** X7.  When the table was created and the bulk insert is rejected,
    [createNewSheet] throws that error: the create-table action stays sent
    (nothing is sent to undo it), the document is as the host left it, and
    no page is opened. *)
Theorem createNewSheet_insert_rejected :
  ∀ (Doc : Type) (gristDoc : GristDoc Doc) (options : ICreateSheetOptions)
    (w : World Doc) (name : string) (r1 : option string) (e : Error)
    (d1 d2 : Doc),
    NameResolver._generateUniqueTableName
      (tableExists gristDoc (doc w)) (baseTableName options)
      NameResolver.defaultMaxRetries = Ok name →
    sendAction gristDoc (addAction options name) (doc w) = (Ok r1, d1) →
    bulkData options ≠ [] →
    sendAction gristDoc (bulkAction options name) d1 = (Throw e, d2) →
    createNewSheet gristDoc options w
    = (Throw e,
       MkWorld d2 (trace w ++ [Sent (addAction options name);
                               Sent (bulkAction options name)])).
Proof. intros. by eapply createNewSheet_bulk_fails. Qed.

Lemma createNewSheet_insert_rejected_witness :
  (createNewSheet ExampleHost.fullDoc
     {| baseTableName := "Merged"; columns := [textColumn "Sales_Qty"];
        bulkData := [("Sales_Qty", [VNum 1])]; navigateToSheet := None |}
     ExampleHost.emptyWorld).1
  = Throw (HostError "row limit reached").
Proof.
  rewrite (createNewSheet_insert_rejected ExampleHost.Doc ExampleHost.fullDoc
             _ _ "Merged" (Some "Merged") (HostError "row limit reached")
             (sendAction ExampleHost.fullDoc
                (AddTable "Merged" [textColumn "Sales_Qty"])
                (doc ExampleHost.emptyWorld)).2
             (sendAction ExampleHost.fullDoc
                (AddTable "Merged" [textColumn "Sales_Qty"])
                (doc ExampleHost.emptyWorld)).2);
    by vm_compute.
Defined.

(** X8.  A name [createNewSheet] returns was not in the document's table
    list when it was called, and it is the base name or one of base_1 ..
    base_9. *)
Theorem createNewSheet_returns_fresh_name :
  ∀ (Doc : Type) (gristDoc : GristDoc Doc) (options : ICreateSheetOptions)
    (w : World Doc) (name : string),
    (createNewSheet gristDoc options w).1 = Ok name →
    tableExists gristDoc (doc w) name = false
    ∧ ∃ k, k < 10 ∧ name = NameResolver.candidate (baseTableName options) k.
Proof.
  intros Doc gristDoc options w name Hok.
  apply createNewSheet_result in Hok.
  by apply generateUniqueTableName_Ok in Hok.
Qed.

Lemma createNewSheet_returns_fresh_name_witness :
  tableExists ExampleHost.gristDoc (doc ExampleHost.emptyWorld) "Merged" = false.
Proof.
  apply (createNewSheet_returns_fresh_name ExampleHost.Doc ExampleHost.gristDoc
           {| baseTableName := "Merged"; columns := [textColumn "Sales_Qty"];
              bulkData := [("Sales_Qty", [VNum 1])]; navigateToSheet := None |}
           ExampleHost.emptyWorld "Merged").
  by vm_compute.
Defined.

End CreateNewSheetFailures.

Section CreateNewSheetNavigation.
Import Host SheetCreationUtils.
Local Open Scope nat_scope.

Lemma navigateToSheet_result {Doc} (gristDoc : GristDoc Doc) tableId w :
  (∀ ref d, (openDocPage gristDoc ref d).1 = Ok tt) →
  (_navigateToSheet gristDoc tableId w).1 = Ok tt.
Proof.
  intros Hopen. unfold _navigateToSheet.
  destruct (findTable gristDoc (doc w) tableId) as [rec|]; [|done].
  destruct (rawViewSectionRef rec =? 0); [done|].
  unfold openPage. specialize (Hopen (rawViewSectionRef rec) (doc w)).
  by destruct (openDocPage gristDoc _ (doc w)) as [r d'].
Qed.

(** X9.  Navigation is best effort: once the table name is resolved, the
    create-table action succeeded and the bulk insert, if there is data,
    succeeded too, [createNewSheet] returns the resolved name whenever
    opening a page does not fail; that the new table or its view section
    cannot be found afterwards never makes it fail. *)
Theorem createNewSheet_succeeds :
  ∀ (Doc : Type) (gristDoc : GristDoc Doc) (options : ICreateSheetOptions)
    (w : World Doc) (name : string) (r1 : option string) (d1 : Doc),
    NameResolver._generateUniqueTableName
      (tableExists gristDoc (doc w)) (baseTableName options)
      NameResolver.defaultMaxRetries = Ok name →
    sendAction gristDoc (addAction options name) (doc w) = (Ok r1, d1) →
    (bulkData options = []
     ∨ ∃ r2, (sendAction gristDoc (bulkAction options name) d1).1 = Ok r2) →
    (∀ ref d, (openDocPage gristDoc ref d).1 = Ok tt) →
    (createNewSheet gristDoc options w).1 = Ok name.
Proof.
  intros Doc gristDoc options w name r1 d1 Hname Hadd Hdata Hopen.
  assert (∃ d2 evs,
            createNewSheet gristDoc options w
            = (do* _ := (if default true (navigateToSheet options)
                         then _navigateToSheet gristDoc name else ret tt) in
               ret name) (MkWorld d2 (trace w ++ evs))) as (d2 & evs & ->).
  { destruct (decide (bulkData options = [])) as [Hnil | Hne].
    - exists d1, [Sent (addAction options name)].
      eapply createNewSheet_actions_done; [done | done |]. left. done.
    - destruct Hdata as [? | [r2 Hbulk]]; [done|].
      destruct (sendAction gristDoc (bulkAction options name) d1) as [r d2] eqn:Hb.
      simpl in Hbulk. subst r.
      exists d2, [Sent (addAction options name); Sent (bulkAction options name)].
      eapply createNewSheet_actions_done; [done | done |]. right.
      split_and!; [done | by exists r2 | done]. }
  unfold bindM. destruct (default true (navigateToSheet options)); [|done].
  pose proof (navigateToSheet_result gristDoc name
                (MkWorld d2 (trace w ++ evs)) Hopen) as Hnav.
  destruct (_navigateToSheet gristDoc name _) as [r w']. simpl in Hnav.
  by subst r.
Qed.

Lemma createNewSheet_succeeds_witness :
  (createNewSheet ExampleHost.gristDoc
     {| baseTableName := "Orders"; columns := [textColumn "Sales_Qty"];
        bulkData := [("Sales_Qty", [VNum 1])]; navigateToSheet := None |}
     ExampleHost.staleWorld).1
  = Ok "Orders".
Proof.
  apply (createNewSheet_succeeds ExampleHost.Doc ExampleHost.gristDoc _ _
           "Orders" (Some "Orders2")
           (sendAction ExampleHost.gristDoc
              (AddTable "Orders" [textColumn "Sales_Qty"])
              ExampleHost.ordersDoc).2);
    [by vm_compute | by vm_compute | right; eexists; by vm_compute | done].
Defined.

(** X10.  With navigation switched off, [createNewSheet] does nothing but
    send actions: whatever the outcome, every event of the run is a sent
    action, at most two of them; no page is opened and nothing is logged. *)
Theorem createNewSheet_no_navigation :
  ∀ (Doc : Type) (gristDoc : GristDoc Doc) (options : ICreateSheetOptions)
    (w : World Doc),
    navigateToSheet options = Some false →
    ∃ evs,
      trace (createNewSheet gristDoc options w).2 = trace w ++ evs
      ∧ length evs ≤ 2
      ∧ Forall (λ ev, ∃ a, ev = Sent a) evs.
Proof.
  intros Doc gristDoc options w Hnav.
  unfold createNewSheet, bindM, lift, send, ret. rewrite Hnav. simpl.
  destruct (NameResolver._generateUniqueTableName _ _ _) as [name | e | ];
    [ | exists []; rewrite app_nil_r; split_and!; [done | simpl; lia | done] ..].
  destruct (sendAction gristDoc (AddTable name _) (doc w)) as [r1 d1].
  destruct r1 as [r1 | e1 | ];
    [ | eexists [_]; split_and!; [done | simpl; lia | repeat constructor; eauto] ..].
  destruct (0 <? length (bulkData options)).
  - simpl. destruct (sendAction gristDoc (BulkAddRecord name _ _) d1) as [r2 d2].
    destruct r2; simpl; eexists [_; _]; rewrite <- app_assoc;
      (split_and!; [done | simpl; lia | repeat constructor; eauto]).
  - simpl. eexists [_]. split_and!; [done | simpl; lia | repeat constructor; eauto].
Qed.

Lemma createNewSheet_no_navigation_witness :
  ∃ evs : list Event,
    trace (createNewSheet ExampleHost.gristDoc
             {| baseTableName := "Merged"; columns := [];
                bulkData := []; navigateToSheet := Some false |}
             ExampleHost.emptyWorld).2 = [] ++ evs
    ∧ length evs ≤ 2.
Proof.
  destruct (createNewSheet_no_navigation ExampleHost.Doc ExampleHost.gristDoc
              {| baseTableName := "Merged"; columns := [];
                 bulkData := []; navigateToSheet := Some false |}
              ExampleHost.emptyWorld eq_refl) as (evs & Htr & Hlen & _).
  by exists evs.
Defined.

End CreateNewSheetNavigation.

(* ===================================================================== *)
(** * Further properties: the name dialog *)
(* ===================================================================== *)

Section ModalFacts.
Import Host NewSheetNameModal.
Local Open Scope nat_scope.

Lemma trim_start_blank s :
  trim_start s = "" ↔ string_forall is_space s = true.
Proof.
  induction s as [|c s IH]; simpl; [done|].
  destruct (is_space c); simpl; [done|]. split; discriminate.
Qed.

Lemma trim_start_head s c r : trim_start s = String c r → is_space c = false.
Proof.
  induction s as [|c' s IH]; simpl; [done|].
  destruct (is_space c') eqn:Hc; [done|]. by intros [= <- _].
Qed.

Lemma trim_start_fixed c r : is_space c = false → trim_start (String c r) = String c r.
Proof. intros Hc. simpl. by rewrite Hc. Qed.

Lemma trim_end_head c r :
  is_space c = false → ∃ r', trim_end (String c r) = String c r'.
Proof.
  intros Hc. simpl. rewrite Hc. destruct (trim_end r); by eexists.
Qed.

Lemma trim_end_idemp s : trim_end (trim_end s) = trim_end s.
Proof.
  induction s as [|c s IH]; simpl; [done|].
  destruct (trim_end s) as [|c' r] eqn:Hs.
  - destruct (is_space c) eqn:Hc; simpl; [done | by rewrite Hc].
  - change (trim_end (String c (String c' r)))
      with (match trim_end (String c' r) with
            | EmptyString => if is_space c then EmptyString else String c EmptyString
            | r0 => String c r0
            end).
    by rewrite IH.
Qed.

(** What is left after trimming cannot be trimmed further. *)
Lemma trim_idemp s : trim (trim s) = trim s.
Proof.
  unfold trim. destruct (trim_start s) as [|c r] eqn:Hs; [done|].
  pose proof (trim_start_head s c r Hs) as Hc.
  destruct (trim_end_head c r Hc) as [r' Hr]. rewrite Hr.
  rewrite (trim_start_fixed c r' Hc), <- Hr. apply trim_end_idemp.
Qed.

(** Trimming leaves nothing exactly when the text is blank. *)
Lemma trim_blank s : trim s = "" ↔ string_forall is_space s = true.
Proof.
  rewrite <- trim_start_blank. unfold trim.
  destruct (trim_start s) as [|c r] eqn:Hs; [done|].
  pose proof (trim_start_head s c r Hs) as Hc.
  destruct (trim_end_head c r Hc) as [r' ->]. split; discriminate.
Qed.

Lemma eqb_empty s : String.eqb s "" = bool_decide (s = "").
Proof. by destruct s. Qed.

(** The dialog, step by step. *)
Lemma showNewSheetNameModal_run {Doc A} (gristDoc : GristDoc Doc)
    (onSubmit : string → M Doc A) defaultName user w :
  ∃ auto,
    (auto = defaultName
     ∨ tableExists gristDoc (doc w) auto = false
       ∧ ∃ k, k < 10 ∧ auto = NameResolver.candidate defaultName k)
    ∧ showNewSheetNameModal gristDoc onSubmit defaultName user w
      = match user auto with
        | None => (Ok None, MkWorld (doc w) (trace w ++ [ModalShown auto]))
        | Some text =>
            if bool_decide (trim text = "")
            then (Throw EmptySheetName,
                  MkWorld (doc w) (trace w ++ [ModalShown auto]))
            else (do* a := onSubmit (trim text) in ret (Some a))
                   (MkWorld (doc w) (trace w ++ [ModalShown auto]))
        end.
Proof.
  unfold showNewSheetNameModal.
  match goal with |- context [emit (ModalShown ?a)] => set (auto := a) end.
  exists auto. split.
  - subst auto. destruct (negb (String.eqb defaultName "")); [|by left].
    destruct (NameResolver._generateUniqueTableName _ _ _) as [n | e |] eqn:Hn;
      simpl; [|by left..].
    right. by apply generateUniqueTableName_Ok in Hn.
  - unfold bindM at 1, emit. destruct (user auto) as [text|]; [|done].
    rewrite eqb_empty. by destruct (bool_decide (trim text = "")).
Qed.

(** X11.  The name the dialog suggests is either the default name itself
    or a name that is not taken in the document (the default name or one of
    its first nine suffixed variants); when the person cancels, the submit
    callback is not run and nothing but showing the dialog has happened. *)
Theorem showNewSheetNameModal_cancel :
  ∀ (Doc A : Type) (gristDoc : GristDoc Doc) (onSubmit : string → M Doc A)
    (defaultName : string) (user : string → option string) (w : World Doc),
    (∀ suggested, user suggested = None) →
    ∃ auto,
      (auto = defaultName
       ∨ tableExists gristDoc (doc w) auto = false
         ∧ ∃ k, k < 10 ∧ auto = NameResolver.candidate defaultName k)
      ∧ showNewSheetNameModal gristDoc onSubmit defaultName user w
        = (Ok None, MkWorld (doc w) (trace w ++ [ModalShown auto])).
Proof.
  intros Doc A gristDoc onSubmit defaultName user w Hcancel.
  destruct (showNewSheetNameModal_run gristDoc onSubmit defaultName user w)
    as (auto & Hauto & Hrun).
  exists auto. split; [done|]. by rewrite Hrun, Hcancel.
Qed.

Lemma showNewSheetNameModal_cancel_witness :
  ∃ auto,
    showNewSheetNameModal ExampleHost.gristDoc
      (λ name, ret name) "GlobalSelections" (λ _, None) ExampleHost.emptyWorld
    = (Ok None,
       MkWorld (doc ExampleHost.emptyWorld)
         (trace ExampleHost.emptyWorld ++ [ModalShown auto])).
Proof.
  destruct (showNewSheetNameModal_cancel ExampleHost.Doc string
              ExampleHost.gristDoc (λ name, ret name) "GlobalSelections"
              (λ _, None) ExampleHost.emptyWorld (λ _, eq_refl))
    as (auto & _ & Hrun).
  by exists auto.
Defined.

(** X12.  When the person presses Create, the text is trimmed first.  A
    blank text makes the dialog throw 'Sheet name cannot be empty' without
    running the submit callback.  Any other text runs the callback exactly
    once, on the trimmed text, which is not empty and cannot be trimmed
    further; the outcome of the callback is the outcome of the dialog. *)
Theorem showNewSheetNameModal_submit :
  ∀ (Doc A : Type) (gristDoc : GristDoc Doc) (onSubmit : string → M Doc A)
    (defaultName text : string) (user : string → option string) (w : World Doc),
    (∀ suggested, user suggested = Some text) →
    ∃ auto,
      let shown := MkWorld (doc w) (trace w ++ [ModalShown auto]) in
      (string_forall is_space text = true →
       showNewSheetNameModal gristDoc onSubmit defaultName user w
       = (Throw EmptySheetName, shown))
      ∧ (string_forall is_space text = false →
         trim text ≠ ""
         ∧ trim (trim text) = trim text
         ∧ showNewSheetNameModal gristDoc onSubmit defaultName user w
           = (do* a := onSubmit (trim text) in ret (Some a)) shown).
Proof.
  intros Doc A gristDoc onSubmit defaultName text user w Huser.
  destruct (showNewSheetNameModal_run gristDoc onSubmit defaultName user w)
    as (auto & _ & Hrun).
  exists auto. rewrite Huser in Hrun. split.
  - intros Hblank. apply trim_blank in Hblank.
    by rewrite Hrun, bool_decide_eq_true_2.
  - intros Hblank.
    assert (trim text ≠ "") as Hne.
    { intros Hnil%trim_blank. congruence. }
    split_and!; [done | apply trim_idemp |].
    by rewrite Hrun, bool_decide_eq_false_2.
Qed.

Lemma showNewSheetNameModal_submit_witness :
  ∃ auto,
    showNewSheetNameModal ExampleHost.gristDoc
      (λ name, ret name) "GlobalSelections" (λ _, Some "  ") ExampleHost.emptyWorld
    = (Throw EmptySheetName,
       MkWorld (doc ExampleHost.emptyWorld)
         (trace ExampleHost.emptyWorld ++ [ModalShown auto])).
Proof.
  destruct (showNewSheetNameModal_submit ExampleHost.Doc string
              ExampleHost.gristDoc (λ name, ret name) "GlobalSelections" "  "
              (λ _, Some "  ") ExampleHost.emptyWorld (λ _, eq_refl))
    as (auto & Hblank & _).
  exists auto. apply Hblank. by vm_compute.
Defined.

End ModalFacts.

(* ===================================================================== *)
(** * Further properties: creating a sheet from the store *)
(* ===================================================================== *)

Section StoreCreateFacts.
Import Host GlobalCellSelection.
Local Open Scope nat_scope.

Context {Doc : Type} (gristDoc : GristDoc Doc).

(** With nothing usable in the store, only a line is logged. *)
Lemma store_createNewSheet_nothing user selections w :
  omap usable selections = [] →
  createNewSheet gristDoc user selections w
  = (Ok selections,
     MkWorld (doc w)
       (trace w ++ [ConsoleLog "No global selections available to create sheet"])).
Proof.
  intros Hnone. unfold createNewSheet, bindM at 1, lift.
  rewrite getFormattedData_run, Hnone. done.
Qed.

(** With something usable, the dialog is shown and decides. *)
Lemma store_createNewSheet_run user selections w :
  omap usable selections ≠ [] →
  ∃ auto,
    let shown := MkWorld (doc w) (trace w ++ [ModalShown auto]) in
    createNewSheet gristDoc user selections w
    = match user auto with
      | None => (Ok selections, shown)
      | Some text =>
          if bool_decide (NewSheetNameModal.trim text = "")
          then (Throw EmptySheetName, shown)
          else
            match Merge.convertGlobalSelectionData
                    (formatted <$> omap usable selections) with
            | Ok (cols, bulk) =>
                match SheetCreationUtils.createNewSheet gristDoc
                        {| SheetCreationUtils.baseTableName :=
                             NewSheetNameModal.trim text;
                           SheetCreationUtils.columns := cols;
                           SheetCreationUtils.bulkData := bulk;
                           SheetCreationUtils.navigateToSheet := Some true |}
                        shown with
                | (Ok _, w2) =>
                    (Ok [], MkWorld (doc w2)
                              (trace w2 ++ [ConsoleLog "Created new sheet"]))
                | (Throw e, w2) =>
                    (Throw e,
                     MkWorld (doc w2)
                       (trace w2 ++ [ConsoleError "Failed to create new sheet"]))
                | (Diverges, w2) => (Diverges, w2)
                end
            | Throw e =>
                (Throw e,
                 MkWorld (doc w)
                   (trace w ++ [ModalShown auto;
                                ConsoleError "Failed to create new sheet"]))
            | Diverges => (Diverges, shown)
            end
      end.
Proof.
  intros Hsome. unfold createNewSheet. unfold bindM at 1. unfold lift at 1.
  rewrite getFormattedData_run.
  destruct (formatted <$> omap usable selections) as [|f fd] eqn:Hfd.
  { by destruct (omap usable selections). }
  change (length (f :: fd) =? 0) with false. cbv iota.
  unfold bindM at 1.
  match goal with |- context [NewSheetNameModal.showNewSheetNameModal _ ?cb _ _ _] =>
    destruct (showNewSheetNameModal_run gristDoc cb "GlobalSelections" user w)
      as (auto & _ & ->) end.
  exists auto. simpl. destruct (user auto) as [text|]; [|done].
  destruct (bool_decide (NewSheetNameModal.trim text = "")); [done|].
  unfold bindM at 1, tryM, bindM at 1, lift at 1.
  destruct (Merge.convertGlobalSelectionData (f :: fd)) as [[cols bulk] | e | ];
    [ | unfold bindM, emit, lift, ret; simpl; by rewrite <- ?app_assoc | done].
  unfold bindM at 1.
  destruct (SheetCreationUtils.createNewSheet gristDoc _ _) as [r w2].
  by destruct r.
Qed.

End StoreCreateFacts.

Section StoreCreateClaims.
Import Host GlobalCellSelection.
Local Open Scope nat_scope.





(** X15.  The store's [createNewSheet] empties the collection only after a
    table was created: whenever it returns, the collection is either as it
    was, with no action sent, or it is empty and a create-table action was
    sent during the run. *)
Theorem store_createNewSheet_clears_on_success :
  ∀ (Doc : Type) (gristDoc : GristDoc Doc) (user : string → option string)
    (selections selections' : Selections) (w : World Doc),
    (createNewSheet gristDoc user selections w).1 = Ok selections' →
    ∃ evs,
      trace (createNewSheet gristDoc user selections w).2 = trace w ++ evs
      ∧ (selections' = selections ∧ Forall (λ ev, ∀ a, ev ≠ Sent a) evs
         ∨ selections' = []
           ∧ ∃ name cols, Sent (AddTable name cols) ∈ evs).
Proof.
  intros Doc gristDoc user selections selections' w Hok.
  destruct (decide (omap usable selections = [])) as [Hnone | Hsome].
  { rewrite (store_createNewSheet_nothing gristDoc user selections w Hnone) in *.
    simpl in Hok. injection Hok as <-. eexists. split; [done|]. left.
    split; [done|]. by repeat constructor. }
  destruct (store_createNewSheet_run gristDoc user selections w Hsome)
    as (auto & Hrun).
  simpl in Hrun. rewrite Hrun in *. clear Hrun.
  destruct (user auto) as [text|].
  2:{ simpl in Hok. injection Hok as <-. eexists. split; [done|]. left.
      split; [done|]. by repeat constructor. }
  destruct (bool_decide (NewSheetNameModal.trim text = "")); [done|].
  destruct (Merge.convertGlobalSelectionData _) as [[cols bulk] | e | ];
    [ | done..].
  match goal with |- context [SheetCreationUtils.createNewSheet _ ?o ?w0] =>
    pose proof (createNewSheet_result gristDoc o w0) as Hres;
    destruct (createNewSheet_events gristDoc o w0)
      as (r & w2 & evs & Hinner & Htr & Hcase) end.
  rewrite Hinner in *. destruct r as [name | e | ]; [ | done..].
  simpl in Hok. injection Hok as <-.
  specialize (Hres name eq_refl). rewrite Hres in Hcase. simpl in *.
  exists ([ModalShown auto] ++ evs ++ [ConsoleLog "Created new sheet"]).
  split; [by rewrite Htr, <- !app_assoc|]. right. split; [done|].
  exists name, cols.
  match type of Hcase with
  | match ?x with _ => _ end => destruct x as [[r1 | e1 | ] d1]
  end.
  - destruct (decide (bulk = [])); destruct Hcase as [_ [evs' ->]];
      apply elem_of_cons; right; apply elem_of_cons; by left.
  - subst evs. apply elem_of_cons. right. apply elem_of_cons. by left.
  - subst evs. apply elem_of_cons. right. apply elem_of_cons. by left.
Qed.

Lemma store_createNewSheet_clears_on_success_witness :
  ∃ evs : list Event,
    trace (createNewSheet ExampleHost.gristDoc StoreExamples.acceptsSuggestion
             StoreExamples.oneStored ExampleHost.emptyWorld).2
    = trace ExampleHost.emptyWorld ++ evs
    ∧ ∃ name cols, Sent (AddTable name cols) ∈ evs.
Proof.
  destruct (store_createNewSheet_clears_on_success ExampleHost.Doc
              ExampleHost.gristDoc StoreExamples.acceptsSuggestion
              StoreExamples.oneStored [] ExampleHost.emptyWorld)
    as (evs & Htr & [[Habs _] | [_ Hsent]]); [by vm_compute | | ].
  - vm_compute in Habs. discriminate Habs.
  - exists evs. split; [exact Htr | exact Hsent].
Defined.

End StoreCreateClaims.

(* ===================================================================== *)
(** * Further properties: capturing a selection *)
(* ===================================================================== *)

Section CaptureFacts.
Import GlobalCellSelection.
Local Open Scope nat_scope.

Lemma collectHeaders_Ok fields :
  Forall (λ f, is_Some (Field.label_peek f)) fields →
  collectHeaders fields = Ok (omap Field.label_peek fields).
Proof.
  induction 1 as [|f fields [h Hh] _ IH]; [done|].
  change (omap Field.label_peek (f :: fields))
    with (match Field.label_peek f with
          | Some h => h :: omap Field.label_peek fields
          | None => omap Field.label_peek fields
          end).
  simpl. by rewrite Hh, IH.
Qed.

Lemma collectHeaders_Throw fields :
  ¬ Forall (λ f, is_Some (Field.label_peek f)) fields →
  collectHeaders fields = Throw TypeError.
Proof.
  induction fields as [|f fields IH]; intros Hnot; [by destruct Hnot|].
  simpl. destruct (Field.label_peek f) as [h|] eqn:Hh; simpl; [|done].
  rewrite IH; [done|]. intros Hall. apply Hnot. constructor; [by eexists | done].
Qed.

Lemma omap_labels fields hcs :
  Forall2 answers fields hcs → omap Field.label_peek fields = hcs.*1.
Proof.
  induction 1 as [|f hc fields hcs (Hl & _ & _) _ IH]; [done|].
  change (omap Field.label_peek (f :: fields))
    with (match Field.label_peek f with
          | Some h => h :: omap Field.label_peek fields
          | None => omap Field.label_peek fields
          end).
  rewrite Hl, IH. done.
Qed.

(** One row is captured when every column has a readable field. *)
Lemma collectRow_Ok fields rowId columns cs : ∀ index row,
  length cs = length columns →
  (∀ i c, cs !! i = Some c →
     ∃ f, fields !! (index + i) = Some f ∧ Field.colId_peek f = Some c) →
  collectRow fields rowId index columns row
  = Ok (capturedRow rowId row (zip cs columns)).
Proof.
  revert cs. induction columns as [|g columns IH]; intros cs index row Hlen Hcs.
  { destruct cs; [done | simpl in Hlen; lia]. }
  destruct cs as [|c cs]; [simpl in Hlen; lia|]. simpl.
  destruct (Hcs 0 c eq_refl) as (f & Hf & Hc). rewrite Nat.add_0_r in Hf.
  rewrite Hf. simpl. rewrite Hc. simpl. apply IH; [simpl in Hlen; lia|].
  intros i c' Hi. destruct (Hcs (S i) c' Hi) as (f' & Hf' & Hc').
  exists f'. split; [|done]. by replace (S index + i) with (index + S i) by lia.
Qed.

Lemma collectRow_Throw fields rowId columns : ∀ index row i,
  i < length columns →
  (∀ f, fields !! (index + i) = Some f → Field.colId_peek f = None) →
  collectRow fields rowId index columns row = Throw TypeError.
Proof.
  induction columns as [|g columns IH]; intros index row i Hi Hbad;
    [simpl in Hi; lia|].
  simpl. destruct (fields !! index) as [f|] eqn:Hf; [|done].
  destruct (Field.colId_peek f) as [c|] eqn:Hc; simpl.
  - destruct i as [|i].
    + rewrite Nat.add_0_r in Hbad. specialize (Hbad f Hf). congruence.
    + apply (IH _ _ i); [simpl in Hi; lia|].
      intros f' Hf'. apply Hbad. by replace (index + S i) with (S index + i) by lia.
  - done.
Qed.

(** A row id and its property key determine each other. *)
Lemma rowKey_inj r r' : rowKey r = rowKey r' → r = r'.
Proof.
  assert (∀ n : nat, pretty n ≠ "new") as Hnew.
  { intros n Hn. pose proof (pretty_nat_digits n) as Hd. by rewrite Hn in Hd. }
  destruct r as [n|], r' as [m|]; simpl; intros H; [ | | | done].
  - by apply (inj pretty) in H as ->.
  - by apply Hnew in H.
  - symmetry in H. by apply Hnew in H.
Qed.

Lemma collectCells_lookup sel rowIds : ∀ cellData0 cellData,
  collectCells sel rowIds cellData0 = Ok cellData →
  ∀ rowId,
    (rowId ∈ rowIds →
     ∃ row, collectRow (CopySelection.fields sel) rowId 0
              (CopySelection.columns sel) ∅ = Ok row
            ∧ cellData !! rowKey rowId = Some row)
    ∧ (rowId ∉ rowIds → cellData !! rowKey rowId = cellData0 !! rowKey rowId).
Proof.
  induction rowIds as [|r0 rowIds IH]; intros cellData0 cellData Hok rowId.
  { simpl in Hok. injection Hok as <-. split; [by intros ?%elem_of_nil | done]. }
  simpl in Hok.
  destruct (collectRow _ r0 0 _ ∅) as [row0 | |] eqn:Hrow0; [|done..].
  simpl in Hok. destruct (IH _ _ Hok rowId) as [Hin Hout]. split.
  - intros Hmem. destruct (decide (rowId ∈ rowIds)) as [Hlater | Hnot]; [auto|].
    apply elem_of_cons in Hmem as [-> | ?]; [|done].
    exists row0. split; [done|]. rewrite (Hout Hnot). apply lookup_insert_eq.
  - intros Hnot. apply not_elem_of_cons in Hnot as [Hne Hnot].
    rewrite (Hout Hnot). apply lookup_insert_ne.
    intros Heq. by apply rowKey_inj in Heq.
Qed.

Lemma collectCells_Ok sel rowIds cs : ∀ cellData0,
  length cs = length (CopySelection.columns sel) →
  (∀ i c, cs !! i = Some c →
     ∃ f, CopySelection.fields sel !! i = Some f ∧ Field.colId_peek f = Some c) →
  ∃ cellData, collectCells sel rowIds cellData0 = Ok cellData.
Proof.
  intros cellData0 Hlen Hcs. revert cellData0.
  induction rowIds as [|r0 rowIds IH]; intros cellData0; simpl; [by eexists|].
  rewrite (collectRow_Ok _ r0 _ cs 0 ∅ Hlen Hcs). simpl. apply IH.
Qed.

Lemma capturedRow_lookup rowId cgs : ∀ row i c g,
  NoDup cgs.*1 → cgs !! i = Some (c, g) →
  capturedRow rowId row cgs !! c = Some (g rowId).
Proof.
  unfold capturedRow.
  induction cgs as [|[c0 g0] cgs IH]; intros row i c g Hnd Hi; [done|].
  simpl in *. apply NoDup_cons in Hnd as [Hfresh Hnd].
  destruct i as [|i]; simpl in Hi.
  - injection Hi as -> ->. clear IH.
    assert (∀ r : gmap string JsVal, r !! c = Some (g rowId) →
              foldl (λ r cg, <[cg.1 := cg.2 rowId]> r) r cgs !! c
              = Some (g rowId)) as Hkeep.
    { induction cgs as [|[c1 g1] cgs IH]; intros r Hr; [done|].
      simpl. apply not_elem_of_cons in Hfresh as [Hne Hfresh].
      apply NoDup_cons in Hnd as [_ Hnd].
      apply IH; [done | done |]. by rewrite lookup_insert_ne. }
    apply Hkeep, lookup_insert_eq.
  - by eapply IH.
Qed.

End CaptureFacts.

Section CaptureClaims.
Import GlobalCellSelection.
Local Open Scope nat_scope.

(** Either every column has a readable field, or some column has none. *)
Lemma collectRow_cases (fields : list Field.t)
    (columns : list (UIRowId → JsVal)) : ∀ index,
  (∃ cs, length cs = length columns
       ∧ ∀ i c, cs !! i = Some c →
           ∃ f, fields !! (index + i) = Some f ∧ Field.colId_peek f = Some c)
  ∨ (∃ i, i < length columns
        ∧ ∀ f, fields !! (index + i) = Some f → Field.colId_peek f = None).
Proof.
  induction columns as [|g columns IH]; intros index.
  { left. exists []. split; [done|]. by intros i c ?. }
  destruct (fields !! index) as [f|] eqn:Hf.
  2:{ right. exists 0. split; [simpl; lia|]. intros f. rewrite Nat.add_0_r.
      congruence. }
  destruct (Field.colId_peek f) as [c|] eqn:Hc.
  2:{ right. exists 0. split; [simpl; lia|]. intros f'. rewrite Nat.add_0_r.
      congruence. }
  destruct (IH (S index)) as [(cs & Hlen & Hcs) | (i & Hi & Hbad)].
  - left. exists (c :: cs). split; [simpl; lia|].
    intros [|i] c' Hi; simpl in Hi.
    + injection Hi as <-. exists f. by rewrite Nat.add_0_r.
    + destruct (Hcs i c' Hi) as (f' & Hf' & Hc'). exists f'.
      split; [|done]. by replace (index + S i) with (S index + i) by lia.
  - right. exists (S i). split; [simpl; lia|].
    intros f' Hf'. apply Hbad.
    by replace (S index + i) with (index + S i) by lia.
Qed.

(** X16.  [addSelection] succeeds exactly when the selection can be
    captured: every field's label can be read and, unless there are no
    rows, every column has a field at its index whose column id can be
    read.  It then appends one entry to the end of the collection, leaving
    the entries before it as they were, with the given id, sheet name and
    table id, the row ids and fields of the selection and the labels as
    headers.  Otherwise it throws and nothing is appended. *)
Theorem addSelection_succeeds_iff :
  ∀ (id : string) (now : nat) (sheetName : string) (sectionId : nat)
    (tableId : string) (sel : CopySelection.t) (selections : Selections),
    (capturable sel →
     ∃ cellData,
       addSelection id now sheetName sectionId tableId sel selections
       = Ok (selections ++
             [Some {| Entry.id := id;
                      Entry.sheetName := Some sheetName;
                      Entry.sectionId := sectionId;
                      Entry.tableId := Some tableId;
                      Entry.rowIds := Some (CopySelection.rowIds sel);
                      Entry.fields := Some (CopySelection.fields sel);
                      Entry.timestamp := now;
                      Entry.cellData := Some cellData;
                      Entry.headers :=
                        Some (omap Field.label_peek (CopySelection.fields sel)) |}]))
    ∧ (¬ capturable sel →
       addSelection id now sheetName sectionId tableId sel selections
       = Throw TypeError)
    ∧ (∀ selections',
         addSelection id now sheetName sectionId tableId sel selections
         = Ok selections' →
         hasSelections selections' = true
         ∧ length selections' = S (length selections)).
Proof.
  intros id now sheetName sectionId tableId sel selections.
  assert (∀ selections',
            addSelection id now sheetName sectionId tableId sel selections
            = Ok selections' →
            ∃ e, selections' = selections ++ [Some e]) as Happ.
  { unfold addSelection. intros selections'.
    destruct (collectHeaders _); simpl; [|done..].
    destruct (collectCells _ _ _); simpl; [|done..].
    intros [= <-]. by eexists. }
  split_and!.
  - intros [Hlabels Hrows]. unfold addSelection.
    rewrite (collectHeaders_Ok _ Hlabels). simpl.
    assert (∃ cellData,
              collectCells sel (CopySelection.rowIds sel) ∅ = Ok cellData)
      as [cellData ->]; [|by exists cellData].
    destruct Hrows as [-> | Hcols]; [by eexists|].
    destruct (collectRow_cases (CopySelection.fields sel)
                (CopySelection.columns sel) 0)
      as [(cs & Hlen & Hcs) | (i & Hi & Hbad)].
    + by apply (collectCells_Ok sel _ cs).
    + destruct (Hcols i Hi) as (f & Hf & [c Hc]).
      specialize (Hbad f Hf). congruence.
  - intros Hnot. unfold addSelection.
    destruct (decide (Forall (λ f, is_Some (Field.label_peek f))
                        (CopySelection.fields sel))) as [Hlabels | Hlabels].
    2:{ by rewrite (collectHeaders_Throw _ Hlabels). }
    rewrite (collectHeaders_Ok _ Hlabels). simpl.
    destruct (CopySelection.rowIds sel) as [|r0 rowIds] eqn:Hrows.
    { exfalso. apply Hnot. split; [done | by left]. }
    destruct (collectRow_cases (CopySelection.fields sel)
                (CopySelection.columns sel) 0)
      as [(cs & Hlen & Hcs) | (i & Hi & Hbad)].
    + exfalso. apply Hnot. split; [done|]. right. intros i Hi.
      destruct (lookup_lt_is_Some_2 cs i) as [c Hc]; [lia|].
      destruct (Hcs i c Hc) as (f & Hf & Hf'). exists f. split; [done | by eexists].
    + simpl. by rewrite (collectRow_Throw _ r0 _ 0 ∅ i Hi Hbad).
  - intros selections' Hok. destruct (Happ _ Hok) as [e ->].
    unfold hasSelections. rewrite length_app. simpl.
    split; [|lia]. apply Nat.ltb_lt. lia.
Qed.

Lemma addSelection_succeeds_iff_witness :
  ∃ cellData,
    StoreExamples.oneSelection
    = Ok [Some {| Entry.id := "7-0-abc";
                  Entry.sheetName := Some "Sheet1";
                  Entry.sectionId := 7;
                  Entry.tableId := Some "Sheet1";
                  Entry.rowIds := Some [RowNum 1; RowNum 2];
                  Entry.fields := Some [StoreExamples.amountA; StoreExamples.amountB];
                  Entry.timestamp := 0;
                  Entry.cellData := Some cellData;
                  Entry.headers := Some ["Amount"; "Amount"] |}].
Proof.
  apply (proj1 (addSelection_succeeds_iff "7-0-abc" 0 "Sheet1" 7 "Sheet1"
                  StoreExamples.twoAmounts [])).
  split.
  - repeat constructor; by eexists.
  - right. intros i Hi. destruct i as [|[|i]]; [ | | simpl in Hi; lia].
    + exists StoreExamples.amountA. split; [done | by eexists].
    + exists StoreExamples.amountB. split; [done | by eexists].
Defined.



End CaptureClaims.

Section CaptureRoundTrip.
Import GlobalCellSelection.
Local Open Scope nat_scope.

Lemma answers_readable fields hcs :
  Forall2 answers fields hcs → Forall2 readable fields hcs.*1.
Proof.
  induction 1 as [|f hc fields hcs (Hl & _ & Hc) _ IH]; simpl; constructor;
    [|done].
  split; [done | by eexists].
Qed.

Lemma answers_labels fields hcs :
  Forall2 answers fields hcs →
  Forall (λ f, is_Some (Field.label_peek f)) fields.
Proof.
  induction 1 as [|f hc fields hcs (Hl & _ & _) _ IH]; constructor;
    [by eexists | done].
Qed.

Lemma lastWithLabel_None h fields hcs :
  Forall2 answers fields hcs → h ∉ hcs.*1 → lastWithLabel h fields = None.
Proof.
  induction 1 as [|f hc fields hcs (Hl & _ & _) _ IH]; intros Hout; [done|].
  rewrite fmap_cons in Hout. apply not_elem_of_cons in Hout as [Hne Hout].
  simpl. rewrite (IH Hout), Hl. rewrite decide_False; [done|]. congruence.
Qed.

Lemma lastWithLabel_unique fields hcs : ∀ i f h c,
  Forall2 answers fields hcs → NoDup hcs.*1 →
  fields !! i = Some f → hcs !! i = Some (h, c) →
  lastWithLabel h fields = Some f.
Proof.
  intros i f h c Hall. revert i.
  induction Hall as [|f0 hc0 fields hcs Hans Hrest IH]; intros i Hnd Hf Hhc;
    [done|].
  rewrite fmap_cons in Hnd. apply NoDup_cons in Hnd as [Hfresh Hnd].
  destruct i as [|i]; simpl in *.
  - injection Hf as ->. injection Hhc as ->. simpl in *.
    rewrite (lastWithLabel_None h fields hcs Hrest Hfresh).
    destruct Hans as (Hl & _ & _). simpl in Hl. by rewrite Hl, decide_True.
  - by rewrite (IH i Hnd Hf Hhc).
Qed.

(** X18.  What was captured is what gets formatted.  Take a selection with
    as many columns as fields, whose fields answer with pairwise different
    labels and pairwise different column ids, none of them __proto__,
    captured under a non-empty sheet name and table id.  Formatting the
    collection afterwards gives the formatted entries of before followed
    by one entry for the new selection: its row and column counts are
    those of the selection, its headers are the labels, and the row at
    position [r], an object that inherits from Object.prototype, has
    under each label the own property whose value is what the column's
    formatter gave for the [r]-th row id, or null when that value is
    falsy. *)
Theorem addSelection_then_format :
  ∀ (id : string) (now : nat) (sheetName : string) (sectionId : nat)
    (tableId : string) (sel : CopySelection.t)
    (selections selections' : Selections) (hcs : list (string * string)),
    addSelection id now sheetName sectionId tableId sel selections
    = Ok selections' →
    Forall2 answers (CopySelection.fields sel) hcs →
    length (CopySelection.columns sel) = length (CopySelection.fields sel) →
    NoDup hcs.*1 → NoDup hcs.*2 →
    "__proto__" ∉ hcs.*1 → "__proto__" ∉ hcs.*2 →
    sheetName ≠ "" → tableId ≠ "" →
    ∃ f rows,
      getFormattedData selections'
      = Ok ((formatted <$> omap usable selections) ++ [f])
      ∧ Formatted.table f = Some tableId
      ∧ Formatted.sheet f = Some sheetName
      ∧ Formatted.rowCount f = length (CopySelection.rowIds sel)
      ∧ Formatted.columnCount f = length (CopySelection.fields sel)
      ∧ Formatted.headers f = Some hcs.*1
      ∧ Formatted.data f = Some rows
      ∧ length rows = length (CopySelection.rowIds sel)
      ∧ ∀ r rowId i h c g,
          CopySelection.rowIds sel !! r = Some rowId →
          hcs !! i = Some (h, c) →
          CopySelection.columns sel !! i = Some g →
          ∃ row, rows !! r = Some row
                 ∧ own row !! h = Some (js_or (g rowId) VNull)
                 ∧ proto row = ObjectPrototype
                 ∧ get_prop row h = js_or (g rowId) VNull.
Proof.
  intros id now sheetName sectionId tableId sel selections selections' hcs
    Hok Hans Hlen Hndl Hndc Hprotol Hprotoc Hsheet Htable.
  pose proof (Forall2_length _ _ _ Hans) as Hlenf.
  assert (∀ i c, hcs.*2 !! i = Some c →
            ∃ f, CopySelection.fields sel !! i = Some f
                 ∧ Field.colId_peek f = Some c) as Hcs.
  { intros i c Hi. rewrite list_lookup_fmap in Hi.
    destruct (hcs !! i) as [[h c']|] eqn:Hhc; [|done].
    simpl in Hi. injection Hi as ->.
    destruct (Forall2_lookup_r _ _ _ i _ Hans Hhc) as (f & Hf & _ & Hc & _).
    by exists f. }
  unfold addSelection in Hok.
  rewrite (collectHeaders_Ok _ (answers_labels _ _ Hans)) in Hok. simpl in Hok.
  rewrite (omap_labels _ _ Hans) in Hok.
  destruct (collectCells _ _ _) as [cellData | |] eqn:Hcells; simpl in Hok;
    [|done..].
  injection Hok as <-.
  match goal with |- context [Some ?e] =>
    match type of e with Entry.t => set (entry := e) end end.
  assert (usable (Some entry)
          = Some (entry, CopySelection.rowIds sel, CopySelection.fields sel))
    as Huse.
  { unfold usable. simpl.
    by destruct sheetName, tableId. }
  eexists (formatted (entry, CopySelection.rowIds sel, CopySelection.fields sel)),
          _.
  split_and!; try reflexivity.
  - rewrite getFormattedData_run, omap_app, fmap_app. do 2 f_equal.
    change (omap usable [Some entry])
      with (match usable (Some entry) with Some u => [u] | None => [] end).
    by rewrite Huse.
  - by rewrite length_fmap.
  - intros r rowId i h c g Hr Hhc Hg.
    eexists. split; [by rewrite list_lookup_fmap, Hr|].
    destruct (Forall2_lookup_r _ _ _ i _ Hans Hhc) as (f & Hf & _ & _ & Hcc).
    simpl in Hcc. unfold formattedRow.
    assert (Forall (λ f, Field.label_peek f ≠ Some "__proto__")
              (CopySelection.fields sel)) as Hnp.
    { clear -Hans Hprotol. induction Hans as [|x hc xs hs (Hx & _ & _) _ IH]; [done|].
      rewrite fmap_cons in Hprotol.
      apply not_elem_of_cons in Hprotol as [Hne Hprotol].
      constructor; [congruence | by apply IH]. }
    pose proof (Forall_filter_extractable entry _ _ Hnp) as Hall.
    rewrite (filter_extractable entry cellData _ hcs.*1 eq_refl
               (answers_readable _ _ Hans)) in *.
    destruct (foldl_setCell_own entry cellData rowId h _ eq_refl Hall
                (plain {[ "rowId" := rowVal rowId ]})) as [Hpr Hown].
    rewrite (lastWithLabel_unique _ _ i f h c Hans Hndl Hf Hhc), Hcc in Hown.
    simpl in Hown.
    assert (storedCell cellData rowId c = g rowId) as Hstored.
    { unfold storedCell.
      destruct (proj1 (collectCells_lookup sel _ _ _ Hcells rowId))
        as (row & Hrow & ->); [by eapply list_elem_of_lookup_2|].
      rewrite (collectRow_Ok _ rowId _ hcs.*2 0 ∅) in Hrow;
        [ | by rewrite length_fmap, Hlen | done].
      injection Hrow as <-. unfold obj_get.
      rewrite (capturedRow_lookup rowId _ ∅ i c g); [done | | ].
      + rewrite fst_zip; [done|]. rewrite length_fmap. lia.
      + apply lookup_zip_with_Some. exists c, g. split_and!; [done | | done].
        by rewrite list_lookup_fmap, Hhc. }
    rewrite Hstored in Hown.
    split_and!; [exact Hown | exact Hpr |].
    unfold get_prop. by rewrite Hown.
Qed.

Lemma addSelection_then_format_witness :
  ∃ f rows,
    getFormattedData StoreExamples.salesStored = Ok ([] ++ [f])
    ∧ Formatted.data f = Some rows
    ∧ ∃ row, rows !! 1 = Some row ∧ own row !! "Qty" = Some VNull.
Proof.
  destruct (addSelection_then_format "3-0-xyz" 0 "Sales" 3 "Sales"
              StoreExamples.qtyPrice [] StoreExamples.salesStored
              [("Qty", "q"); ("Price", "p")])
    as (f & rows & Hfmt & _ & _ & _ & _ & _ & Hdata & _ & Hrows).
  - by vm_compute.
  - repeat constructor.
  - done.
  - repeat constructor; rewrite ?elem_of_cons; [|by intros ?%elem_of_nil].
    intros [H | H%elem_of_nil]; [discriminate H | done].
  - repeat constructor; rewrite ?elem_of_cons; [|by intros ?%elem_of_nil].
    intros [H | H%elem_of_nil]; [discriminate H | done].
  - intros Hin. repeat (apply elem_of_cons in Hin as [Hin | Hin]; [discriminate Hin|]).
    by apply elem_of_nil in Hin.
  - intros Hin. repeat (apply elem_of_cons in Hin as [Hin | Hin]; [discriminate Hin|]).
    by apply elem_of_nil in Hin.
  - discriminate.
  - discriminate.
  - exists f, rows. split; [exact Hfmt|]. split; [exact Hdata|].
    destruct (Hrows 1 (RowNum 2) 0 "Qty" "q"
                (λ r, match r with RowNum 1 => VNum 5 | _ => VNum 0 end))
      as (row & Hrow & Hown & _); [reflexivity..|].
    exists row. split; [exact Hrow | exact Hown].
Defined.

Lemma removeSelection_run (entries : list Entry.t) id :
  removeSelection id (Some <$> entries)
  = Ok (Some <$> filter (λ e, Entry.id e ≠ id) entries).
Proof.
  induction entries as [|e rest IH]; [done|].
  rewrite fmap_cons. simpl. rewrite IH. simpl. rewrite filter_cons.
  by destruct (decide (Entry.id e ≠ id)).
Qed.

(** X19.  An entry captured under an empty sheet name or an empty table id
    stays in the collection but is invisible afterwards: formatting the
    collection gives the same result as before it was added. *)
Theorem addSelection_unnamed_is_skipped :
  ∀ (id : string) (now : nat) (sheetName : string) (sectionId : nat)
    (tableId : string) (sel : CopySelection.t)
    (selections selections' : Selections),
    addSelection id now sheetName sectionId tableId sel selections
    = Ok selections' →
    sheetName = "" ∨ tableId = "" →
    getFormattedData selections' = getFormattedData selections
    ∧ hasSelections selections' = true.
Proof.
  intros id now sheetName sectionId tableId sel selections selections'
    Hok Hempty.
  unfold addSelection in Hok.
  destruct (collectHeaders _) as [headers | |]; simpl in Hok; [|done..].
  destruct (collectCells _ _ _) as [cellData | |]; simpl in Hok; [|done..].
  injection Hok as <-. split.
  - rewrite !getFormattedData_run, omap_app. do 2 f_equal.
    rewrite <- (app_nil_r (omap usable selections)) at 2. f_equal.
    match goal with |- omap usable [?e] = _ =>
      change (omap usable [e])
        with (match usable e with Some u => [u] | None => [] end);
      assert (usable e = None) as -> end; [|done].
    unfold usable. simpl.
    destruct Hempty as [-> | ->]; simpl; [by rewrite andb_false_r | done].
  - unfold hasSelections. rewrite length_app. simpl. apply Nat.ltb_lt. lia.
Qed.

Lemma addSelection_unnamed_is_skipped_witness :
  getFormattedData
    (match addSelection "3-0-xyz" 0 "" 3 "Sales" StoreExamples.qtyPrice [] with
     | Ok selections => selections
     | _ => []
     end)
  = getFormattedData [].
Proof.
  apply (proj1 (addSelection_unnamed_is_skipped "3-0-xyz" 0 "" 3 "Sales"
                  StoreExamples.qtyPrice [] _ eq_refl (or_introl eq_refl))).
Defined.

(** X20.  Adding a selection under an id no entry has yet and then removing
    that id gives back the collection as it was; removing any other id
    afterwards keeps the new entry, at the end. *)
Theorem addSelection_then_remove :
  ∀ (id : string) (now : nat) (sheetName : string) (sectionId : nat)
    (tableId : string) (sel : CopySelection.t)
    (entries : list Entry.t) (selections' : Selections),
    addSelection id now sheetName sectionId tableId sel (Some <$> entries)
    = Ok selections' →
    (id ∉ Entry.id <$> entries →
     removeSelection id selections' = Ok (Some <$> entries))
    ∧ (∀ other, other ≠ id →
         ∃ kept e,
           removeSelection other selections' = Ok (kept ++ [Some e])
           ∧ last selections' = Some (Some e)
           ∧ removeSelection other (Some <$> entries) = Ok kept).
Proof.
  intros id now sheetName sectionId tableId sel entries selections' Hok.
  unfold addSelection in Hok.
  destruct (collectHeaders _) as [headers | |]; simpl in Hok; [|done..].
  destruct (collectCells _ _ _) as [cellData | |]; simpl in Hok; [|done..].
  injection Hok as <-.
  match goal with |- context [[Some ?e]] => set (entry := e) end.
  change [Some entry] with (Some <$> [entry]). rewrite <- fmap_app. split.
  - intros Hfresh. rewrite removeSelection_run, filter_app.
    rewrite (filter_cons _ entry), decide_False by (intros Hne; by apply Hne).
    rewrite filter_nil, app_nil_r.
    assert (filter (λ e, Entry.id e ≠ id) entries = entries) as ->; [|done].
    clear -Hfresh. induction entries as [|e rest IH]; [done|].
    rewrite fmap_cons in Hfresh. apply not_elem_of_cons in Hfresh as [Hne Hfresh].
    rewrite filter_cons, decide_True by done. by rewrite IH.
  - intros other Hne.
    exists (Some <$> filter (λ e, Entry.id e ≠ other) entries), entry.
    rewrite !removeSelection_run, filter_app, fmap_app.
    rewrite filter_cons, decide_True by done.
    split_and!; [done | | done]. rewrite fmap_app. apply last_snoc.
Qed.

Lemma addSelection_then_remove_witness :
  removeSelection "3-0-xyz" StoreExamples.salesStored = Ok (Some <$> []).
Proof.
  apply (proj1 (addSelection_then_remove "3-0-xyz" 0 "Sales" 3 "Sales"
                  StoreExamples.qtyPrice [] StoreExamples.salesStored eq_refl)).
  apply not_elem_of_nil.
Defined.

End CaptureRoundTrip.

(* ===================================================================== *)
(** * Further properties: converting a view selection *)
(* ===================================================================== *)

Section BaseViewFacts.
Import BaseView.
Local Open Scope nat_scope.

Lemma assoc_get_None {V} (o : list (string * V)) key :
  assoc_get o key = None ↔ key ∉ o.*1.
Proof.
  induction o as [|[k w] o IH]; simpl.
  - split; [intros _; apply not_elem_of_nil | done].
  - rewrite not_elem_of_cons. destruct (decide (k = key)) as [-> | Hne].
    + split; [done | by intros [? _]].
    + rewrite IH. split; [by intros ? | by intros [_ ?]].
Qed.

Lemma assoc_set_get {V} (o : list (string * V)) key v k :
  assoc_get (assoc_set o key v) k
  = if decide (key = k) then Some v else assoc_get o k.
Proof.
  induction o as [|[k0 w] o IH]; simpl.
  - by destruct (decide (key = k)).
  - destruct (decide (k0 = key)) as [-> | Hne]; simpl.
    + by destruct (decide (key = k)).
    + destruct (decide (k0 = k)) as [-> | Hne'].
      * by rewrite decide_False by congruence.
      * done.
Qed.

Lemma assoc_set_keys {V} (o : list (string * V)) key v :
  NoDup o.*1 →
  NoDup (assoc_set o key v).*1
  ∧ ∀ k, k ∈ (assoc_set o key v).*1 ↔ k = key ∨ k ∈ o.*1.
Proof.
  induction o as [|[k0 w] o IH]; simpl; intros Hnd.
  - split; [apply NoDup_singleton|]. intros k.
    rewrite list_elem_of_singleton, elem_of_nil. tauto.
  - apply NoDup_cons in Hnd as [Hfresh Hnd].
    destruct (decide (k0 = key)) as [-> | Hne]; simpl.
    + split; [by constructor|]. intros k. rewrite elem_of_cons. tauto.
    + destruct (IH Hnd) as [IHnd IHin]. split.
      * constructor; [|done]. rewrite IHin. intros [-> | ?]; done.
      * intros k. rewrite !elem_of_cons, IHin. tauto.
Qed.

(** The object the conversion starts the rows with. *)
Lemma init_bulk (colIds : list string) : ∀ o : BulkData,
  NoDup o.*1 →
  NoDup (foldl (λ b c, assoc_set b c []) o colIds).*1
  ∧ ∀ k, assoc_get (foldl (λ b c, assoc_set b c []) o colIds) k
         = if decide (k ∈ colIds) then Some [] else assoc_get o k.
Proof.
  induction colIds as [|c colIds IH]; intros o Hnd; simpl.
  - split; [done|]. intros k.
    destruct (decide (k ∈ [])) as [Hin | _]; [by apply elem_of_nil in Hin | done].
  - destruct (assoc_set_keys o c [] Hnd) as [Hnd' _].
    destruct (IH _ Hnd') as [IHnd IHget]. split; [done|].
    intros k. rewrite IHget, assoc_set_get.
    destruct (decide (k ∈ colIds)) as [Hin | Hout].
    + rewrite decide_True; [done|]. apply elem_of_cons. by right.
    + destruct (decide (c = k)) as [-> | Hne].
      * rewrite decide_True; [done|]. apply elem_of_cons. by left.
      * rewrite decide_False; [done|]. rewrite elem_of_cons. intros [-> | ?]; done.
Qed.

Lemma assoc_push_Ok (o : BulkData) key v :
  key ∈ o.*1 →
  ∃ o', assoc_push o key v = Ok o'
        ∧ o'.*1 = o.*1
        ∧ ∀ k, assoc_get o' k
               = if decide (k = key) then (λ d, d ++ [v]) <$> assoc_get o k
                 else assoc_get o k.
Proof.
  induction o as [|[k0 d] o IH]; simpl; intros Hin; [by apply elem_of_nil in Hin|].
  destruct (decide (k0 = key)) as [-> | Hne].
  - eexists. split; [done|]. split; [done|]. intros k. simpl.
    destruct (decide (key = k)) as [-> | Hne].
    + by rewrite decide_True.
    + by rewrite decide_False by congruence.
  - apply elem_of_cons in Hin as [-> | Hin]; [done|].
    destruct (IH Hin) as (o' & -> & Hkeys & Hget). simpl.
    eexists. split; [done|]. split; [by rewrite !fmap_cons, Hkeys|].
    intros k. simpl. destruct (decide (k0 = k)) as [-> | Hne'].
    + by rewrite decide_False by congruence.
    + apply Hget.
Qed.

(** One row pushes, onto every key, the values of the fields of that key. *)
Lemma fillRow_Ok (colIds : list string) rowId rest : ∀ i (o : BulkData),
  (∀ j f, rest !! j = Some f → colIds !! (i + j) = Some (colId f)) →
  (∀ f, f ∈ rest → colId f ∈ o.*1) →
  ∃ o', fillRow colIds rowId i rest o = Ok o'
        ∧ o'.*1 = o.*1
        ∧ ∀ k, assoc_get o' k = (λ d, d ++ pushed k rowId rest) <$> assoc_get o k.
Proof.
  induction rest as [|f rest IH]; intros i o Hids Hkeys; simpl.
  - exists o. split; [done|]. split; [done|]. intros k. unfold pushed. simpl.
    destruct (assoc_get o k); simpl; [by rewrite app_nil_r | done].
  - pose proof (Hids 0 f eq_refl) as Hi. rewrite Nat.add_0_r in Hi. rewrite Hi.
    destruct (assoc_push_Ok o (colId f) (getValue f rowId)) as (o1 & -> & Hk1 & Hg1).
    { apply Hkeys, elem_of_cons. by left. }
    simpl. destruct (IH (S i) o1) as (o2 & -> & Hk2 & Hg2).
    { intros j f' Hj. replace (S i + j) with (i + S j) by lia. by apply Hids. }
    { intros f' Hf'. rewrite Hk1. apply Hkeys, elem_of_cons. by right. }
    exists o2. split; [done|]. split; [by rewrite Hk2|].
    intros k. rewrite Hg2, Hg1. unfold pushed. rewrite filter_cons.
    destruct (decide (k = colId f)) as [-> | Hne].
    + rewrite decide_True by done. destruct (assoc_get o (colId f)); simpl; [|done].
      by rewrite <- app_assoc.
    + by rewrite decide_False by congruence.
Qed.

Lemma fillRows_Ok fields rowIds : ∀ o : BulkData,
  (∀ f, f ∈ fields → colId f ∈ o.*1) →
  ∃ o', fillRows fields (colId <$> fields) rowIds o = Ok o'
        ∧ o'.*1 = o.*1
        ∧ ∀ k, assoc_get o' k
               = (λ d, d ++ concat ((λ r, pushed k r fields) <$> rowIds))
                 <$> assoc_get o k.
Proof.
  induction rowIds as [|r rowIds IH]; intros o Hkeys; simpl.
  - exists o. split; [done|]. split; [done|]. intros k.
    destruct (assoc_get o k); simpl; [by rewrite app_nil_r | done].
  - destruct (fillRow_Ok (colId <$> fields) r fields 0 o) as (o1 & -> & Hk1 & Hg1).
    { intros j f Hj. simpl. by rewrite list_lookup_fmap, Hj. }
    { done. }
    simpl. destruct (IH o1) as (o2 & -> & Hk2 & Hg2).
    { intros f Hf. rewrite Hk1. by apply Hkeys. }
    exists o2. split; [done|]. split; [by rewrite Hk2|].
    intros k. rewrite Hg2, Hg1. destruct (assoc_get o k); simpl; [|done].
    by rewrite <- app_assoc.
Qed.

(** The conversion as a whole. *)
Lemma convertBaseViewSelection_run selection :
  ∃ bulk,
    convertBaseViewSelection selection = Ok (columnOf <$> fields selection, bulk)
    ∧ NoDup bulk.*1
    ∧ ∀ k, assoc_get bulk k
           = if decide (k ∈ colId <$> fields selection)
             then Some (concat ((λ r, pushed k r (fields selection))
                                <$> rowIds selection))
             else None.
Proof.
  unfold convertBaseViewSelection.
  rewrite <- list_fmap_compose.
  change (Column.id ∘ _) with colId.
  destruct (init_bulk (colId <$> fields selection) [] (NoDup_nil_2))
    as [Hnd Hget].
  set (start := foldl (λ (b : BulkData) (c : string), assoc_set b c [])
                  [] (colId <$> fields selection)) in *.
  destruct (fillRows_Ok (fields selection) (rowIds selection) start)
    as (bulk & Hrun & Hkeys & Hbulk).
  { intros f Hf.
    destruct (decide (colId f ∈ start.*1)) as [|Hout]; [done|].
    apply assoc_get_None in Hout. rewrite Hget in Hout.
    rewrite decide_True in Hout; [done|]. by apply list_elem_of_fmap_2. }
  exists bulk. unfold BulkData in *. subst start. rewrite Hrun. simpl.
  split; [done|]. split; [by rewrite Hkeys|].
  intros k. rewrite Hbulk, Hget.
  by destruct (decide (k ∈ colId <$> fields selection)).
Qed.

End BaseViewFacts.

Section BaseViewClaims.
Import BaseView.
Local Open Scope nat_scope.


Lemma filter_own_column fields f :
  NoDup (colId <$> fields) → f ∈ fields →
  filter (λ g, colId g = colId f) fields = [f].
Proof.
  induction fields as [|g fields IH]; intros Hnd Hin; [by apply elem_of_nil in Hin|].
  rewrite fmap_cons in Hnd. apply NoDup_cons in Hnd as [Hfresh Hnd].
  rewrite filter_cons. apply elem_of_cons in Hin as [-> | Hin].
  - rewrite decide_True by done. f_equal.
    clear IH Hnd. induction fields as [|h fields IH]; [done|].
    rewrite fmap_cons in Hfresh. apply not_elem_of_cons in Hfresh as [Hne Hfresh].
    rewrite filter_cons, decide_False by congruence. by apply IH.
  - rewrite decide_False; [by apply IH|].
    intros Heq. apply Hfresh. rewrite Heq. by apply list_elem_of_fmap_2.
Qed.

Lemma pushed_rows_own fields f (rowIds : list UIRowId) :
  NoDup (colId <$> fields) → f ∈ fields →
  concat ((λ r, pushed (colId f) r fields) <$> rowIds) = getValue f <$> rowIds.
Proof.
  intros Hnd Hin. induction rowIds as [|r rowIds IH]; [done|].
  rewrite !fmap_cons. change (concat (?x :: ?l)) with (x ++ concat l).
  rewrite IH. unfold pushed. by rewrite (filter_own_column _ f Hnd Hin).
Qed.





(** X23.  Creating a sheet from a converted view selection whose fields
    have pairwise different column ids: a bulk insert is sent only if the
    selection has a field, and it carries one null row id per selected row
    together with the converted data. *)
Theorem convertBaseViewSelection_createNewSheet :
  ∀ (selection : Selection) (cols : list Column.t) (bulk : BulkData)
    (Doc : Type) (gristDoc : Host.GristDoc Doc) (baseTableName : string)
    (navigate : option bool) (w : Host.World Doc)
    (tableId : string) (sentRowIds : list JsVal) (sentData : BulkData),
    convertBaseViewSelection selection = Ok (cols, bulk) →
    NoDup (colId <$> fields selection) →
    Host.Sent (Host.BulkAddRecord tableId sentRowIds sentData)
    ∈ Host.trace (SheetCreationUtils.createNewSheet gristDoc
                    {| SheetCreationUtils.baseTableName := baseTableName;
                       SheetCreationUtils.columns := cols;
                       SheetCreationUtils.bulkData := bulk;
                       SheetCreationUtils.navigateToSheet := navigate |}
                    (Host.MkWorld (Host.doc w) [])).2 →
    fields selection ≠ []
    ∧ sentRowIds = replicate (length (rowIds selection)) VNull
    ∧ sentData = bulk.
Proof.
  intros selection cols bulk Doc gristDoc baseTableName navigate w
    tableId sentRowIds sentData Hok Hnd Hsent.
  destruct (convertBaseViewSelection_run selection) as (bulk' & Hrun & Hkeys & Hget).
  pose proof Hok as Hok'. rewrite Hrun in Hok'. injection Hok' as <- <-.
  match type of Hsent with context [SheetCreationUtils.createNewSheet _ ?o ?w0] =>
    destruct (createNewSheet_sent gristDoc o w0) as (evs & Htr & Hiff & _) end.
  rewrite Htr in Hsent. simpl in Hsent.
  apply Hiff in Hsent as (_ & _ & Hne & -> & ->). simpl in *.
  destruct (decide (fields selection = [])) as [Hnil | Hfields].
  - exfalso. apply Hne. destruct bulk' as [|[k d] rest]; [done|].
    specialize (Hget k). rewrite Hnil in Hget. simpl in Hget.
    rewrite decide_True in Hget by done.
    by destruct (decide (k ∈ [])) as [Hin%elem_of_nil|].
  - split_and!; [done | | done]. f_equal.
    destruct (fields selection) as [|f fs] eqn:Hfs; [done|].
    destruct bulk' as [|[k d] rest]; [done|]. unfold numRowsOf. simpl.
    assert (assoc_get ((k, d) :: rest) k = Some d) as Hd.
    { simpl. by rewrite decide_True. }
    rewrite Hget in Hd.
    destruct (decide (k ∈ colId <$> f :: fs)) as [Hk|]; [|done].
    apply list_elem_of_fmap in Hk as (g & -> & Hg). injection Hd as <-.
    rewrite <- Hfs in *. rewrite (pushed_rows_own _ g _ Hnd Hg).
    by rewrite length_fmap.
Qed.

Lemma convertBaseViewSelection_createNewSheet_witness :
  [VNull; VNull]
  = replicate (length (rowIds BaseViewExamples.qtyPrice)) VNull.
Proof.
  destruct (convertBaseViewSelection_createNewSheet BaseViewExamples.qtyPrice
              (columnOf <$> fields BaseViewExamples.qtyPrice)
              [("Qty", [VNum 5; VNum 7]); ("Price", [VNum 10; VNum 20])]
              ExampleHost.Doc ExampleHost.gristDoc "Copy" None
              ExampleHost.emptyWorld "Copy" [VNull; VNull]
              [("Qty", [VNum 5; VNum 7]); ("Price", [VNum 10; VNum 20])])
    as (_ & Hrows & _).
  - by vm_compute.
  - repeat constructor; rewrite ?elem_of_cons; [|by intros ?%elem_of_nil].
    intros [H | H%elem_of_nil]; [discriminate H | done].
  - vm_compute. apply elem_of_cons. right. apply elem_of_cons. by left.
  - exact Hrows.
Defined.

End BaseViewClaims.

(* ===================================================================== *)
(** * Further properties: validating files to import *)
(* ===================================================================== *)

Section ValidationFacts.
Import Text ClientFileValidation.
Local Open Scope nat_scope.

(** A letter, digit or underscore is neither special nor white space. *)
Lemma word_char_plain c :
  Merge.is_word_char c = true → is_special c = false ∧ is_whitespace c = false.
Proof.
  destruct c as [[] [] [] [] [] [] [] []]; vm_compute; intros H;
    first [discriminate H | done].
Qed.

Lemma string_exists_false p s :
  string_exists p s = false ↔ string_forall (λ c, negb (p c)) s = true.
Proof.
  induction s as [|c s IH]; simpl; [done|].
  rewrite orb_false_iff, andb_true_iff, IH, negb_true_iff. done.
Qed.

Lemma word_string_plain s :
  string_forall Merge.is_word_char s = true →
  string_exists is_special s = false ∧ string_exists is_whitespace s = false.
Proof.
  intros Hw. split; apply string_exists_false;
    (eapply string_forall_impl; [|exact Hw]); intros c Hc;
    destruct (word_char_plain c Hc) as [H1 H2]; by rewrite ?H1, ?H2.
Qed.

Lemma length_zero_nil {A} (l : list A) : (length l =? 0) = true ↔ l = [].
Proof. destruct l; simpl; [done | split; discriminate]. Qed.

(** X24.  [validateNameText] reports nothing exactly when the text has no
    special character (or those are allowed) and no white space (or that
    is allowed); it reports at most two errors, the one about special
    characters first; a text of letters, digits and underscores only is
    always accepted. *)
Theorem validateNameText_spec :
  ∀ (text : string) (type : NameType) (allowSpecialChars allowSpaces : bool),
    let errs := validateNameText text type allowSpecialChars allowSpaces in
    (errs = []
     ↔ (allowSpecialChars = true ∨ string_exists is_special text = false)
       ∧ (allowSpaces = true ∨ string_exists is_whitespace text = false))
    ∧ length errs ≤ 2
    ∧ (length errs = 2 →
       ∃ rest, errs !! 0
               = Some (capitalize (typeText type) +:+ " " +:+ dquote +:+ text
                       +:+ dquote +:+ " contains special characters. ")
               ∧ errs !! 1
                 = Some (capitalize (typeText type) +:+ " " +:+ dquote +:+ text
                         +:+ dquote +:+ " contains spaces.")
               ∧ rest = drop 2 errs)
    ∧ (string_forall Merge.is_word_char text = true → errs = []).
Proof.
  intros text type allowSpecialChars allowSpaces errs. subst errs.
  unfold validateNameText. split_and!.
  - destruct allowSpecialChars, allowSpaces,
      (string_exists is_special text), (string_exists is_whitespace text);
      simpl; split; intros H; try done; try tauto;
      destruct H as [[?|?] [?|?]]; done.
  - destruct (negb allowSpecialChars && _), (negb allowSpaces && _); simpl; lia.
  - destruct (negb allowSpecialChars && _), (negb allowSpaces && _); simpl;
      intros H; try lia. by eexists.
  - intros Hw. destruct (word_string_plain text Hw) as [-> ->].
    by rewrite !andb_false_r.
Qed.

Lemma validateNameText_spec_witness :
  validateNameText "Sales_2024" Filename false false = [].
Proof.
  apply (proj2 (proj2 (proj2 (validateNameText_spec "Sales_2024" Filename
                                false false)))).
  by vm_compute.
Defined.

Section WithPath.
Variable extname : string → string.
Variable basename : string → string → string.

Lemma validateSheet_app options acc sheet :
  validateSheet options acc sheet = acc ++ validateSheet options [] sheet.
Proof.
  unfold validateSheet.
  destruct (negb (allowMergedCells options) && hasMerges sheet); simpl;
    by rewrite ?app_assoc.
Qed.

Lemma foldl_validateSheet options sheets : ∀ acc,
  foldl (validateSheet options) acc sheets
  = acc ++ concat (validateSheet options [] <$> sheets).
Proof.
  induction sheets as [|sheet sheets IH]; intros acc;
    [simpl; by rewrite app_nil_r|].
  rewrite !fmap_cons. cbn [foldl concat].
  rewrite IH, (validateSheet_app options acc). by rewrite app_assoc.
Qed.

Lemma validateFile_app options es ws file :
  validateFile extname basename options (es, ws) file
  = (es ++ (validateFile extname basename options ([], []) file).1,
     ws ++ (validateFile extname basename options ([], []) file).2).
Proof.
  unfold validateFile. destruct (isExcelFile extname (fileName file)); simpl;
    by rewrite <- ?app_assoc, ?app_nil_r.
Qed.

Lemma foldl_validateFile options files : ∀ es ws,
  foldl (validateFile extname basename options) (es, ws) files
  = (es ++ concat ((λ f, (validateFile extname basename options ([], []) f).1)
                   <$> files),
     ws ++ concat ((λ f, (validateFile extname basename options ([], []) f).2)
                   <$> files)).
Proof.
  induction files as [|file files IH]; intros es ws;
    [simpl; by rewrite !app_nil_r|].
  rewrite !fmap_cons. cbn [foldl concat].
  rewrite (validateFile_app options es ws), IH. by rewrite !app_assoc.
Qed.

(** What the import validation reports for the files, as a whole. *)
Lemma validateFilesForImport_run files options :
  errors (validateFilesForImport extname basename files options)
  = concat ((λ f, errors (validateFilesForImport extname basename [f] options))
            <$> files)
  ∧ warnings (validateFilesForImport extname basename files options)
    = concat ((λ f, warnings (validateFilesForImport extname basename [f] options))
              <$> files).
Proof.
  unfold validateFilesForImport.
  rewrite (foldl_validateFile options files [] []). simpl.
  split; f_equal; apply list_fmap_ext; intros i f _; simpl;
    by destruct (isExcelFile extname (fileName f)).
Qed.

End WithPath.
End ValidationFacts.

Section ValidationClaims.
Import Text ClientFileValidation.
Local Open Scope nat_scope.

Lemma validateNameText_nil text type allowSpecialChars allowSpaces :
  validateNameText text type allowSpecialChars allowSpaces = []
  ↔ (allowSpecialChars = true ∨ string_exists is_special text = false)
    ∧ (allowSpaces = true ∨ string_exists is_whitespace text = false).
Proof.
  unfold validateNameText.
  destruct allowSpecialChars, allowSpaces,
    (string_exists is_special text), (string_exists is_whitespace text);
    simpl; split; intros H; try done; try tauto;
    destruct H as [[?|?] [?|?]]; done.
Qed.

Lemma validateSheet_nil options sheet :
  validateSheet options [] sheet = []
  ↔ validateNameText (name sheet) SheetName
      (allowSpecialCharsInSheetName options) (allowSpacesInSheetName options) = []
    ∧ (allowMergedCells options = true ∨ hasMerges sheet = false).
Proof.
  unfold validateSheet. simpl.
  destruct (validateNameText _ _ _ _) as [|e es],
           (allowMergedCells options), (hasMerges sheet); simpl;
    split; intros H; try done; try tauto;
    destruct H as [? [?|?]]; done.
Qed.

Lemma concat_nil_Forall {A} (ls : list (list A)) :
  concat ls = [] ↔ Forall (λ l, l = []) ls.
Proof.
  induction ls as [|l ls IH]; simpl; [by split; [constructor|] |].
  rewrite Forall_cons, <- IH. destruct l; simpl; [tauto|].
  split; [done | by intros [? _]].
Qed.

(** X25.  [validateFilename] judges the base name only (the file name
    without directories and extension): the result is valid exactly when
    the base name has no special character (unless allowed) and no white
    space (unless allowed).  It is valid if and only if it has no errors;
    it has at most two errors and never a warning. *)
Theorem validateFilename_spec :
  ∀ (extname : string → string) (basename : string → string → string)
    (filename : string) (options : ImportFileValidationOptions),
    let r := validateFilename extname basename filename options in
    let baseName := basename filename (extname filename) in
    (isValid r = true ↔ errors r = [])
    ∧ (isValid r = true
       ↔ (allowSpecialCharsInFilename options = true
          ∨ string_exists is_special baseName = false)
         ∧ (allowSpacesInFilename options = true
            ∨ string_exists is_whitespace baseName = false))
    ∧ length (errors r) ≤ 2
    ∧ warnings r = [].
Proof.
  intros extname basename filename options r baseName. subst r baseName.
  unfold validateFilename. simpl. split_and!.
  - apply length_zero_nil.
  - rewrite length_zero_nil. apply validateNameText_nil.
  - unfold validateNameText.
    destruct (negb _ && _), (negb _ && _); simpl; lia.
  - done.
Qed.

(** X26.  [validateExcelFile] never blocks on a file it cannot read: when
    loading fails the result is valid, without errors and with exactly one
    warning.  When the workbook loads there is no warning, and the result
    is valid exactly when every sheet has an acceptable name and, unless
    merged cells are allowed, no merged cells. *)
Theorem validateExcelFile_spec :
  ∀ (file : File) (options : ImportFileValidationOptions),
    let r := validateExcelFile file options in
    (isValid r = true ↔ errors r = [])
    ∧ (∀ message, content file = LoadFailed message →
         isValid r = true ∧ errors r = [] ∧ length (warnings r) = 1)
    ∧ (∀ sheets, content file = Loaded sheets →
         warnings r = []
         ∧ (isValid r = true
            ↔ Forall (λ sheet,
                 validateNameText (name sheet) SheetName
                   (allowSpecialCharsInSheetName options)
                   (allowSpacesInSheetName options) = []
                 ∧ (allowMergedCells options = true ∨ hasMerges sheet = false))
                sheets)).
Proof.
  intros file options r. subst r. unfold validateExcelFile. split_and!.
  - destruct (content file); simpl; [apply length_zero_nil | done].
  - intros message ->. done.
  - intros sheets ->. simpl. split; [done|].
    rewrite length_zero_nil, foldl_validateSheet. simpl.
    rewrite concat_nil_Forall, Forall_fmap. apply Forall_iff. intros sheet.
    apply validateSheet_nil.
Qed.

Lemma validateExcelFile_spec_witness :
  isValid (validateExcelFile
             {| fileName := "report.xlsx"; content := LoadFailed None |}
             {| allowSpecialCharsInFilename := false;
                allowSpacesInFilename := false;
                allowSpecialCharsInSheetName := false;
                allowSpacesInSheetName := false;
                allowMergedCells := false |}) = true.
Proof.
  apply (proj1 (proj2 (validateExcelFile_spec
                         {| fileName := "report.xlsx";
                            content := LoadFailed None |} _)) None eq_refl).
Defined.

(** X27.  [validateFilesForImport] is valid if and only if it reports no
    error.  Its errors and its warnings are those of the single files, in
    file order, so validating two lists one after the other and appending
    the reports gives the report of the appended list, and the whole list
    is valid exactly when every file is valid on its own. *)
Theorem validateFilesForImport_spec :
  ∀ (extname : string → string) (basename : string → string → string)
    (files files' : list File) (options : ImportFileValidationOptions),
    let validate := λ fs, validateFilesForImport extname basename fs options in
    (isValid (validate files) = true ↔ errors (validate files) = [])
    ∧ errors (validate (files ++ files'))
      = errors (validate files) ++ errors (validate files')
    ∧ warnings (validate (files ++ files'))
      = warnings (validate files) ++ warnings (validate files')
    ∧ (isValid (validate files) = true
       ↔ Forall (λ f, isValid (validate [f]) = true) files).
Proof.
  intros extname basename files files' options validate. subst validate.
  assert (∀ fs, isValid (validateFilesForImport extname basename fs options) = true
                ↔ errors (validateFilesForImport extname basename fs options) = [])
    as Hvalid.
  { intros fs. unfold validateFilesForImport.
    destruct (foldl _ _ fs) as [es ws]. simpl. apply length_zero_nil. }
  cbv beta. split_and!.
  - apply Hvalid.
  - rewrite !(proj1 (validateFilesForImport_run extname basename _ options)).
    by rewrite fmap_app, concat_app.
  - rewrite !(proj2 (validateFilesForImport_run extname basename _ options)).
    by rewrite fmap_app, concat_app.
  - rewrite Hvalid.
    rewrite (proj1 (validateFilesForImport_run extname basename files options)).
    rewrite concat_nil_Forall, Forall_fmap. apply Forall_iff. intros f. simpl.
    by rewrite Hvalid.
Qed.

(** X28.  The content of a file is looked at only when its extension, lower
    cased, is .xlsx, .xls or .xlsm.  Any other file contributes just the
    errors of its file name and never a warning; a spreadsheet file that
    cannot be loaded contributes the errors of its file name and exactly
    one warning, so it never makes the import invalid by itself. *)
Theorem validateFilesForImport_content :
  ∀ (extname : string → string) (basename : string → string → string)
    (file : File) (options : ImportFileValidationOptions),
    let r := validateFilesForImport extname basename [file] options in
    let byName := validateFilename extname basename (fileName file) options in
    (toLowerCase (extname (fileName file)) ∉ [".xlsx"; ".xls"; ".xlsm"] →
     errors r = errors byName ∧ warnings r = [])
    ∧ (toLowerCase (extname (fileName file)) ∈ [".xlsx"; ".xls"; ".xlsm"] →
       ∀ message, content file = LoadFailed message →
         errors r = errors byName
         ∧ length (warnings r) = 1
         ∧ isValid r = isValid byName).
Proof.
  intros extname basename file options r byName. subst r byName.
  unfold validateFilesForImport, validateFile, isExcelFile. simpl. split.
  - intros Hext. by rewrite bool_decide_eq_false_2.
  - intros Hext message Hload. rewrite bool_decide_eq_true_2 by done.
    unfold validateExcelFile. rewrite Hload. simpl.
    by rewrite !app_nil_r.
Qed.

Lemma validateFilesForImport_content_witness :
  warnings (validateFilesForImport (λ _, ".csv") (λ name _, name)
              [ {| fileName := "data"; content := LoadFailed None |} ]
              {| allowSpecialCharsInFilename := false;
                 allowSpacesInFilename := false;
                 allowSpecialCharsInSheetName := false;
                 allowSpacesInSheetName := false;
                 allowMergedCells := false |}) = [].
Proof.
  apply (proj1 (validateFilesForImport_content (λ _, ".csv") (λ name _, name)
                  {| fileName := "data"; content := LoadFailed None |} _)).
  vm_compute. intros Hin.
  repeat (apply elem_of_cons in Hin as [Hin | Hin]; [discriminate Hin|]).
  by apply elem_of_nil in Hin.
Defined.

End ValidationClaims.

Section LegacyValidationFacts.
Import Text.
Local Open Scope nat_scope.

Lemma legacy_validateFile_app options extname basename errs file :
  ClientValidation.validateFile extname basename options errs file
  = errs ++ ClientValidation.validateFile extname basename options [] file.
Proof.
  unfold ClientValidation.validateFile.
  by destruct (negb _); rewrite ?app_nil_r.
Qed.

Lemma legacy_foldl_validateFile options extname basename files errs :
  foldl (ClientValidation.validateFile extname basename options) errs files
  = errs ++ concat (ClientValidation.validateFile extname basename options []
                      <$> files).
Proof.
  revert errs. induction files as [|f files IH]; intros errs.
  - simpl. by rewrite app_nil_r.
  - rewrite fmap_cons. cbn [foldl concat]. rewrite IH.
    rewrite (legacy_validateFile_app options extname basename errs f).
    by rewrite <- app_assoc.
Qed.

(** X29.  The earlier [validateFilesForImport] reports one error per
    rejected file, never more: the number of errors is the number of files
    whose name [validateFilename] rejects, every error names its file, and
    the import is valid exactly when every file name is valid. *)
Theorem legacy_validateFilesForImport_spec :
  ∀ (extname : string → string) (basename : string → string → string)
    (files : list string) (options : ClientValidation.ClientValidationOptions),
    let valid := λ f,
      ClientValidation.isValid
        (ClientValidation.validateFilename extname basename f options) in
    let r := ClientValidation.validateFilesForImport extname basename files options in
    length (ClientValidation.errors r) = length (filter (λ f, valid f = false) files)
    ∧ ClientValidation.errors r
      = (λ f, "File " +:+ dquote +:+ f +:+ dquote +:+ ": "
              +:+ join ", " (ClientValidation.errors
                    (ClientValidation.validateFilename extname basename f options)))
        <$> filter (λ f, valid f = false) files
    ∧ (ClientValidation.isValid r = true ↔ Forall (λ f, valid f = true) files).
Proof.
  intros extname basename files options valid r. subst r.
  unfold ClientValidation.validateFilesForImport. simpl.
  rewrite (legacy_foldl_validateFile options extname basename files []). simpl.
  set (msg := λ f : string, _ +:+ _).
  assert (concat (ClientValidation.validateFile extname basename options []
                    <$> files)
          = msg <$> filter (λ f, valid f = false) files) as ->.
  { induction files as [|f files IH]; [done|].
    rewrite fmap_cons, filter_cons. cbn [concat]. rewrite IH.
    unfold ClientValidation.validateFile at 1. fold (valid f).
    destruct (decide (valid f = false)) as [Hf | Hf].
    - rewrite Hf. by simpl.
    - destruct (valid f); [done | by destruct Hf]. }
  split_and!.
  - by rewrite length_fmap.
  - done.
  - rewrite length_fmap, length_zero_nil.
    induction files as [|f files IH]; [by split; [constructor|] |].
    rewrite filter_cons, Forall_cons.
    destruct (decide (valid f = false)) as [Hf | Hf].
    + rewrite Hf. split; [done | by intros [? _]].
    + rewrite IH. destruct (valid f); [tauto | by destruct Hf].
Qed.

(** X30.  Both validation modules accept the same file names: for equal
    file-name flags the earlier [validateFilename] and the one of
    ClientFileValidation agree on validity and on the number of errors,
    whatever the sheet flags are. *)
Theorem validateFilename_agrees :
  ∀ (extname : string → string) (basename : string → string → string)
    (filename : string) (special spaces sheetSpecial sheetSpaces merged : bool),
    let old := ClientValidation.validateFilename extname basename filename
                 {| ClientValidation.allowSpecialCharsInFilename := special;
                    ClientValidation.allowSpacesInFilename := spaces |} in
    let new := ClientFileValidation.validateFilename extname basename filename
                 {| ClientFileValidation.allowSpecialCharsInFilename := special;
                    ClientFileValidation.allowSpacesInFilename := spaces;
                    ClientFileValidation.allowSpecialCharsInSheetName := sheetSpecial;
                    ClientFileValidation.allowSpacesInSheetName := sheetSpaces;
                    ClientFileValidation.allowMergedCells := merged |} in
    ClientValidation.isValid old = ClientFileValidation.isValid new
    ∧ length (ClientValidation.errors old)
      = length (ClientFileValidation.errors new).
Proof.
  intros extname basename filename special spaces sheetSpecial sheetSpaces merged.
  cbv zeta.
  unfold ClientValidation.validateFilename, ClientFileValidation.validateFilename,
    ClientFileValidation.validateNameText. simpl.
  by destruct (negb special && _), (negb spaces && _).
Qed.

End LegacyValidationFacts.
